(** * hack_vm_translator: the VM-to-Hack translator, embedded and verified

    The translator reads VM command lines, parses each into an
    [Instruction] and emits Hack assembly text.  This development embeds

    - the Go string helpers the translator relies on ([strings.Split],
      [strings.TrimSpace], [strconv.Atoi], ...),
    - the command model and [parseInstruction],
    - the code generator ([GenAsm], [genCall], [genReturn], ...) with its
      two package-level variables threaded as an explicit state,
    - the module sequencing part of [main], its translation loop and its
      comparison against a reference file,
    - a model of the Hack target machine on which the emitted text runs,

    and then states the properties of the translator as theorems. *)

From Stdlib Require Import ZArith List Bool Lia Ascii String.
From Stdlib Require Import Numbers.DecimalString Numbers.DecimalZ Numbers.DecimalPos.
From Stdlib Require Decimal.
From Stdlib Require Import Sorting.Permutation.
Import ListNotations.

Local Open Scope string_scope.
Local Open Scope Z_scope.

(* ================================================================== *)
(** ** Go library functions used by the translator *)
(* ================================================================== *)

(** Go strings are byte sequences; they are modelled as [string], a list
    of 8-bit [ascii], and a rune outside ASCII is the bytes of its UTF-8
    encoding.  A byte from 128 up is written by its three-digit code. *)
Module Go.

Definition code (c : ascii) : N := N_of_ascii c.

Definition isDigit (c : ascii) : bool :=
  (48 <=? code c)%N && (code c <=? 57)%N.

Definition isUpper (c : ascii) : bool :=
  (65 <=? code c)%N && (code c <=? 90)%N.

Definition isLower (c : ascii) : bool :=
  (97 <=? code c)%N && (code c <=? 122)%N.

(** White space as [unicode.IsSpace] has it.  In ASCII: tab, line feed,
    vertical tab, form feed, carriage return and space.  Beyond ASCII,
    by the bytes of the encoding: U+0085 and U+00A0 (two bytes), U+1680,
    U+2000 to U+200A, U+2028, U+2029, U+202F, U+205F and U+3000 (three
    bytes).  No encoding of one of these runes ends another, and a byte
    sequence that is not valid UTF-8 decodes to no white space. *)
Definition isSpace (c : ascii) : bool :=
  ((9 <=? code c)%N && (code c <=? 13)%N) || (code c =? 32)%N.

Definition isSpace2 (a b : ascii) : bool :=
  (code a =? 194)%N && ((code b =? 133) || (code b =? 160))%N.

Definition isSpace3 (a b c : ascii) : bool :=
  ((code a =? 225) && (code b =? 154) && (code c =? 128))%N
  || ((code a =? 226) && (code b =? 128)
      && (((128 <=? code c) && (code c <=? 138))
          || (code c =? 168) || (code c =? 169) || (code c =? 175)))%N
  || ((code a =? 226) && (code b =? 129) && (code c =? 159))%N
  || ((code a =? 227) && (code b =? 128) && (code c =? 128))%N.

Definition toLowerChar (c : ascii) : ascii :=
  if isUpper c then ascii_of_N (code c + 32) else c.

Definition toUpperChar (c : ascii) : ascii :=
  if isLower c then ascii_of_N (code c - 32) else c.

Fixpoint mapString (f : ascii -> ascii) (s : string) : string :=
  match s with
  | EmptyString => EmptyString
  | String c r => String (f c) (mapString f r)
  end.

(** [strings.ToLower], as far as its result can be an ASCII text.  The
    ASCII capitals are lowered; of the runes outside ASCII, the two that
    [unicode.ToLower] sends into ASCII are: U+0130 (bytes 196 176) to
    [i] and U+212A (bytes 226 132 170) to [k]; every other byte from
    128 up is kept, where Go puts the lower-case rune, or U+FFFD for a
    byte that is not valid UTF-8, neither of them ASCII.  So the result
    is an ASCII text exactly when Go's is, and then it is the same
    text; the translator only compares the result with ASCII words and
    keeps it when it is one of them. *)
Fixpoint ToLower (s : string) : string :=
  match s with
  | EmptyString => EmptyString
  | String a r1 =>
      match r1 with
      | EmptyString => String (toLowerChar a) EmptyString
      | String b r2 =>
          if ((code a =? 196) && (code b =? 176))%N
          then String "i" (ToLower r2)
          else
            match r2 with
            | EmptyString => String (toLowerChar a) (ToLower r1)
            | String c r3 =>
                if ((code a =? 226) && (code b =? 132) && (code c =? 170))%N
                then String "k" (ToLower r3)
                else String (toLowerChar a) (ToLower r1)
            end
      end
  end.

(** [strings.ToUpper] on ASCII text, which is all the translator gives
    it: the name of a comparison, a suffix, a dot and a decimal number. *)
Definition ToUpper : string -> string := mapString toUpperChar.

(** [strings.HasPrefix s prefix] *)
Fixpoint HasPrefix (s p : string) : bool :=
  match p with
  | EmptyString => true
  | String b p' =>
      match s with
      | EmptyString => false
      | String a s' => Ascii.eqb a b && HasPrefix s' p'
      end
  end.

(** [strings.Contains s substr] *)
Fixpoint Contains (s sub : string) : bool :=
  HasPrefix s sub ||
  match s with
  | EmptyString => false
  | String _ r => Contains r sub
  end.

(** [revString acc s]: [s] reversed, put before [acc]. *)
Fixpoint revString (acc s : string) : string :=
  match s with
  | EmptyString => acc
  | String c r => revString (String c acc) r
  end.

(** Runes of one, two or three bytes, told by [one], [two] and [three],
    are dropped from the start of a text for as long as it starts with
    one. *)
Fixpoint trimRunes (one : ascii -> bool) (two : ascii -> ascii -> bool)
  (three : ascii -> ascii -> ascii -> bool) (s : string) : string :=
  match s with
  | EmptyString => EmptyString
  | String a r1 =>
      if one a then trimRunes one two three r1
      else
        match r1 with
        | EmptyString => s
        | String b r2 =>
            if two a b then trimRunes one two three r2
            else
              match r2 with
              | EmptyString => s
              | String c r3 =>
                  if three a b c then trimRunes one two three r3 else s
              end
        end
  end.

(** Leading white space is dropped. *)
Definition trimLeft : string -> string := trimRunes isSpace isSpace2 isSpace3.

(** Trailing white space is dropped: Go decodes the last rune of the
    text, again and again, and drops it while it is white space.  Here
    the text is reversed, which brings the bytes of its last rune to
    the front, last byte first. *)
Definition trimReversed : string -> string :=
  trimRunes isSpace (fun a b => isSpace2 b a) (fun a b c => isSpace3 c b a).

Definition trimRight (s : string) : string :=
  revString EmptyString (trimReversed (revString EmptyString s)).

(** [strings.TrimSpace]: leading, then trailing white space is dropped. *)
Definition TrimSpace (s : string) : string := trimRight (trimLeft s).

(** [strings.Split s sep] for a non-empty separator: the pieces between
    the successive, non-overlapping occurrences of [sep], found left to
    right.  [skip] counts the bytes of a matched separator still to be
    passed over and [cur] holds the piece being collected, reversed. *)

Fixpoint splitGo (sep s : string) (skip : nat) (cur : string) : list string :=
  match s with
  | EmptyString => [revString EmptyString cur]
  | String c r =>
      match skip with
      | S k => splitGo sep r k cur
      | O =>
          if HasPrefix s sep
          then revString EmptyString cur
               :: splitGo sep r (Nat.pred (String.length sep)) EmptyString
          else splitGo sep r O (String c cur)
      end
  end.

Definition Split (s sep : string) : list string := splitGo sep s O EmptyString.

(** [strings.ReplaceAll s " " "_"], the one use the translator makes of it. *)
Definition ReplaceSpaces : string -> string :=
  mapString (fun c => if Ascii.eqb c " " then "_"%char else c).

(** [strings.TrimSuffix s suffix] *)
Fixpoint TrimSuffix (s suffix : string) : string :=
  match s with
  | EmptyString => EmptyString
  | String c r =>
      if String.eqb s suffix then EmptyString else String c (TrimSuffix r suffix)
  end.

(** [filepath.Ext path]: the suffix that starts at the last dot of the
    last path element, empty when there is none. *)
Fixpoint Ext (path : string) : string :=
  match path with
  | EmptyString => EmptyString
  | String c r =>
      if Ascii.eqb c "/" then Ext r
      else
        match Ext r with
        | EmptyString =>
            if Ascii.eqb c "." && negb (Contains r "/") then path else EmptyString
        | e => e
        end
  end.

Fixpoint dropTrailingSlashes (s : string) : string :=
  match s with
  | EmptyString => EmptyString
  | String c r =>
      match dropTrailingSlashes r with
      | EmptyString => if Ascii.eqb c "/" then EmptyString else String c EmptyString
      | r' => String c r'
      end
  end.

Fixpoint afterLastSlash (s : string) : string :=
  match s with
  | EmptyString => EmptyString
  | String c r => if Contains s "/" then afterLastSlash r else s
  end.

(** [filepath.Base path] on a Unix path. *)
Definition Base (path : string) : string :=
  match path with
  | EmptyString => "."
  | _ =>
      match dropTrailingSlashes path with
      | EmptyString => "/"
      | p => afterLastSlash p
      end
  end.

(** [fmt.Sprintf("%d", n)] *)
Definition itoa (n : Z) : string := NilZero.string_of_int (Z.to_int n).

(** Go's [int] is 64 bits wide on the platforms the translator targets. *)
Definition minInt : Z := - 2 ^ 63.
Definition maxInt : Z := 2 ^ 63 - 1.

Definition wrapInt (z : Z) : Z := (z - minInt) mod 2 ^ 64 + minInt.

(** [strconv.Atoi]: an optional sign, then at least one decimal digit and
    nothing else; a value outside [int] is an error. *)
Definition digitsValue (s : string) : option Z :=
  match s with
  | EmptyString => None
  | _ => option_map Z.of_uint (NilEmpty.uint_of_string s)
  end.

Definition Atoi (s : string) : option Z :=
  let signed :=
    match s with
    | String "-" r => option_map Z.opp (digitsValue r)
    | String "+" r => digitsValue r
    | _ => digitsValue s
    end in
  match signed with
  | Some v => if (minInt <=? v) && (v <=? maxInt) then Some v else None
  | None => None
  end.

End Go.

(* ================================================================== *)
(** ** Command model *)
(* ================================================================== *)

Inductive CommandType :=
| CommandTypeArithmetic
| CommandTypePush
| CommandTypePop
| CommandTypeLabel
| CommandTypeGOTO
| CommandTypeIf
| CommandTypeFunction
| CommandTypeReturn
| CommandTypeCall.

Inductive SegmentType :=
| SegmentTypeConstant
| SegmentTypeLocal
| SegmentTypeArgument
| SegmentTypeThis
| SegmentTypeThat
| SegmentTypeStatic
| SegmentTypeTemp
| SegmentTypePointer.

Inductive ALType :=
| ALTypeAdd
| ALTypeSub
| ALTypeNeg
| ALTypeEq
| ALTypeGt
| ALTypeLt
| ALTypeAnd
| ALTypeOr
| ALTypeNot.

Definition SegmentType_String (st : SegmentType) : string :=
  match st with
  | SegmentTypeConstant => "constant"
  | SegmentTypeLocal => "local"
  | SegmentTypeArgument => "argument"
  | SegmentTypeThis => "this"
  | SegmentTypeThat => "that"
  | SegmentTypeStatic => "static"
  | SegmentTypeTemp => "temp"
  | SegmentTypePointer => "pointer"
  end.

Definition SegmentType_ID (st : SegmentType) : string :=
  match st with
  | SegmentTypeLocal => "LCL"
  | SegmentTypeArgument => "ARG"
  | SegmentTypeThis => "THIS"
  | SegmentTypeThat => "THAT"
  | _ => ""
  end.

Definition ALType_String (lt : ALType) : string :=
  match lt with
  | ALTypeAdd => "add"
  | ALTypeSub => "sub"
  | ALTypeNeg => "neg"
  | ALTypeEq => "eq"
  | ALTypeGt => "gt"
  | ALTypeLt => "lt"
  | ALTypeAnd => "and"
  | ALTypeOr => "or"
  | ALTypeNot => "not"
  end.

Record Instruction := mkInstruction {
  FileName : string;
  Line : string;
  CmdType : CommandType;
  Arg1 : string;
  SegType : SegmentType;
  Arg2 : string;
  Arg2Val : Z;
  ALKind : ALType;
  Index : Z
}.

(* ================================================================== *)
(** ** The parser *)
(* ================================================================== *)

(** What a Go call can come to: a value, a returned [error] (its message)
    or a run-time panic, here the one of indexing a slice out of range. *)
Inductive result (A : Type) :=
| Ok (a : A)
| Err (msg : string)
| Panic.
Arguments Ok {A} a.
Arguments Err {A} msg.
Arguments Panic {A}.

Definition parseAL (rawAl : string) : option ALType :=
  if String.eqb rawAl "add" then Some ALTypeAdd
  else if String.eqb rawAl "sub" then Some ALTypeSub
  else if String.eqb rawAl "neg" then Some ALTypeNeg
  else if String.eqb rawAl "eq" then Some ALTypeEq
  else if String.eqb rawAl "gt" then Some ALTypeGt
  else if String.eqb rawAl "lt" then Some ALTypeLt
  else if String.eqb rawAl "and" then Some ALTypeAnd
  else if String.eqb rawAl "or" then Some ALTypeOr
  else if String.eqb rawAl "not" then Some ALTypeNot
  else None.

Definition parseCommandType (rawCt : string) : option CommandType :=
  if String.eqb rawCt "pop" then Some CommandTypePop
  else if String.eqb rawCt "push" then Some CommandTypePush
  else if String.eqb rawCt "label" then Some CommandTypeLabel
  else if String.eqb rawCt "goto" then Some CommandTypeGOTO
  else if String.eqb rawCt "if-goto" then Some CommandTypeIf
  else if String.eqb rawCt "function" then Some CommandTypeFunction
  else if String.eqb rawCt "return" then Some CommandTypeReturn
  else if String.eqb rawCt "call" then Some CommandTypeCall
  else None.

Definition parseSegment (rawSt : string) : option SegmentType :=
  if String.eqb rawSt "constant" then Some SegmentTypeConstant
  else if String.eqb rawSt "local" then Some SegmentTypeLocal
  else if String.eqb rawSt "argument" then Some SegmentTypeArgument
  else if String.eqb rawSt "this" then Some SegmentTypeThis
  else if String.eqb rawSt "that" then Some SegmentTypeThat
  else if String.eqb rawSt "static" then Some SegmentTypeStatic
  else if String.eqb rawSt "temp" then Some SegmentTypeTemp
  else if String.eqb rawSt "pointer" then Some SegmentTypePointer
  else None.

(** The "arg1" stage: the segment and first argument of a command of
    kind [ct].  [parts[1]] is read without a length check for every kind
    but [return], so a line of one token panics there. *)
Definition parseArg1 (ct : CommandType) (parts : list string)
  : result (SegmentType * string) :=
  match ct with
  | CommandTypePush | CommandTypePop =>
      match nth_error parts 1 with
      | None => Panic
      | Some p1 =>
          let rawSt := Go.ToLower p1 in
          match parseSegment rawSt with
          | Some st => Ok (st, rawSt)
          | None => Err ("invalid arg1 segment type: " ++ p1)
          end
      end
  | CommandTypeLabel | CommandTypeGOTO | CommandTypeIf
  | CommandTypeFunction | CommandTypeCall =>
      match nth_error parts 1 with
      | None => Panic
      | Some p1 => Ok (SegmentTypeConstant, p1)
      end
  | CommandTypeReturn =>
      if (1 <? Z.of_nat (List.length parts))
      then Err "invalid arg1 return, no argument expected"
      else Ok (SegmentTypeConstant, "")
  | CommandTypeArithmetic =>
      Err ("invalid command type: " ++ nth 0 parts "")
  end.

(** The "arg2" stage: the numeric field of push, pop, function and call. *)
Definition parseArg2 (ct : CommandType) (parts : list string)
  : result (string * Z) :=
  match ct with
  | CommandTypePush | CommandTypePop | CommandTypeFunction | CommandTypeCall =>
      match nth_error parts 2 with
      | None => Err ("invalid arg2 value: " ++ "")
      | Some arg2 =>
          if (0 <? Z.of_nat (String.length arg2))
          then match Go.Atoi arg2 with
               | Some v => Ok (arg2, v)
               | None => Err ("invalid arg2 value: " ++ arg2)
               end
          else Ok (arg2, 0)
      end
  | _ => Ok ("", 0)
  end.

Definition parseInstruction (index : Z) (fileName line : string)
  : result Instruction :=
  let parts := Go.Split line " " in
  let pl := Z.of_nat (List.length parts) in
  if (pl =? 0) || (3 <? pl)
  then Err ("invalid instruction length: " ++ Go.itoa pl)
  else
    match (if pl =? 1 then parseAL (nth 0 parts "") else None) with
    | Some al =>
        Ok (mkInstruction fileName line CommandTypeArithmetic (nth 0 parts "")
              SegmentTypeConstant "" 0 al index)
    | None =>
        match parseCommandType (Go.ToLower (nth 0 parts "")) with
        | None => Err ("invalid command type: " ++ nth 0 parts "")
        | Some ct =>
            match parseArg1 ct parts with
            | Panic => Panic
            | Err e => Err e
            | Ok (st, arg1) =>
                match parseArg2 ct parts with
                | Panic => Panic
                | Err e => Err e
                | Ok (arg2, arg2Val) =>
                    Ok (mkInstruction fileName line ct arg1 st arg2 arg2Val
                          ALTypeAdd 0)
                end
            end
        end
    end.

(* ================================================================== *)
(** ** The code generator *)
(* ================================================================== *)

(** The generator keeps two package-level variables,
    [currentFunctionName] (initially ["LABEL"]) and [retIndex]
    (initially 1); they are threaded here as a state.  The third
    variable of the source, [currentCallerName], is never read or
    written. *)
Record GenState := mkGenState {
  currentFunctionName : string;
  retIndex : Z
}.

Definition initialGenState : GenState := mkGenState "LABEL" 1.

Definition getLogicalLabel (i : Instruction) (prefix : string) : string :=
  Go.ToUpper ("(" ++ prefix ++ "." ++ Go.itoa (Index i) ++ ")").

Definition getLogicalARegister (i : Instruction) (prefix : string) : string :=
  Go.ToUpper ("@" ++ prefix ++ "." ++ Go.itoa (Index i)).

(** The source ends [genArithmetic] with a [default] branch that returns
    an error; [ALType] being closed here, no value reaches it. *)
Definition genArithmetic (i : Instruction) : list string :=
  match ALKind i with
  | ALTypeAdd | ALTypeSub | ALTypeAnd | ALTypeOr =>
      let op :=
        match ALKind i with
        | ALTypeAdd => "M=D+M"
        | ALTypeSub => "M=M-D"
        | ALTypeAnd => "M=D&M"
        | ALTypeOr => "M=D|M"
        | _ => ""
        end in
      ["@SP"; "AM=M-1"; "D=M"; "A=A-1"; op]
  | ALTypeNeg =>
      ["@0"; "D=A"; "@SP"; "A=M-1"; "M=D-M"]
  | ALTypeEq | ALTypeGt | ALTypeLt =>
      let id := ALType_String (ALKind i) in
      (["@SP"; "AM=M-1"; "D=M"; "A=A-1"; "D=M-D";
        getLogicalARegister i (id ++ "_true")]
       ++ match ALKind i with
          | ALTypeEq => ["D;JEQ"]
          | ALTypeGt => ["D;JGT"]
          | ALTypeLt => ["D;JLT"]
          | _ => []
          end
       ++ ["@SP"; "A=M-1"; "M=0";
           getLogicalARegister i (id ++ "_false");
           "0;JMP";
           getLogicalLabel i (id ++ "_true");
           "@SP"; "A=M-1"; "M=-1";
           getLogicalLabel i (id ++ "_false")])%list
  | ALTypeNot =>
      ["@SP"; "A=M-1"; "M=!M"]
  end.

Definition genConstantPUSH (val : Z) : list string :=
  ["@" ++ Go.itoa val; "D=A"; "@SP"; "AM=M+1"; "A=A-1"; "M=D"].

Definition genSegmentPUSH (sgt : SegmentType) (val : Z) : list string :=
  ["@" ++ Go.itoa val; "D=A"; "@" ++ SegmentType_ID sgt; "A=D+M"; "D=M";
   "@SP"; "AM=M+1"; "A=A-1"; "M=D"].

Definition genStaticPUSH (i : Instruction) : list string :=
  ["@" ++ FileName i ++ "." ++ Go.itoa (Arg2Val i);
   "D=M"; "@SP"; "AM=M+1"; "A=A-1"; "M=D"].

Definition genTempPUSH (i : Instruction) : list string :=
  ["@" ++ Go.itoa (Arg2Val i); "D=A"; "@5"; "A=D+A"; "D=M";
   "@SP"; "AM=M+1"; "A=A-1"; "M=D"].

Definition genPointerPUSH (i : Instruction) : list string :=
  ([if Arg2Val i =? 0 then "@THIS" else "@THAT"]
   ++ ["D=M"; "@SP"; "A=M"; "M=D"; "@SP"; "M=M+1"])%list.

Definition genConstantPOP : list string :=
  ["@SP"; "AM=M-1"; "D=M"].

Definition genSegmentPOP (sgt : SegmentType) (val : Z) : list string :=
  ["@" ++ Go.itoa val; "D=A"; "@" ++ SegmentType_ID sgt; "D=D+M";
   "@R13"; "M=D"; "@SP"; "AM=M-1"; "D=M"; "@R13"; "A=M"; "M=D"].

Definition genStaticPOP (i : Instruction) : list string :=
  ["@SP"; "AM=M-1"; "D=M";
   "@" ++ FileName i ++ "." ++ Go.itoa (Arg2Val i); "M=D"].

Definition genTempPOP (i : Instruction) : list string :=
  ["@" ++ Go.itoa (Arg2Val i); "D=A"; "@5"; "D=D+A"; "@R13"; "M=D";
   "@SP"; "AM=M-1"; "D=M"; "@R13"; "A=M"; "M=D"].

Definition genPointerPOP (i : Instruction) : list string :=
  (["@SP"; "AM=M-1"; "D=M"]
   ++ [if Arg2Val i =? 0 then "@THIS" else "@THAT"]
   ++ ["M=D"])%list.

(** The label a call site returns to. *)
Definition retAddrLabel (g : GenState) : string :=
  currentFunctionName g ++ "$ret." ++ Go.itoa (retIndex g).

Definition callSaveSegment (seg : SegmentType) : list string :=
  ["/// call ; working with " ++ SegmentType_ID seg;
   "@" ++ SegmentType_ID seg; "D=M"; "@SP"; "A=M"; "M=D"; "@SP"; "M=M+1"].

Definition callPushReturn (label : string) : list string :=
  ["/// call ; working with return address " ++ label;
   "@" ++ label; "D=A"; "@SP"; "A=M"; "M=D"; "@SP"; "M=M+1"].

Definition callSetARG (calleeNArgs : Z) : list string :=
  ["/// call ; ARG = SP - 5 - nArgs";
   "@" ++ Go.itoa (Go.wrapInt (5 + calleeNArgs));
   "D=A"; "@SP"; "A=M"; "D=A-D"; "@ARG"; "M=D"].

Definition callSetLCL : list string :=
  ["/// call ; LCL = SP"; "@SP"; "D=M"; "@LCL"; "M=D"].

Definition callGoto (calleeFn : string) : list string :=
  ["/// call ; goto function " ++ calleeFn; "@" ++ calleeFn; "0;JMP"].

Definition genCall (g : GenState) (calleeFn : string) (calleeNArgs : Z)
  : list string * GenState :=
  let label := retAddrLabel g in
  ((callPushReturn label
    ++ flat_map callSaveSegment
         [SegmentTypeLocal; SegmentTypeArgument; SegmentTypeThis; SegmentTypeThat]
    ++ callSetARG calleeNArgs
    ++ callSetLCL
    ++ callGoto calleeFn
    ++ [("(" ++ label ++ ")")%string])%list,
   mkGenState (currentFunctionName g) (Go.wrapInt (retIndex g + 1))).

(** [for range i.Arg2Val] runs [Arg2Val] times, not at all when it is
    zero or negative. *)
Definition genFunction (g : GenState) (i : Instruction)
  : list string * GenState :=
  (("(" ++ Arg1 i ++ ")")
   :: List.concat (repeat (genConstantPUSH 0) (Z.to_nat (Arg2Val i))),
   mkGenState (Arg1 i) (retIndex g)).

Definition returnEndFrame : list string :=
  ["/// return ; endFrame = LCL"; "@LCL"; "D=M"; "@R13"; "M=D"].

Definition returnRetAddr : list string :=
  ["/// return ; retAddr = D = RAM[endFrame - 5]";
   "@5"; "A=D-A"; "D=M"; "@R14"; "M=D"].

Definition returnValue : list string :=
  ["/// return ; RAM[ARG] = pop() = RAM[SP-1]";
   "@SP"; "A=M-1"; "D=M"; "@ARG"; "A=M"; "M=D"].

Definition returnSP : list string :=
  ["/// return ; SP = ARG + 1"; "@ARG"; "D=M+1"; "@SP"; "M=D"].

Definition returnRestore (i : Instruction) (seg : SegmentType) : list string :=
  ["/// " ++ Line i ++ " ; working with " ++ SegmentType_String seg;
   "@R13"; "ADM=M-1"; "D=M"; "@" ++ SegmentType_ID seg; "M=D"].

Definition returnGoto : list string :=
  ["/// return ; goto caller"; "@R14"; "A=M"; "0;JMP"].

Definition genReturn (i : Instruction) : list string :=
  (returnEndFrame ++ returnRetAddr ++ returnValue ++ returnSP
   ++ flat_map (returnRestore i)
        [SegmentTypeThat; SegmentTypeThis; SegmentTypeArgument; SegmentTypeLocal]
   ++ returnGoto)%list.

(** The lines [GenAsm] puts after the echo of the command.  The source
    returns an error for a command type outside the nine; the type being
    closed here, [GenAsm] is total. *)
Definition genBody (g : GenState) (i : Instruction) : list string * GenState :=
  match CmdType i with
  | CommandTypeArithmetic => (genArithmetic i, g)
  | CommandTypePush =>
      (match SegType i with
       | SegmentTypeConstant => genConstantPUSH (Arg2Val i)
       | SegmentTypeStatic => genStaticPUSH i
       | SegmentTypeTemp => genTempPUSH i
       | SegmentTypePointer => genPointerPUSH i
       | _ => genSegmentPUSH (SegType i) (Arg2Val i)
       end, g)
  | CommandTypePop =>
      (match SegType i with
       | SegmentTypeConstant => genConstantPOP
       | SegmentTypeStatic => genStaticPOP i
       | SegmentTypeTemp => genTempPOP i
       | SegmentTypePointer => genPointerPOP i
       | _ => genSegmentPOP (SegType i) (Arg2Val i)
       end, g)
  | CommandTypeLabel => (["(" ++ Arg1 i ++ ")"], g)
  | CommandTypeGOTO => (["@" ++ Arg1 i; "0;JMP"], g)
  | CommandTypeIf => (["@SP"; "AM=M-1"; "D=M"; "@" ++ Arg1 i; "D;JNE"], g)
  | CommandTypeFunction => genFunction g i
  | CommandTypeReturn => (genReturn i, g)
  | CommandTypeCall => genCall g (Arg1 i) (Arg2Val i)
  end.

Definition GenAsm (g : GenState) (i : Instruction) : list string * GenState :=
  let (body, g') := genBody g i in
  (("// " ++ Line i) :: body, g').

(* ================================================================== *)
(** ** Module sequencing and linking: the core of [main] *)
(* ================================================================== *)

(** A source file as [main] sees it: the name [os.File.Name] reports and
    the lines a [bufio.Scanner] yields. *)
Record SrcFile := mkSrcFile {
  Name : string;
  Content : list string
}.

Definition removeCommentsAndSpaces (line : string) : string :=
  match Go.Split line "//" with
  | [] => ""
  | v0 :: _ => Go.TrimSpace v0
  end.

Definition encodeLineFileName (fileName line : string) : string :=
  let fileName := Go.TrimSuffix (Go.Base fileName) (Go.Ext fileName) in
  let fileName := Go.ReplaceSpaces fileName in
  fileName ++ "#" ++ line.

Definition decodeLineFileName (line : string) : string * string :=
  match Go.Split line "#" with
  | [p0; p1] => (p0, Go.TrimSpace p1)
  | _ => ("", "")
  end.

(** The test the first scan applies to a raw line: lines that start with
    [//] and blank lines are passed over, any other line that contains
    the text [function Sys.init 0] marks its file. *)
Definition lineHasSysInit (line : string) : bool :=
  if Go.HasPrefix line "//" || String.eqb (Go.TrimSpace line) ""
  then false
  else Go.Contains line "function Sys.init 0".

Definition fileHasSysInit (f : SrcFile) : bool :=
  existsb lineHasSysInit (Content f).

(** [fileWithSysInit]: the first file, in input order, the scan marks.
    The source holds a file pointer; files are identified here by their
    position in [srcFiles]. *)
Fixpoint findSysInit (srcFiles : list SrcFile) : option nat :=
  match srcFiles with
  | [] => None
  | f :: rest =>
      if fileHasSysInit f then Some O else option_map S (findSysInit rest)
  end.

Fixpoint removeAt {A : Type} (k : nat) (l : list A) : list A :=
  match l, k with
  | [], _ => []
  | _ :: r, O => r
  | x :: r, S k' => x :: removeAt k' r
  end.

(** The order of the second scan: every other file first, the file with
    [Sys.init] last. *)
Definition orderFiles (srcFiles : list SrcFile) (fileWithSysInit : option nat)
  : list SrcFile :=
  match fileWithSysInit with
  | None => srcFiles
  | Some k =>
      (removeAt k srcFiles
       ++ match nth_error srcFiles k with Some f => [f] | None => [] end)%list
  end.

(** The cleaned, tagged command lines of one file. *)
Definition scanFile (f : SrcFile) : list string :=
  flat_map
    (fun raw =>
       let line := removeCommentsAndSpaces raw in
       if String.eqb line "" then [] else [encodeLineFileName (Name f) line])
    (Content f).

Definition instructionsLinesOf (srcFiles : list SrcFile)
  (fileWithSysInit : option nat) : option (list string) :=
  if (1 <? Z.of_nat (List.length srcFiles))
  then Some (flat_map scanFile (orderFiles srcFiles fileWithSysInit))
  else option_map scanFile (nth_error srcFiles 0).

Definition bootstrapHeader : list string :=
  ["// Bootstrap code"; "@256"; "D=A"; "@SP"; "M=D"; "/// call Sys.init 0"].

Definition bootstrap (g : GenState) : list string * GenState :=
  let (call, g') := genCall g "Sys.init" 0 in
  ((bootstrapHeader ++ call)%list, g').

(** The translation loop: command [i] of the linked program is parsed
    with index [i] and generated in the state the commands before it
    left. *)
Fixpoint translateLines (g : GenState) (i : Z) (lines : list string)
  : result (list string) :=
  match lines with
  | [] => Ok []
  | rLine :: rest =>
      let (fileName, line) := decodeLineFileName rLine in
      match parseInstruction i fileName line with
      | Panic => Panic
      | Err e => Err e
      | Ok instruction =>
          let (asm, g') := GenAsm g instruction in
          match translateLines g' (i + 1) rest with
          | Ok more => Ok (asm ++ more)%list
          | other => other
          end
      end
  end.

(** How a run ends: the process exits with a code and a message, having
    created or opened the destination file or not; it panics; or it
    writes the lines of the program.  The optional comparison against a
    reference file, which comes after the write, is left out. *)
Inductive RunOutcome :=
| Exit (code : Z) (message : string) (dstOpened : bool)
| Crash
| Written (lines : list string).

Definition translate (srcFiles : list SrcFile) : RunOutcome :=
  let hasMultipleSrcFiles := (1 <? Z.of_nat (List.length srcFiles)) in
  let fileWithSysInit := findSysInit srcFiles in
  if (match fileWithSysInit with None => true | Some _ => false end)
     && hasMultipleSrcFiles
  then Exit 1 "Sys.init not found in any source file" false
  else
    match instructionsLinesOf srcFiles fileWithSysInit with
    | None => Crash
    | Some instructionsLines =>
        if (Z.of_nat (List.length instructionsLines) =? 0)
        then Exit 1 "No source lines found" true
        else
          let (resultLines, g) :=
            match fileWithSysInit with
            | Some _ => bootstrap initialGenState
            | None => ([], initialGenState)
            end in
          match translateLines g 0 instructionsLines with
          | Ok body => Written (resultLines ++ body)%list
          | Err e => Exit 2 ("Error parsing instruction " ++ e) true
          | Panic => Crash
          end
    end.

(* ================================================================== *)
(** ** The target machine *)
(* ================================================================== *)

(** The Hack computer, as far as the emitted text uses it: the registers
    [A] and [D], a data memory of 16-bit two's-complement words, and the
    assembly language with its A-instructions, C-instructions and label
    declarations.  The machine is not part of the translator; the model
    follows the definition of the Hack machine language and of its
    assembler (Nisan and Schocken, The Elements of Computing Systems,
    chapters 4 and 6).  A block of lines is run from its first line
    until it falls off the end or takes a jump. *)
Module Hack.

Definition wrap (z : Z) : Z := (z + 32768) mod 65536 - 32768.

Record State := mkState {
  A : Z;
  D : Z;
  ram : Z -> Z
}.

Definition upd (m : Z -> Z) (a v : Z) : Z -> Z :=
  fun x => if x =? a then v else m x.

Definition SP (s : State) : Z := ram s 0.
Definition LCL (s : State) : Z := ram s 1.
Definition ARG (s : State) : Z := ram s 2.
Definition THIS (s : State) : Z := ram s 3.
Definition THAT (s : State) : Z := ram s 4.

(** The second operand of the ALU: the A register or the memory word it
    addresses. *)
Inductive Operand := OpA | OpM.

Inductive Comp :=
| CZero | COne | CMinusOne
| CD | CX (x : Operand)
| CNotD | CNotX (x : Operand)
| CNegD | CNegX (x : Operand)
| CDInc | CXInc (x : Operand)
| CDDec | CXDec (x : Operand)
| CDPlusX (x : Operand)
| CDMinusX (x : Operand)
| CXMinusD (x : Operand)
| CDAndX (x : Operand)
| CDOrX (x : Operand).

Record Dest := mkDest { toA : bool; toD : bool; toM : bool }.

Inductive Jump := JGT | JEQ | JGE | JLT | JNE | JLE | JMP.

Inductive Instr :=
| AInstr (operand : string)
| CInstr (d : Dest) (c : Comp) (j : option Jump)
| LabelDecl (name : string)
| Blank
| Invalid.

Definition compTable : list (string * Comp) :=
  [("0", CZero); ("1", COne); ("-1", CMinusOne); ("D", CD);
   ("A", CX OpA); ("M", CX OpM);
   ("!D", CNotD); ("!A", CNotX OpA); ("!M", CNotX OpM);
   ("-D", CNegD); ("-A", CNegX OpA); ("-M", CNegX OpM);
   ("D+1", CDInc); ("A+1", CXInc OpA); ("M+1", CXInc OpM);
   ("D-1", CDDec); ("A-1", CXDec OpA); ("M-1", CXDec OpM);
   ("D+A", CDPlusX OpA); ("D+M", CDPlusX OpM);
   ("D-A", CDMinusX OpA); ("D-M", CDMinusX OpM);
   ("A-D", CXMinusD OpA); ("M-D", CXMinusD OpM);
   ("D&A", CDAndX OpA); ("D&M", CDAndX OpM);
   ("D|A", CDOrX OpA); ("D|M", CDOrX OpM)].

Fixpoint lookup {V : Type} (k : string) (t : list (string * V)) : option V :=
  match t with
  | [] => None
  | (k', v) :: r => if String.eqb k k' then Some v else lookup k r
  end.

Definition parseComp (s : string) : option Comp := lookup s compTable.

Definition parseJump (s : string) : option Jump :=
  lookup s [("JGT", JGT); ("JEQ", JEQ); ("JGE", JGE); ("JLT", JLT);
            ("JNE", JNE); ("JLE", JLE); ("JMP", JMP)].

(** A destination is a non-empty group of the letters A, D and M; both
    the [AMD] and the [ADM] spelling of the three are taken. *)
Fixpoint destLetters (s : string) (d : Dest) : option Dest :=
  match s with
  | EmptyString => Some d
  | String "A" r => destLetters r (mkDest true (toD d) (toM d))
  | String "D" r => destLetters r (mkDest (toA d) true (toM d))
  | String "M" r => destLetters r (mkDest (toA d) (toD d) true)
  | _ => None
  end.

Definition noDest : Dest := mkDest false false false.

Definition parseDest (s : string) : option Dest :=
  match s with
  | EmptyString => None
  | _ => destLetters s noDest
  end.

(** [cut c s]: the parts of [s] before and after the first [c]. *)
Fixpoint cut (c : ascii) (s : string) : option (string * string) :=
  match s with
  | EmptyString => None
  | String a r =>
      if Ascii.eqb a c then Some (EmptyString, r)
      else match cut c r with
           | Some (x, y) => Some (String a x, y)
           | None => None
           end
  end.

Definition parseC (l : string) : Instr :=
  let (d, rest) :=
    match cut "=" l with
    | Some (ds, r) => (parseDest ds, r)
    | None => (Some noDest, l)
    end in
  let (c, j) :=
    match cut ";" rest with
    | Some (cs, js) => (parseComp cs, option_map Some (parseJump js))
    | None => (parseComp rest, Some None)
    end in
  match d, c, j with
  | Some d, Some c, Some j => CInstr d c j
  | _, _, _ => Invalid
  end.

(** The text of a label declaration between its parentheses. *)
Fixpoint labelName (r : string) : option string :=
  match r with
  | EmptyString => None
  | String ")" EmptyString => Some EmptyString
  | String c r' => option_map (String c) (labelName r')
  end.

Definition parseLine (l : string) : Instr :=
  match l with
  | EmptyString => Blank
  | String "@" r => AInstr r
  | String "(" r =>
      match labelName r with
      | Some n => LabelDecl n
      | None => Invalid
      end
  | String "/" (String "/" _) => Blank
  | _ => parseC l
  end.

Definition isLetter (c : ascii) : bool := Go.isUpper c || Go.isLower c.

Definition isSymbolChar (c : ascii) : bool :=
  isLetter c || Go.isDigit c
  || Ascii.eqb c "_" || Ascii.eqb c "." || Ascii.eqb c "$" || Ascii.eqb c ":".

Fixpoint allChars (p : ascii -> bool) (s : string) : bool :=
  match s with
  | EmptyString => true
  | String c r => p c && allChars p r
  end.

(** A symbol is a non-empty run of letters, digits, [_], [.], [$] and [:]
    that does not start with a digit. *)
Definition validSymbol (s : string) : bool :=
  match s with
  | EmptyString => false
  | String c _ => negb (Go.isDigit c) && allChars isSymbolChar s
  end.

Definition predefined : list (string * Z) :=
  [("SP", 0); ("LCL", 1); ("ARG", 2); ("THIS", 3); ("THAT", 4);
   ("R0", 0); ("R1", 1); ("R2", 2); ("R3", 3); ("R4", 4); ("R5", 5);
   ("R6", 6); ("R7", 7); ("R8", 8); ("R9", 9); ("R10", 10); ("R11", 11);
   ("R12", 12); ("R13", 13); ("R14", 14); ("R15", 15);
   ("SCREEN", 16384); ("KBD", 24576)].

Section Machine.

(** The address the assembler gives each symbol of the linked program
    that is not predefined: the instruction address of a label, the
    memory address of a variable. *)
Variable sym : string -> Z.

(** The operand of an A-instruction: a decimal constant of at most 15
    bits, or a symbol. *)
Definition resolve (x : string) : option Z :=
  match Go.digitsValue x with
  | Some n => if n <=? 32767 then Some n else None
  | None =>
      if validSymbol x
      then Some (match lookup x predefined with Some v => v | None => sym x end)
      else None
  end.

Definition usesM (c : Comp) : bool :=
  match c with
  | CX OpM | CNotX OpM | CNegX OpM | CXInc OpM | CXDec OpM
  | CDPlusX OpM | CDMinusX OpM | CXMinusD OpM | CDAndX OpM | CDOrX OpM => true
  | _ => false
  end.

Definition operand (x : Operand) (a m : Z) : Z :=
  match x with OpA => a | OpM => m end.

Definition alu (c : Comp) (a d m : Z) : Z :=
  wrap
    match c with
    | CZero => 0
    | COne => 1
    | CMinusOne => -1
    | CD => d
    | CX x => operand x a m
    | CNotD => Z.lnot d
    | CNotX x => Z.lnot (operand x a m)
    | CNegD => - d
    | CNegX x => - operand x a m
    | CDInc => d + 1
    | CXInc x => operand x a m + 1
    | CDDec => d - 1
    | CXDec x => operand x a m - 1
    | CDPlusX x => d + operand x a m
    | CDMinusX x => d - operand x a m
    | CXMinusD x => operand x a m - d
    | CDAndX x => Z.land d (operand x a m)
    | CDOrX x => Z.lor d (operand x a m)
    end.

Definition jumps (j : Jump) (v : Z) : bool :=
  match j with
  | JGT => 0 <? v
  | JEQ => v =? 0
  | JGE => 0 <=? v
  | JLT => v <? 0
  | JNE => negb (v =? 0)
  | JLE => v <=? 0
  | JMP => true
  end.

Inductive StepResult :=
| Next (s : State)
| Goto (target : Z) (s : State)
| StepRejected
| StepBadAddress.

(** One line.  A line that is not Hack assembly is rejected, as the
    assembler would; a C-instruction that reads or writes [M] while [A]
    is negative addresses memory below address 0. *)
Definition step (i : Instr) (s : State) : StepResult :=
  match i with
  | Blank => Next s
  | Invalid => StepRejected
  | LabelDecl n => if validSymbol n then Next s else StepRejected
  | AInstr x =>
      match resolve x with
      | Some v => Next (mkState v (D s) (ram s))
      | None => StepRejected
      end
  | CInstr d c j =>
      if (usesM c || toM d) && (A s <? 0) then StepBadAddress
      else
        let v := alu c (A s) (D s) (ram s (A s)) in
        let s' := mkState (if toA d then v else A s)
                          (if toD d then v else D s)
                          (if toM d then upd (ram s) (A s) v else ram s) in
        match j with
        | Some j => if jumps j v then Goto (A s) s' else Next s'
        | None => Next s'
        end
  end.

Inductive Outcome :=
| Fall (s : State)
| Jumped (target : Z) (s : State) (rest : list string)
| Rejected
| BadAddress.

Fixpoint exec (ls : list string) (s : State) : Outcome :=
  match ls with
  | [] => Fall s
  | l :: rest =>
      match step (parseLine l) s with
      | Next s' => exec rest s'
      | Goto t s' => Jumped t s' rest
      | StepRejected => Rejected
      | StepBadAddress => BadAddress
      end
  end.

End Machine.

End Hack.

(* ================================================================== *)
(** ** Vocabulary of the properties *)
(* ================================================================== *)

(** A 16-bit two's-complement word, and a memory that holds only words. *)
Definition word (z : Z) : Prop := -32768 <= z <= 32767.

Definition wordState (s : Hack.State) : Prop := forall a, word (Hack.ram s a).

(** The label declarations among emitted lines. *)
Definition isLabelLine (l : string) : bool :=
  match l with
  | String "(" _ => true
  | _ => false
  end.

Definition labelDecls (lines : list string) : list string :=
  filter isLabelLine lines.

Definition isComparison (al : ALType) : bool :=
  match al with
  | ALTypeEq | ALTypeGt | ALTypeLt => true
  | _ => false
  end.

(** The memory address of the base pointer of a pointer-based segment. *)
Definition baseRegister (st : SegmentType) : Z :=
  match st with
  | SegmentTypeLocal => 1
  | SegmentTypeArgument => 2
  | SegmentTypeThis => 3
  | SegmentTypeThat => 4
  | _ => 0
  end.

(** The name the generated code gives a static variable. *)
Definition staticName (i : Instruction) : string :=
  FileName i ++ "." ++ Go.itoa (Arg2Val i).

(** When the code generated for a push can run: memory holds words, the
    stack pointer is above its own cell and below the top of the address
    range, the offset fits an A-instruction where one carries it, and
    the cell read lies at a non-negative address. *)
Definition pushReady (sym : string -> Z) (i : Instruction) (s : Hack.State)
  : Prop :=
  wordState s /\ 0 < Hack.SP s < 32767 /\
  match SegType i with
  | SegmentTypeConstant => 0 <= Arg2Val i <= 32767
  | SegmentTypeStatic =>
      exists cell, Hack.resolve sym (staticName i) = Some cell /\ 0 <= cell
  | SegmentTypeTemp => 0 <= Arg2Val i <= 32762
  | SegmentTypePointer => True
  | seg =>
      0 <= Arg2Val i <= 32767 /\
      0 <= Hack.wrap (Arg2Val i + Hack.ram s (baseRegister seg))
  end.

(** When the code generated for a pop can run: as for a push, with a
    value on the stack and a destination other than the cell of the
    stack pointer itself. *)
Definition popReady (sym : string -> Z) (i : Instruction) (s : Hack.State)
  : Prop :=
  wordState s /\ 0 < Hack.SP s /\
  match SegType i with
  | SegmentTypeConstant => True
  | SegmentTypeStatic =>
      exists cell, Hack.resolve sym (staticName i) = Some cell /\ 0 < cell
  | SegmentTypeTemp => 0 <= Arg2Val i <= 32762
  | SegmentTypePointer => True
  | seg =>
      0 <= Arg2Val i <= 32767 /\
      0 < Hack.wrap (Arg2Val i + Hack.ram s (baseRegister seg))
  end.

(** The five forms an error of [parseInstruction] takes. *)
Definition parseErrorForm (parts : list string) (e : string) : Prop :=
  e = "invalid instruction length: " ++ Go.itoa (Z.of_nat (List.length parts))
  \/ e = "invalid command type: " ++ nth 0 parts ""
  \/ e = "invalid arg1 segment type: " ++ nth 1 parts ""
  \/ e = "invalid arg1 return, no argument expected"
  \/ e = "invalid arg2 value: " ++ nth 2 parts "".

(** What a stage of the call and return sequences does to memory:
    it pushes a value, sets one cell, or restores a segment pointer
    from the cell below the one [R13] points at. *)
Definition pushes (v : Z) (s s' : Hack.State) : Prop :=
  Hack.SP s' = Hack.SP s + 1 /\
  Hack.ram s' (Hack.SP s) = v /\
  forall a, a <> 0 -> a <> Hack.SP s -> Hack.ram s' a = Hack.ram s a.

Definition sets (cell v : Z) (s s' : Hack.State) : Prop :=
  Hack.ram s' cell = v /\
  forall a, a <> cell -> Hack.ram s' a = Hack.ram s a.

Definition restores (cell : Z) (s s' : Hack.State) : Prop :=
  Hack.ram s' 13 = Hack.ram s 13 - 1 /\
  Hack.ram s' cell = Hack.ram s (Hack.ram s 13 - 1) /\
  forall a, a <> 13 -> a <> cell -> Hack.ram s' a = Hack.ram s a.

Definition sameMemory (s s' : Hack.State) : Prop :=
  forall a, Hack.ram s' a = Hack.ram s a.

(** Texts: whether a character occurs, and what follows its last
    occurrence. *)
Fixpoint hasChar (c : ascii) (s : string) : bool :=
  match s with
  | EmptyString => false
  | String a r => Ascii.eqb a c || hasChar c r
  end.

Fixpoint afterLast (c : ascii) (s : string) : string :=
  match s with
  | EmptyString => EmptyString
  | String a r =>
      if hasChar c r then afterLast c r
      else if Ascii.eqb a c then r else s
  end.

(** The command kinds that carry a numeric field. *)
Definition hasNumericField (ct : CommandType) : bool :=
  match ct with
  | CommandTypePush | CommandTypePop | CommandTypeFunction | CommandTypeCall =>
      true
  | _ => false
  end.

(** *** Sample inputs *)

Definition sampleSym : string -> Z := fun _ => 16.

Definition sampleRam : Z -> Z :=
  fun a =>
    if a =? 0 then 256
    else if a =? 1 then 300
    else if a =? 2 then 400
    else if a =? 3 then 3000
    else if a =? 4 then 3010
    else 0.

Definition sampleState : Hack.State := Hack.mkState 0 0 sampleRam.



Definition sampleReturn : Instruction :=
  mkInstruction "Main" "return" CommandTypeReturn ""
    SegmentTypeConstant "" 0 ALTypeAdd 0.

(** Two modules: the first only mentions the entry point in a trailing
    comment, the second declares it. *)
Definition sampleModuleA : SrcFile :=
  mkSrcFile "A.vm" ["push constant 1 // used by function Sys.init 0"].

Definition sampleModuleB : SrcFile :=
  mkSrcFile "B.vm" ["function Sys.init 0"; "push constant 2"].

(** One label symbol under two function declarations. *)
Definition sampleLabelProgram : list string :=
  ["Main#function Main.a 0"; "Main#label LOOP";
   "Main#function Main.b 0"; "Main#label LOOP"].

(** A user label that spells a comparison label. *)
Definition sampleClashProgram : list string :=
  ["Main#label EQ_TRUE.1"; "Main#eq"].

(* ================================================================== *)
(** ** More of the program and of the vocabulary *)
(* ================================================================== *)

Definition CommandType_String (ct : CommandType) : string :=
  match ct with
  | CommandTypeArithmetic => "arithmetic"
  | CommandTypePush => "push"
  | CommandTypePop => "pop"
  | CommandTypeLabel => "label"
  | CommandTypeGOTO => "goto"
  | CommandTypeIf => "if-goto"
  | CommandTypeFunction => "function"
  | CommandTypeReturn => "return"
  | CommandTypeCall => "call"
  end.

(** [Instruction.String] *)
Definition Instruction_String (i : Instruction) : string :=
  match CmdType i with
  | CommandTypeArithmetic => Arg1 i
  | CommandTypePush =>
      "push " ++ SegmentType_String (SegType i) ++ " " ++ Go.itoa (Arg2Val i)
  | CommandTypePop =>
      "pop " ++ SegmentType_String (SegType i) ++ " " ++ Go.itoa (Arg2Val i)
  | ct => CommandType_String ct ++ " " ++ Arg1 i ++ " " ++ Arg2 i
  end.

(** The comparison of [main] against a reference file, made after the
    program is written: the reference lines are trimmed, the emitted
    lines are not; a difference in length, or the first line that
    differs, ends the run with code 2.  [resultLines[i]] is read inside
    the loop, which a shorter [resultLines] would make panic. *)
Inductive CompareOutcome :=
| CompareOk
| CompareLength
| CompareLine (lineNo : Z) (expected got : string)
| ComparePanic.

Fixpoint compareFrom (i : nat) (cmpLines resultLines : list string)
  : CompareOutcome :=
  match cmpLines with
  | [] => CompareOk
  | line :: rest =>
      match nth_error resultLines i with
      | None => ComparePanic
      | Some r =>
          if String.eqb line r then compareFrom (S i) rest resultLines
          else CompareLine (Z.of_nat i + 1) line r
      end
  end.

Definition compareWith (cmpFileLines resultLines : list string)
  : CompareOutcome :=
  let cmpLines := map Go.TrimSpace cmpFileLines in
  if Nat.eqb (List.length cmpLines) (List.length resultLines)
  then compareFrom 0 cmpLines resultLines
  else CompareLength.

(** The generator run over the commands of a program, in order, as the
    loop of [main] runs it. *)
Fixpoint GenAsmAll (g : GenState) (instrs : list Instruction)
  : list string * GenState :=
  match instrs with
  | [] => ([], g)
  | i :: rest =>
      let (asm, g') := GenAsm g i in
      let (more, g'') := GenAsmAll g' rest in
      ((asm ++ more)%list, g'')
  end.

(** The return labels of the call commands of a program, in order. *)
Fixpoint callLabels (g : GenState) (instrs : list Instruction) : list string :=
  match instrs with
  | [] => []
  | i :: rest =>
      (match CmdType i with
       | CommandTypeCall => [retAddrLabel g]
       | _ => []
       end ++ callLabels (snd (GenAsm g i)) rest)%list
  end.

(** A block run with its forward jumps followed: a jump whose target is
    the address of a label declared further down the block goes on from
    that declaration; any other jump leaves the block.  [pending] is the
    target being looked for. *)
Fixpoint execForward (sym : string -> Z) (ls : list string)
  (pending : option Z) (s : Hack.State) : Hack.Outcome :=
  match ls with
  | [] =>
      match pending with
      | None => Hack.Fall s
      | Some t => Hack.Jumped t s []
      end
  | l :: rest =>
      match pending with
      | Some t =>
          match Hack.parseLine l with
          | Hack.LabelDecl n =>
              match Hack.resolve sym n with
              | Some a =>
                  if a =? t then execForward sym rest None s
                  else execForward sym rest pending s
              | None => Hack.Rejected
              end
          | Hack.Invalid => Hack.Rejected
          | _ => execForward sym rest pending s
          end
      | None =>
          match Hack.step sym (Hack.parseLine l) s with
          | Hack.Next s' => execForward sym rest None s'
          | Hack.Goto t s' => execForward sym rest (Some t) s'
          | Hack.StepRejected => Hack.Rejected
          | Hack.StepBadAddress => Hack.BadAddress
          end
      end
  end.

(** Texts: how often a character occurs, and the part of a line before
    its first [//]. *)
Fixpoint countChar (c : ascii) (s : string) : nat :=
  match s with
  | EmptyString => O
  | String a r => ((if Ascii.eqb a c then 1 else 0) + countChar c r)%nat
  end.

Fixpoint beforeComment (s : string) : string :=
  match s with
  | EmptyString => EmptyString
  | String c r => if Go.HasPrefix s "//" then EmptyString
                  else String c (beforeComment r)
  end.

(** Whether a text starts with a rune of one, two or three bytes told by
    [one], [two] and [three]; whether it starts, or ends, with white
    space. *)
Definition startsWithRune (one : ascii -> bool) (two : ascii -> ascii -> bool)
  (three : ascii -> ascii -> ascii -> bool) (s : string) : bool :=
  match s with
  | EmptyString => false
  | String a r1 =>
      one a
      || match r1 with
         | EmptyString => false
         | String b r2 =>
             two a b
             || match r2 with
                | EmptyString => false
                | String c _ => three a b c
                end
         end
  end.

Definition startsWithSpace : string -> bool :=
  startsWithRune Go.isSpace Go.isSpace2 Go.isSpace3.

Definition endsWithSpace (s : string) : bool :=
  startsWithRune Go.isSpace (fun a b => Go.isSpace2 b a)
    (fun a b c => Go.isSpace3 c b a) (Go.revString EmptyString s).

(** The memory cell a segment and an offset denote in a machine state,
    none for the constant segment. *)
Definition segmentCell (sym : string -> Z) (i : Instruction) (s : Hack.State)
  : option Z :=
  match SegType i with
  | SegmentTypeConstant => None
  | SegmentTypeStatic => Hack.resolve sym (staticName i)
  | SegmentTypeTemp => Some (Arg2Val i + 5)
  | SegmentTypePointer => Some (if Arg2Val i =? 0 then 3 else 4)
  | seg => Some (Arg2Val i + Hack.ram s (baseRegister seg))
  end.

(** The value a push command puts on the stack. *)
Definition pushedValue (sym : string -> Z) (i : Instruction) (s : Hack.State)
  : Z :=
  match segmentCell sym i s with
  | Some cell => Hack.ram s cell
  | None => Arg2Val i
  end.

(** The segments whose pop code keeps the destination address in [R13]. *)
Definition usesScratch (st : SegmentType) : bool :=
  match st with
  | SegmentTypeConstant | SegmentTypeStatic | SegmentTypePointer => false
  | _ => true
  end.

(** The value a binary or unary command computes on 16-bit words, [x]
    being the operand pushed first. *)
Definition binaryValue (al : ALType) (x y : Z) : Z :=
  match al with
  | ALTypeAdd => Hack.wrap (x + y)
  | ALTypeSub => Hack.wrap (x - y)
  | ALTypeAnd => Hack.wrap (Z.land x y)
  | ALTypeOr => Hack.wrap (Z.lor x y)
  | _ => 0
  end.

Definition unaryValue (al : ALType) (y : Z) : Z :=
  match al with
  | ALTypeNeg => Hack.wrap (- y)
  | ALTypeNot => Hack.wrap (Z.lnot y)
  | _ => 0
  end.

Definition isBinary (al : ALType) : bool :=
  match al with
  | ALTypeAdd | ALTypeSub | ALTypeAnd | ALTypeOr => true
  | _ => false
  end.

Definition isUnary (al : ALType) : bool :=
  match al with
  | ALTypeNeg | ALTypeNot => true
  | _ => false
  end.

(** The test a comparison command makes on the 16-bit difference of its
    operands. *)
Definition comparisonHolds (al : ALType) (d : Z) : bool :=
  match al with
  | ALTypeEq => d =? 0
  | ALTypeGt => 0 <? d
  | ALTypeLt => d <? 0
  | _ => false
  end.

(** The relation a comparison command is named after, [x] being the
    operand pushed first. *)
Definition compares (al : ALType) (x y : Z) : bool :=
  match al with
  | ALTypeEq => x =? y
  | ALTypeGt => y <? x
  | ALTypeLt => x <? y
  | _ => false
  end.

(** The two labels of a comparison command. *)
Definition comparisonLabel (i : Instruction) (suffix : string) : string :=
  Go.ToUpper (ALType_String (ALKind i) ++ suffix) ++ "." ++ Go.itoa (Index i).

(** A machine with the words 32767 and -1 on top of its stack. *)
Definition sampleStackRam : Z -> Z :=
  fun a =>
    if a =? 0 then 258
    else if a =? 1 then 300
    else if a =? 256 then 32767
    else if a =? 257 then -1
    else 0.

Definition sampleStackState : Hack.State := Hack.mkState 0 0 sampleStackRam.

(** An assignment of addresses that tells the labels of one comparison
    apart. *)
Definition sampleLabelSym : string -> Z :=
  fun x => Z.of_nat (String.length x).

(** Sample commands. *)
Definition samplePush : Instruction :=
  mkInstruction "Main" "push constant 7" CommandTypePush "constant"
    SegmentTypeConstant "7" 7 ALTypeAdd 0.

Definition samplePushLocal : Instruction :=
  mkInstruction "Main" "push local 2" CommandTypePush "local"
    SegmentTypeLocal "2" 2 ALTypeAdd 0.

Definition samplePop : Instruction :=
  mkInstruction "Main" "pop local 2" CommandTypePop "local"
    SegmentTypeLocal "2" 2 ALTypeAdd 0.

Definition sampleArithmetic (al : ALType) (index : Z) : Instruction :=
  mkInstruction "Main" (ALType_String al) CommandTypeArithmetic
    (ALType_String al) SegmentTypeConstant "" 0 al index.

Definition sampleFunction : Instruction :=
  mkInstruction "Main" "function Main.f 2" CommandTypeFunction "Main.f"
    SegmentTypeConstant "2" 2 ALTypeAdd 0.

Definition sampleIfGoto : Instruction :=
  mkInstruction "Main" "if-goto LOOP" CommandTypeIf "LOOP"
    SegmentTypeConstant "" 0 ALTypeAdd 0.

Definition sampleCall : Instruction :=
  mkInstruction "Main" "call Main.f 0" CommandTypeCall "Main.f"
    SegmentTypeConstant "0" 0 ALTypeAdd 0.

Definition samplePushOne : Instruction :=
  mkInstruction "Main" "push constant 1" CommandTypePush "constant"
    SegmentTypeConstant "1" 1 ALTypeAdd 0.

(* ================================================================== *)
(** ** The embedding at work: sample evaluations *)
(* ================================================================== *)

Example parse_push : parseInstruction 3 "Main" "push constant 7"
  = Ok (mkInstruction "Main" "push constant 7" CommandTypePush "constant"
          SegmentTypeConstant "7" 7 ALTypeAdd 0).
Proof. vm_compute. reflexivity. Qed.

Example parse_eq : parseInstruction 3 "Main" "eq"
  = Ok (mkInstruction "Main" "eq" CommandTypeArithmetic "eq"
          SegmentTypeConstant "" 0 ALTypeEq 3).
Proof. vm_compute. reflexivity. Qed.

Example split_ex : Go.Split "a//b//" "//" = ["a"; "b"; ""].
Proof. vm_compute. reflexivity. Qed.

(** White space outside ASCII is trimmed as well: a tab and a no-break
    space (U+00A0) before the command, a line separator (U+2028) and a
    space after it. *)
Example trim_space_runes :
  Go.TrimSpace
    (String "009" (String "194" (String "160"
       ("push constant 1" ++ String "226" (String "128" (String "168" " "))))))
  = "push constant 1".
Proof. reflexivity. Qed.

(** The capital I with a dot above (U+0130) is lowered to [i]. *)
Example lower_dotted_capital :
  parseInstruction 0 "Main" ("push po" ++ String "196" (String "176" "nter 0"))
  = Ok (mkInstruction "Main" ("push po" ++ String "196" (String "176" "nter 0"))
          CommandTypePush "pointer" SegmentTypePointer "0" 0 ALTypeAdd 0).
Proof. reflexivity. Qed.

Example genCall_text :
  fst (genCall initialGenState "Sys.init" 0) =
  ["/// call ; working with return address LABEL$ret.1";
   "@LABEL$ret.1"; "D=A"; "@SP"; "A=M"; "M=D"; "@SP"; "M=M+1";
   "/// call ; working with LCL"; "@LCL"; "D=M"; "@SP"; "A=M"; "M=D"; "@SP"; "M=M+1";
   "/// call ; working with ARG"; "@ARG"; "D=M"; "@SP"; "A=M"; "M=D"; "@SP"; "M=M+1";
   "/// call ; working with THIS"; "@THIS"; "D=M"; "@SP"; "A=M"; "M=D"; "@SP"; "M=M+1";
   "/// call ; working with THAT"; "@THAT"; "D=M"; "@SP"; "A=M"; "M=D"; "@SP"; "M=M+1";
   "/// call ; ARG = SP - 5 - nArgs"; "@5"; "D=A"; "@SP"; "A=M"; "D=A-D"; "@ARG"; "M=D";
   "/// call ; LCL = SP"; "@SP"; "D=M"; "@LCL"; "M=D";
   "/// call ; goto function Sys.init"; "@Sys.init"; "0;JMP";
   "(LABEL$ret.1)"].
Proof. vm_compute. reflexivity. Qed.

Example genArithmetic_eq_text :
  genArithmetic (mkInstruction "Main" "eq" CommandTypeArithmetic "eq"
                   SegmentTypeConstant "" 0 ALTypeEq 3) =
  ["@SP"; "AM=M-1"; "D=M"; "A=A-1"; "D=M-D"; "@EQ_TRUE.3"; "D;JEQ";
   "@SP"; "A=M-1"; "M=0"; "@EQ_FALSE.3"; "0;JMP";
   "(EQ_TRUE.3)"; "@SP"; "A=M-1"; "M=-1"; "(EQ_FALSE.3)"].
Proof. vm_compute. reflexivity. Qed.

Example parseLine_examples :
  map Hack.parseLine ["@SP"; "AM=M-1"; "ADM=M-1"; "0;JMP"; "D;JNE"; "(X$ret.1)"; "/// c"; "M=!M"; "@-3"; "Q=1"]
  = [Hack.AInstr "SP";
     Hack.CInstr (Hack.mkDest true false true) (Hack.CXDec Hack.OpM) None;
     Hack.CInstr (Hack.mkDest true true true) (Hack.CXDec Hack.OpM) None;
     Hack.CInstr Hack.noDest Hack.CZero (Some Hack.JMP);
     Hack.CInstr Hack.noDest Hack.CD (Some Hack.JNE);
     Hack.LabelDecl "X$ret.1"; Hack.Blank;
     Hack.CInstr (Hack.mkDest false false true) (Hack.CNotX Hack.OpM) None;
     Hack.AInstr "-3"; Hack.Invalid].
Proof. vm_compute. reflexivity. Qed.

Example genReturn_text :
  genReturn sampleReturn =
  ["/// return ; endFrame = LCL"; "@LCL"; "D=M"; "@R13"; "M=D";
   "/// return ; retAddr = D = RAM[endFrame - 5]";
   "@5"; "A=D-A"; "D=M"; "@R14"; "M=D";
   "/// return ; RAM[ARG] = pop() = RAM[SP-1]";
   "@SP"; "A=M-1"; "D=M"; "@ARG"; "A=M"; "M=D";
   "/// return ; SP = ARG + 1"; "@ARG"; "D=M+1"; "@SP"; "M=D";
   "/// return ; working with that"; "@R13"; "ADM=M-1"; "D=M"; "@THAT"; "M=D";
   "/// return ; working with this"; "@R13"; "ADM=M-1"; "D=M"; "@THIS"; "M=D";
   "/// return ; working with argument"; "@R13"; "ADM=M-1"; "D=M"; "@ARG"; "M=D";
   "/// return ; working with local"; "@R13"; "ADM=M-1"; "D=M"; "@LCL"; "M=D";
   "/// return ; goto caller"; "@R14"; "A=M"; "0;JMP"].
Proof. vm_compute. reflexivity. Qed.

Example genFunction_text :
  fst (GenAsm initialGenState
         (mkInstruction "Main" "function Main.f 2" CommandTypeFunction "Main.f"
            SegmentTypeConstant "2" 2 ALTypeAdd 0)) =
  ["// function Main.f 2"; "(Main.f)";
   "@0"; "D=A"; "@SP"; "AM=M+1"; "A=A-1"; "M=D";
   "@0"; "D=A"; "@SP"; "AM=M+1"; "A=A-1"; "M=D"].
Proof. vm_compute. reflexivity. Qed.

Example atoi_examples :
  map Go.Atoi ["7"; "-3"; "+7"; "007"; ""; "-"; "1x"; "9223372036854775808"]
  = [Some 7; Some (-3); Some 7; Some 7; None; None; None; None].
Proof. vm_compute. reflexivity. Qed.

Example clean_and_tag :
  scanFile (mkSrcFile "dir/My Prog.vm"
              ["// a comment"; ""; "  push constant 1  // one"; "add"])
  = ["My_Prog#push constant 1"; "My_Prog#add"].
Proof. vm_compute. reflexivity. Qed.

(** The sample of the specification: 7 + 8 into local 0, run with the
    stack pointer at 256 and the local base at 300. *)
Example add_end_to_end :
  exists lines s',
    translateLines initialGenState 0
      ["Main#push constant 7"; "Main#push constant 8"; "Main#add";
       "Main#pop local 0"] = Ok lines
    /\ Hack.exec sampleSym lines sampleState = Hack.Fall s'
    /\ Hack.SP s' = 256 /\ Hack.ram s' 300 = 15.
Proof.
  do 2 eexists. split; [vm_compute; reflexivity|].
  split; [vm_compute; reflexivity|]. split; vm_compute; reflexivity.
Qed.

(* ================================================================== *)
(** ** Decimal numerals *)
(* ================================================================== *)

Lemma string_of_uint_nonempty (p : positive) :
  NilEmpty.string_of_uint (Pos.to_uint p) <> EmptyString.
Proof.
  intros E.
  pose proof (DecimalPos.Unsigned.to_uint_nonnil p) as Hn.
  destruct (Pos.to_uint p); simpl in E; congruence.
Qed.

Lemma itoa_pos (p : positive) :
  Go.itoa (Z.pos p) = NilEmpty.string_of_uint (Pos.to_uint p).
Proof.
  unfold Go.itoa. simpl.
  pose proof (DecimalPos.Unsigned.to_uint_nonnil p) as Hn.
  unfold NilZero.string_of_uint. destruct (Pos.to_uint p); congruence.
Qed.

Lemma itoa_neg (p : positive) :
  Go.itoa (Z.neg p) = String "-" (NilEmpty.string_of_uint (Pos.to_uint p)).
Proof.
  unfold Go.itoa. simpl. f_equal.
  pose proof (DecimalPos.Unsigned.to_uint_nonnil p) as Hn.
  unfold NilZero.string_of_uint. destruct (Pos.to_uint p); congruence.
Qed.

Lemma digitsValue_pos (p : positive) :
  Go.digitsValue (NilEmpty.string_of_uint (Pos.to_uint p)) = Some (Z.pos p).
Proof.
  unfold Go.digitsValue.
  pose proof (string_of_uint_nonempty p) as Hne.
  destruct (NilEmpty.string_of_uint (Pos.to_uint p)) eqn:E; [congruence|].
  rewrite <- E, NilEmpty.usu. simpl. unfold Z.of_uint.
  now rewrite DecimalPos.Unsigned.of_to.
Qed.

Lemma digitsValue_itoa (k : Z) : 0 <= k -> Go.digitsValue (Go.itoa k) = Some k.
Proof.
  destruct k as [|p|p]; intros Hk; [reflexivity | | lia].
  rewrite itoa_pos. apply digitsValue_pos.
Qed.

Lemma string_of_uint_head (d : Decimal.uint) c r :
  NilEmpty.string_of_uint d = String c r -> Go.isDigit c = true.
Proof. destruct d; simpl; intros [= <- _]; reflexivity. Qed.

Lemma Atoi_itoa (k : Z) :
  Go.minInt <= k <= Go.maxInt -> Go.Atoi (Go.itoa k) = Some k.
Proof.
  intros Hk. unfold Go.Atoi.
  assert (Hr : (Go.minInt <=? k) && (k <=? Go.maxInt) = true).
  { apply andb_true_iff; split; apply Z.leb_le; lia. }
  destruct k as [|p|p].
  - reflexivity.
  - rewrite itoa_pos.
    pose proof (digitsValue_pos p) as Hd.
    destruct (NilEmpty.string_of_uint (Pos.to_uint p)) as [|c r] eqn:E.
    + discriminate Hd.
    + pose proof (string_of_uint_head _ _ _ E) as Hc.
      assert (Hm : c <> "-"%char) by (intros ->; discriminate Hc).
      assert (Hp : c <> "+"%char) by (intros ->; discriminate Hc).
      destruct c as [[|] [|] [|] [|] [|] [|] [|] [|]];
        try congruence; rewrite Hd, Hr; reflexivity.
  - rewrite itoa_neg, digitsValue_pos.
    cbv beta iota delta [option_map].
    change (- Z.pos p) with (Z.neg p). now rewrite Hr.
Qed.

Lemma itoa_inj (a b : Z) : Go.itoa a = Go.itoa b -> a = b.
Proof.
  unfold Go.itoa. intros E.
  apply DecimalZ.to_int_inj.
  assert (Hnz : forall z, Z.to_int z <> Decimal.Pos Decimal.Nil
                          /\ Z.to_int z <> Decimal.Neg Decimal.Nil).
  { intros [|p|p]; simpl; split; try discriminate;
      intros [= H]; now apply (DecimalPos.Unsigned.to_uint_nonnil p). }
  destruct (Hnz a) as [Ha1 Ha2], (Hnz b) as [Hb1 Hb2].
  pose proof (NilZero.isi _ Ha1 Ha2) as Ia.
  pose proof (NilZero.isi _ Hb1 Hb2) as Ib.
  rewrite E in Ia. congruence.
Qed.

Lemma allChars_app p a b :
  Hack.allChars p (a ++ b) = Hack.allChars p a && Hack.allChars p b.
Proof. induction a; simpl; [reflexivity|]. now rewrite IHa, andb_assoc. Qed.

Lemma string_of_uint_digits (d : Decimal.uint) :
  Hack.allChars Go.isDigit (NilEmpty.string_of_uint d) = true.
Proof. induction d; simpl; auto. Qed.

Lemma itoa_digits (k : Z) : 0 <= k -> Hack.allChars Go.isDigit (Go.itoa k) = true.
Proof.
  destruct k as [|p|p]; intros Hk; [reflexivity | | lia].
  rewrite itoa_pos. apply string_of_uint_digits.
Qed.

(* ================================================================== *)
(** ** Running emitted code: basic facts and tactics *)
(* ================================================================== *)

Lemma wrap_small z : -32768 <= z <= 32767 -> Hack.wrap z = z.
Proof.
  intros H. unfold Hack.wrap.
  rewrite Z.mod_small by lia. lia.
Qed.

Lemma wrap_range z : -32768 <= Hack.wrap z <= 32767.
Proof.
  unfold Hack.wrap.
  pose proof (Z.mod_pos_bound (z + 32768) 65536 ltac:(lia)). lia.
Qed.

Lemma wrap_wrap z : Hack.wrap (Hack.wrap z) = Hack.wrap z.
Proof. apply wrap_small, wrap_range. Qed.

Lemma upd_same m a v : Hack.upd m a v a = v.
Proof. unfold Hack.upd. now rewrite Z.eqb_refl. Qed.

Lemma upd_eq m a v x : x = a -> Hack.upd m a v x = v.
Proof. intros ->. apply upd_same. Qed.

Lemma upd_other m a v x : x <> a -> Hack.upd m a v x = m x.
Proof. intros H. unfold Hack.upd. now apply Z.eqb_neq in H as ->. Qed.

Lemma ltb0_nonneg a : 0 <= a -> (a <? 0) = false.
Proof. intros. now apply Z.ltb_ge. Qed.

Section Run.

Variable sym : string -> Z.

Lemma exec_cons l rest s :
  Hack.exec sym (l :: rest) s =
  match Hack.step sym (Hack.parseLine l) s with
  | Hack.Next s' => Hack.exec sym rest s'
  | Hack.Goto t s' => Hack.Jumped t s' rest
  | Hack.StepRejected => Hack.Rejected
  | Hack.StepBadAddress => Hack.BadAddress
  end.
Proof. reflexivity. Qed.

(** Running two blocks one after the other. *)
Lemma exec_app l1 l2 s :
  Hack.exec sym (l1 ++ l2)%list s =
  match Hack.exec sym l1 s with
  | Hack.Fall s' => Hack.exec sym l2 s'
  | Hack.Jumped t s' rest => Hack.Jumped t s' (rest ++ l2)%list
  | other => other
  end.
Proof.
  revert s. induction l1 as [|l l1 IH]; intros s; [reflexivity|].
  rewrite <- app_comm_cons, !exec_cons.
  destruct (Hack.step sym (Hack.parseLine l) s); auto.
Qed.

Lemma step_A x s v :
  Hack.resolve sym x = Some v ->
  Hack.step sym (Hack.AInstr x) s
  = Hack.Next (Hack.mkState v (Hack.D s) (Hack.ram s)).
Proof. intros H. simpl. now rewrite H. Qed.

Lemma resolve_itoa k : 0 <= k <= 32767 -> Hack.resolve sym (Go.itoa k) = Some k.
Proof.
  intros Hk. unfold Hack.resolve. rewrite digitsValue_itoa by lia.
  destruct (Z.leb_spec k 32767); [reflexivity | lia].
Qed.

End Run.

(** Symbolic execution of one line: the line is parsed by evaluation, an
    A-instruction has its operand resolved, a C-instruction is unfolded,
    and the memory and range side conditions go to [lia]. *)
Ltac parse_line :=
  match goal with
  | |- context [Hack.parseLine ?l] =>
      let v := eval cbn [Hack.parseLine String.append] in (Hack.parseLine l) in
      match v with
      | Hack.parseC ?l' =>
          let v' := eval vm_compute in (Hack.parseC l') in
          change (Hack.parseLine l) with v'
      | _ => change (Hack.parseLine l) with v
      end
  end.

Ltac resolve_operand :=
  match goal with
  | |- context [Hack.step ?sym (Hack.AInstr ?x) ?s] =>
      first
        [ rewrite (step_A sym x s _)
            by (first [apply resolve_itoa; lia | eassumption])
        | let v := eval vm_compute in (Hack.resolve sym x) in
          match v with
          | Some ?a => rewrite (step_A sym x s a) by (vm_compute; reflexivity)
          end ]
  end.

Ltac tidy :=
  cbn [Hack.A Hack.D Hack.ram Hack.SP Hack.LCL Hack.ARG Hack.THIS Hack.THAT] in *;
  repeat first
    [ rewrite wrap_wrap
    | rewrite upd_same
    | rewrite upd_other by lia
    | rewrite upd_eq by lia
    | rewrite wrap_small by lia
    | rewrite ltb0_nonneg by lia ].

Ltac c_instr :=
  cbn [Hack.step Hack.usesM Hack.toA Hack.toD Hack.toM orb andb
       Hack.operand Hack.jumps Hack.A Hack.D Hack.ram Hack.noDest];
  unfold Hack.alu; cbn [Hack.operand];
  tidy;
  cbn [andb orb negb].

Ltac hstep :=
  rewrite exec_cons; parse_line;
  first [ resolve_operand; tidy; cbn iota beta
        | progress c_instr ].

Ltac hrun := repeat hstep.

Ltac ran := hrun; cbn [Hack.exec]; reflexivity.

Ltac stage :=
  unfold pushes, sets, restores, sameMemory; tidy;
  repeat split; try lia; try reflexivity;
  try (intros; tidy; reflexivity).

Ltac words_of Hw :=
  pose proof (Hw 0); pose proof (Hw 1); pose proof (Hw 2);
  pose proof (Hw 3); pose proof (Hw 4); unfold word in *.

Ltac open_hyps :=
  repeat match goal with
         | H : _ /\ _ |- _ => destruct H
         | H : exists _, _ |- _ => destruct H
         end.

Ltac fell := eexists; split; [reflexivity | tidy; lia].

Lemma sampleState_words : wordState sampleState.
Proof.
  intros a. unfold sampleState, sampleRam, word. cbn [Hack.ram].
  repeat match goal with
         | |- context [if ?b then _ else _] => destruct b
         end; lia.
Defined.

Lemma wrapInt_small z : Go.minInt <= z <= Go.maxInt -> Go.wrapInt z = z.
Proof.
  unfold Go.wrapInt, Go.minInt, Go.maxInt. intros H.
  rewrite Z.mod_small by lia. lia.
Qed.

(* ================================================================== *)
(** ** The parser on lines of two and three tokens *)
(* ================================================================== *)

Lemma parseInstruction_two k f l c a :
  Go.Split l " " = [c; a] ->
  parseInstruction k f l =
  match parseCommandType (Go.ToLower c) with
  | None => Err ("invalid command type: " ++ c)
  | Some ct =>
      match parseArg1 ct [c; a] with
      | Panic => Panic
      | Err e => Err e
      | Ok (st, arg1) =>
          match parseArg2 ct [c; a] with
          | Panic => Panic
          | Err e => Err e
          | Ok (arg2, arg2Val) =>
              Ok (mkInstruction f l ct arg1 st arg2 arg2Val ALTypeAdd 0)
          end
      end
  end.
Proof. intros H. unfold parseInstruction. rewrite H. reflexivity. Qed.

Lemma parseInstruction_three k f l c a tok :
  Go.Split l " " = [c; a; tok] ->
  parseInstruction k f l =
  match parseCommandType (Go.ToLower c) with
  | None => Err ("invalid command type: " ++ c)
  | Some ct =>
      match parseArg1 ct [c; a; tok] with
      | Panic => Panic
      | Err e => Err e
      | Ok (st, arg1) =>
          match parseArg2 ct [c; a; tok] with
          | Panic => Panic
          | Err e => Err e
          | Ok (arg2, arg2Val) =>
              Ok (mkInstruction f l ct arg1 st arg2 arg2Val ALTypeAdd 0)
          end
      end
  end.
Proof. intros H. unfold parseInstruction. rewrite H. reflexivity. Qed.

Lemma parseArg2_numeric ct c a tok n :
  Go.Atoi tok = Some n ->
  parseArg2 ct [c; a; tok] =
  match ct with
  | CommandTypePush | CommandTypePop | CommandTypeFunction | CommandTypeCall =>
      Ok (tok, n)
  | _ => Ok ("", 0)
  end.
Proof.
  intros H. unfold parseArg2. cbn [nth_error].
  destruct tok as [|x tok]; [discriminate H|].
  rewrite H. destruct ct; reflexivity.
Qed.

Lemma parseArg2_not_numeric ct c a tok :
  hasNumericField ct = true -> tok <> "" -> Go.Atoi tok = None ->
  parseArg2 ct [c; a; tok] = Err ("invalid arg2 value: " ++ tok).
Proof.
  intros Hct Hne H. unfold parseArg2. cbn [nth_error].
  destruct tok as [|x tok]; [congruence|].
  rewrite H. destruct ct; try discriminate Hct; reflexivity.
Qed.

(* ================================================================== *)
(** ** Memory access: push and pop *)
(* ================================================================== *)

Lemma push_runs sym g i s :
  CmdType i = CommandTypePush -> pushReady sym i s ->
  exists s', Hack.exec sym (fst (GenAsm g i)) s = Hack.Fall s'
             /\ Hack.SP s' = Hack.SP s + 1.
Proof.
  intros Hc (Hw & Hsp & Hseg).
  unfold GenAsm, genBody. rewrite Hc.
  destruct s as [a d m]. words_of Hw. tidy.
  destruct (SegType i) eqn:Hs; cbn [fst baseRegister] in *; open_hyps;
    unfold staticName in *;
    unfold genConstantPUSH, genSegmentPUSH, genStaticPUSH, genTempPUSH,
      genPointerPUSH, SegmentType_ID;
    try (destruct (Arg2Val i =? 0); cbn [app]);
    hrun; fell.
Qed.

Lemma pop_runs sym g i s :
  CmdType i = CommandTypePop -> popReady sym i s ->
  exists s', Hack.exec sym (fst (GenAsm g i)) s = Hack.Fall s'
             /\ Hack.SP s' = Hack.SP s - 1.
Proof.
  intros Hc (Hw & Hsp & Hseg).
  unfold GenAsm, genBody. rewrite Hc.
  destruct s as [a d m]. words_of Hw. tidy.
  destruct (SegType i) eqn:Hs; cbn [fst baseRegister] in *; open_hyps;
    unfold staticName in *;
    unfold genConstantPOP, genSegmentPOP, genStaticPOP, genTempPOP,
      genPointerPOP, SegmentType_ID;
    try (destruct (Arg2Val i =? 0); cbn [app]);
    hrun; fell.
Qed.

(** A push of a negative constant is parsed, and the line [@-3] emitted
    for it is not Hack assembly: the code cannot run, so the stack
    pointer is not moved by one. *)
Lemma push_negative_counterexample :
  exists i,
    parseInstruction 0 "Main" "push constant -3" = Ok i
    /\ CmdType i = CommandTypePush
    /\ fst (GenAsm initialGenState i)
       = ["// push constant -3"; "@-3"; "D=A"; "@SP"; "AM=M+1"; "A=A-1"; "M=D"]
    /\ Hack.exec sampleSym (fst (GenAsm initialGenState i)) sampleState
       = Hack.Rejected.
Proof. eexists. repeat split; vm_compute; reflexivity. Qed.

Lemma pop_constant_runs sym g i s :
  CmdType i = CommandTypePop -> SegType i = SegmentTypeConstant ->
  wordState s -> 0 < Hack.SP s ->
  exists s', Hack.exec sym (fst (GenAsm g i)) s = Hack.Fall s'
             /\ sets 0 (Hack.SP s - 1) s s'.
Proof.
  intros Hc Hs Hw Hsp. unfold GenAsm, genBody. rewrite Hc, Hs.
  destruct s as [a d m]. words_of Hw. tidy.
  cbn [fst]. unfold genConstantPOP.
  eexists. split; [ran | stage].
Qed.

(** C6 (amended): for every push command whose offset fits an
    A-instruction (for a static, whose variable name is a symbol), run
    on a machine in [pushReady], the emitted lines run to their end, no
    line being rejected and no memory access having a negative address,
    and leave the stack pointer one higher; for every pop command run
    on a machine in [popReady] they leave it one lower; a pop of the
    constant segment is parsed and its code only lowers the stack
    pointer by one. *)
Theorem push_pop_stack_pointer sym g i s :
  (CmdType i = CommandTypePush -> pushReady sym i s ->
   exists s', Hack.exec sym (fst (GenAsm g i)) s = Hack.Fall s'
              /\ Hack.SP s' = Hack.SP s + 1)
  /\ (CmdType i = CommandTypePop -> popReady sym i s ->
      exists s', Hack.exec sym (fst (GenAsm g i)) s = Hack.Fall s'
                 /\ Hack.SP s' = Hack.SP s - 1)
  /\ (forall k f l c a tok n,
        Go.Split l " " = [c; a; tok] ->
        Go.ToLower c = "pop" -> Go.ToLower a = "constant" ->
        Go.Atoi tok = Some n ->
        exists p, parseInstruction k f l = Ok p
                  /\ CmdType p = CommandTypePop
                  /\ SegType p = SegmentTypeConstant
                  /\ (wordState s -> 0 < Hack.SP s ->
                      exists s',
                        Hack.exec sym (fst (GenAsm g p)) s = Hack.Fall s'
                        /\ sets 0 (Hack.SP s - 1) s s')).
Proof.
  split; [|split].
  - apply push_runs.
  - apply pop_runs.
  - intros k f l c a tok n Hsplit Hc Ha Htok.
    rewrite (parseInstruction_three _ _ _ _ _ _ Hsplit), Hc.
    cbn [parseCommandType String.eqb Ascii.eqb Bool.eqb].
    unfold parseArg1. cbn [nth_error]. rewrite Ha.
    cbn [parseSegment String.eqb Ascii.eqb Bool.eqb].
    rewrite (parseArg2_numeric _ _ _ _ _ Htok).
    eexists. split; [reflexivity|]. split; [reflexivity|]. split; [reflexivity|].
    now apply pop_constant_runs.
Qed.

Lemma push_pop_stack_pointer_witness :
  (exists s',
     Hack.exec sampleSym
       (fst (GenAsm initialGenState
               (mkInstruction "Main" "push local 2" CommandTypePush "local"
                  SegmentTypeLocal "2" 2 ALTypeAdd 0))) sampleState
     = Hack.Fall s' /\ Hack.SP s' = Hack.SP sampleState + 1)
  /\ (exists s',
     Hack.exec sampleSym
       (fst (GenAsm initialGenState
               (mkInstruction "Main" "pop constant 5" CommandTypePop "constant"
                  SegmentTypeConstant "5" 5 ALTypeAdd 0))) sampleState
     = Hack.Fall s' /\ Hack.SP s' = Hack.SP sampleState - 1).
Proof.
  split.
  - apply (proj1 (push_pop_stack_pointer sampleSym initialGenState _ sampleState)).
    + reflexivity.
    + split; [exact sampleState_words|]. vm_compute.
      repeat split; discriminate.
  - apply (proj1 (proj2 (push_pop_stack_pointer sampleSym initialGenState _
                           sampleState))).
    + reflexivity.
    + split; [exact sampleState_words|]. vm_compute. repeat split.
Defined.

(* ================================================================== *)
(** ** The calling protocol *)
(* ================================================================== *)

(** Return-address labels: the counter can be read back from the label,
    so two call sites with different counters get different labels. *)
Lemma append_assoc (a b c : string) : ((a ++ b) ++ c = a ++ (b ++ c))%string.
Proof. induction a; simpl; [reflexivity | now rewrite IHa]. Qed.

Lemma hasChar_app c a b : hasChar c (a ++ b) = hasChar c a || hasChar c b.
Proof. induction a; simpl; [reflexivity|]. now rewrite IHa, orb_assoc. Qed.

Lemma afterLast_app c a b :
  hasChar c b = false -> afterLast c (a ++ String c b) = b.
Proof.
  intros Hb. induction a as [|x a IH]; simpl.
  - now rewrite Hb, Ascii.eqb_refl.
  - rewrite hasChar_app. simpl. rewrite Ascii.eqb_refl.
    now rewrite orb_true_r.
Qed.

Lemma hasChar_digits c s :
  Hack.allChars Go.isDigit s = true -> Go.isDigit c = false ->
  hasChar c s = false.
Proof.
  intros Hs Hc. induction s as [|a s IH]; simpl in *; [reflexivity|].
  apply andb_true_iff in Hs as [Ha Hs].
  rewrite (IH Hs), orb_false_r.
  destruct (Ascii.eqb_spec a c) as [->|]; congruence.
Qed.

Lemma hasChar_itoa c k :
  Go.isDigit c = false -> c <> "-"%char -> hasChar c (Go.itoa k) = false.
Proof.
  intros Hc Hm. destruct k as [|p|p].
  - apply hasChar_digits; [reflexivity | assumption].
  - rewrite itoa_pos. apply hasChar_digits; [apply string_of_uint_digits | assumption].
  - rewrite itoa_neg. cbn [hasChar].
    rewrite hasChar_digits by (auto using string_of_uint_digits).
    destruct (Ascii.eqb_spec "-"%char c); [congruence | reflexivity].
Qed.

Lemma retAddrLabel_counter g :
  afterLast "." (retAddrLabel g) = Go.itoa (retIndex g).
Proof.
  unfold retAddrLabel.
  change (currentFunctionName g ++ "$ret." ++ Go.itoa (retIndex g))
    with (currentFunctionName g ++ "$ret" ++ String "." (Go.itoa (retIndex g))).
  rewrite <- append_assoc. apply afterLast_app.
  apply hasChar_itoa; [reflexivity | discriminate].
Qed.

Lemma retAddrLabel_inj g1 g2 :
  retAddrLabel g1 = retAddrLabel g2 -> retIndex g1 = retIndex g2.
Proof.
  intros E. apply itoa_inj.
  now rewrite <- !retAddrLabel_counter, E.
Qed.

Lemma wrapInt_succ_neq z : Go.wrapInt (z + 1) <> z.
Proof.
  unfold Go.wrapInt, Go.minInt. intros E.
  pose proof (Z.div_mod (z + 1 - - 2 ^ 63) (2 ^ 64) ltac:(lia)) as Hd.
  pose proof (Z.mod_pos_bound (z + 1 - - 2 ^ 63) (2 ^ 64) ltac:(lia)) as Hb.
  lia.
Qed.

(** The echo of the command, which [GenAsm] puts first, is a comment
    to the assembler. *)
Lemma exec_echo sym l rest s :
  Hack.exec sym (("// " ++ l)%string :: rest) s = Hack.exec sym rest s.
Proof. reflexivity. Qed.

Lemma GenAsm_call g i :
  CmdType i = CommandTypeCall ->
  GenAsm g i
  = (("// " ++ Line i)%string :: fst (genCall g (Arg1 i) (Arg2Val i)),
     snd (genCall g (Arg1 i) (Arg2Val i))).
Proof. intros Hc. unfold GenAsm, genBody. now rewrite Hc. Qed.


(** The line [call Main.f -6] is accepted as a call with argument count
    -6; the code generated for it holds the line [@-1], 5 + N printed as
    it is, which is not an A-instruction: the assembler rejects it, and
    the sequence sets no argument base. *)
Lemma call_count_counterexample :
  exists i,
    parseInstruction 0 "Main" "call Main.f -6" = Ok i
    /\ CmdType i = CommandTypeCall /\ Arg1 i = "Main.f" /\ Arg2Val i = -6
    /\ In "@-1" (fst (GenAsm initialGenState i))
    /\ (forall s, Hack.step sampleSym (Hack.parseLine "@-1") s
                  = Hack.StepRejected)
    /\ Hack.exec sampleSym (fst (GenAsm initialGenState i)) sampleState
       = Hack.Rejected.
Proof.
  eexists. split; [vm_compute; reflexivity|].
  repeat split; try (vm_compute; reflexivity).
  vm_compute. tauto.
Qed.

(** C1 (amended): for every call command with callee [Arg1 i] and
    argument count [N = Arg2Val i], where 5 + [N] fits an A-instruction
    ([N] from -5 to 32762), the callee and the return label are symbols
    the assembler resolves, and the machine holds 16-bit words with its
    stack pointer from 5 to 32762: the lines [GenAsm] emits are the
    echo of the command and then, in this order, the blocks that push
    the address of the return label [retAddrLabel], which differs from
    the label of every call site with another counter value, the call
    moving the counter on; push LCL, ARG, THIS, THAT, four slots in
    that order; set ARG to the stack pointer minus 5 minus [N]; set LCL
    to the stack pointer; jump to the callee; and declare the return
    label, the one line left after the jump.  At the jump the argument
    base equals the stack pointer minus 5 minus [N], the stack pointer
    being the one the five pushes leave, 5 above the one the call
    started with. *)
Theorem genCall_protocol sym g i s ra tgt :
  CmdType i = CommandTypeCall ->
  wordState s ->
  4 < Hack.SP s <= 32762 ->
  -5 <= Arg2Val i <= 32762 ->
  Hack.resolve sym (retAddrLabel g) = Some ra -> 0 <= ra <= 32767 ->
  Hack.resolve sym (Arg1 i) = Some tgt ->
  fst (GenAsm g i)
  = (("// " ++ Line i)%string
     :: callPushReturn (retAddrLabel g)
     ++ callSaveSegment SegmentTypeLocal
     ++ callSaveSegment SegmentTypeArgument
     ++ callSaveSegment SegmentTypeThis
     ++ callSaveSegment SegmentTypeThat
     ++ callSetARG (Arg2Val i)
     ++ callSetLCL
     ++ callGoto (Arg1 i)
     ++ [("(" ++ retAddrLabel g ++ ")")%string])%list
  /\ exists s1 s2 s3 s4 s5 s6 s7 s8,
    Hack.exec sym (callPushReturn (retAddrLabel g)) s = Hack.Fall s1
    /\ pushes ra s s1
    /\ Hack.exec sym (callSaveSegment SegmentTypeLocal) s1 = Hack.Fall s2
    /\ pushes (Hack.LCL s) s1 s2
    /\ Hack.exec sym (callSaveSegment SegmentTypeArgument) s2 = Hack.Fall s3
    /\ pushes (Hack.ARG s) s2 s3
    /\ Hack.exec sym (callSaveSegment SegmentTypeThis) s3 = Hack.Fall s4
    /\ pushes (Hack.THIS s) s3 s4
    /\ Hack.exec sym (callSaveSegment SegmentTypeThat) s4 = Hack.Fall s5
    /\ pushes (Hack.THAT s) s4 s5
    /\ Hack.exec sym (callSetARG (Arg2Val i)) s5 = Hack.Fall s6
    /\ sets 2 (Hack.SP s5 - 5 - Arg2Val i) s5 s6
    /\ Hack.exec sym callSetLCL s6 = Hack.Fall s7
    /\ sets 1 (Hack.SP s6) s6 s7
    /\ Hack.exec sym
         (callGoto (Arg1 i) ++ [("(" ++ retAddrLabel g ++ ")")%string])%list s7
       = Hack.Jumped tgt s8 [("(" ++ retAddrLabel g ++ ")")%string]
    /\ sameMemory s7 s8
    /\ Hack.exec sym (fst (GenAsm g i)) s
       = Hack.Jumped tgt s8 [("(" ++ retAddrLabel g ++ ")")%string]
    /\ Hack.SP s8 = Hack.SP s + 5
    /\ Hack.ARG s8 = Hack.SP s8 - 5 - Arg2Val i
    /\ Hack.LCL s8 = Hack.SP s8
    /\ retIndex (snd (GenAsm g i)) = Go.wrapInt (retIndex g + 1)
    /\ retIndex (snd (GenAsm g i)) <> retIndex g
    /\ (forall g', retIndex g' <> retIndex g ->
                   retAddrLabel g' <> retAddrLabel g).
Proof.
  intros Hc Hw Hsp HN Hra Hraw Htgt.
  rewrite (GenAsm_call g i Hc). cbn [fst snd].
  split; [unfold genCall; cbn [fst flat_map app]; now rewrite !app_nil_r|].
  rewrite exec_echo.
  set (N := Arg2Val i) in *. set (calleeFn := Arg1 i) in *.
  destruct s as [a d m]. words_of Hw. tidy.
  assert (HwN : Go.wrapInt (5 + N) = 5 + N).
  { apply wrapInt_small. unfold Go.minInt, Go.maxInt. lia. }
  do 8 eexists.
  split; [unfold callPushReturn; ran|]. split; [stage|].
  split; [unfold callSaveSegment, SegmentType_ID; ran|]. split; [stage|].
  split; [unfold callSaveSegment, SegmentType_ID; ran|]. split; [stage|].
  split; [unfold callSaveSegment, SegmentType_ID; ran|]. split; [stage|].
  split; [unfold callSaveSegment, SegmentType_ID; ran|]. split; [stage|].
  split; [unfold callSetARG; rewrite HwN; ran|]. split; [stage|].
  split; [unfold callSetLCL; ran|]. split; [stage|].
  split; [unfold callGoto; cbn [app]; ran|]. split; [stage|].
  split.
  { unfold genCall, callPushReturn, callSaveSegment, callSetARG, callSetLCL,
      callGoto, SegmentType_ID.
    cbn [fst flat_map app]. rewrite HwN. ran. }
  repeat split; tidy; try lia.
  - apply wrapInt_succ_neq.
  - intros g' Hg' E. now apply retAddrLabel_inj in E.
Qed.

Lemma genCall_protocol_witness :
  exists s',
    Hack.exec sampleSym
      (fst (GenAsm initialGenState
              (mkInstruction "Main" "call Main.f 2" CommandTypeCall "Main.f"
                 SegmentTypeConstant "2" 2 ALTypeAdd 0))) sampleState
    = Hack.Jumped 16 s' ["(LABEL$ret.1)"]
    /\ Hack.SP s' = Hack.SP sampleState + 5
    /\ Hack.ARG s' = Hack.SP s' - 5 - 2.
Proof.
  destruct (genCall_protocol sampleSym initialGenState
              (mkInstruction "Main" "call Main.f 2" CommandTypeCall "Main.f"
                 SegmentTypeConstant "2" 2 ALTypeAdd 0)
              sampleState 16 16)
    as (_ & s1 & s2 & s3 & s4 & s5 & s6 & s7 & s8 & H).
  - reflexivity.
  - exact sampleState_words.
  - vm_compute. split; [reflexivity | discriminate].
  - vm_compute. split; discriminate.
  - vm_compute. reflexivity.
  - lia.
  - vm_compute. reflexivity.
  - exists s8. repeat split; apply H.
Defined.

(* ================================================================== *)
(** ** The return protocol *)
(* ================================================================== *)






(* ================================================================== *)
(** ** The parser: arity, numeric fields, errors *)
(* ================================================================== *)

(** C7: a line of the single token [push], [pop], [label], [goto],
    [if-goto], [function] or [call] makes [parseInstruction] index
    [parts[1]] out of range: it panics instead of returning an
    error.  A [function] line without its count does return one. *)
Theorem parse_lone_command_panics (k : Z) (f : string) :
  parseInstruction k f "push" = Panic
  /\ parseInstruction k f "pop" = Panic
  /\ parseInstruction k f "label" = Panic
  /\ parseInstruction k f "goto" = Panic
  /\ parseInstruction k f "if-goto" = Panic
  /\ parseInstruction k f "function" = Panic
  /\ parseInstruction k f "call" = Panic
  /\ parseInstruction k f "function Main.f" = Err "invalid arg2 value: ".
Proof. repeat split; vm_compute; reflexivity. Qed.

(** A negative numeric field is accepted and stored as it is. *)
Lemma negative_field_counterexample :
  parseInstruction 0 "Main" "push constant -3"
  = Ok (mkInstruction "Main" "push constant -3" CommandTypePush "constant"
          SegmentTypeConstant "-3" (-3) ALTypeAdd 0).
Proof. vm_compute. reflexivity. Qed.

(** C8 (amended): for every push, pop, function or call line of three
    tokens whose first two tokens are accepted, a numeric token that
    [strconv.Atoi] reads as the integer [n], negative or not, makes the
    parser accept the line and store [n] as it is; every [n] of the
    [int] range written in decimal is read back by [Atoi]; and only a
    token [Atoi] cannot read is rejected, with the error
    [invalid arg2 value]. *)
Theorem numeric_field_signed k f l c a tok ct st arg1 :
  Go.Split l " " = [c; a; tok] ->
  parseCommandType (Go.ToLower c) = Some ct ->
  hasNumericField ct = true ->
  parseArg1 ct [c; a; tok] = Ok (st, arg1) ->
  (forall n, Go.Atoi tok = Some n ->
             parseInstruction k f l
             = Ok (mkInstruction f l ct arg1 st tok n ALTypeAdd 0))
  /\ (forall n, Go.minInt <= n <= Go.maxInt -> Go.Atoi (Go.itoa n) = Some n)
  /\ (tok <> "" -> Go.Atoi tok = None ->
      parseInstruction k f l = Err ("invalid arg2 value: " ++ tok)).
Proof.
  intros Hsplit Hct Hnum Ha1.
  rewrite (parseInstruction_three _ _ _ _ _ _ Hsplit), Hct, Ha1.
  split; [|split].
  - intros n Hn. rewrite (parseArg2_numeric _ _ _ _ _ Hn).
    destruct ct; try discriminate Hnum; reflexivity.
  - apply Atoi_itoa.
  - intros Hne Hn. now rewrite parseArg2_not_numeric.
Qed.

Lemma numeric_field_signed_witness :
  parseInstruction 4 "Main" "call Main.f -2"
  = Ok (mkInstruction "Main" "call Main.f -2" CommandTypeCall "Main.f"
          SegmentTypeConstant "-2" (-2) ALTypeAdd 0).
Proof.
  apply (proj1 (numeric_field_signed 4 "Main" "call Main.f -2"
                  "call" "Main.f" "-2" CommandTypeCall SegmentTypeConstant
                  "Main.f" eq_refl eq_refl eq_refl eq_refl)).
  reflexivity.
Defined.

(** The error of a rejected line is the same text whatever the module
    and the index, and the same for lines that differ after the
    offending token: none of the three can be read back from it. *)
Lemma parse_error_counterexample :
  ~ (exists recover : string -> string,
       forall k f l e, parseInstruction k f l = Err e -> recover e = f)
  /\ ~ (exists recover : string -> Z,
          forall k f l e, parseInstruction k f l = Err e -> recover e = k)
  /\ ~ (exists recover : string -> string,
          forall k f l e, parseInstruction k f l = Err e -> recover e = l).
Proof.
  assert (E1 : parseInstruction 0 "A" "jump x" = Err "invalid command type: jump")
    by (vm_compute; reflexivity).
  assert (E2 : parseInstruction 7 "B" "jump y" = Err "invalid command type: jump")
    by (vm_compute; reflexivity).
  repeat split; intros [recover H]; apply H in E1; apply H in E2;
    rewrite E1 in E2; discriminate E2.
Qed.

Lemma parseArg1_error ct parts e :
  parseArg1 ct parts = Err e -> parseErrorForm parts e.
Proof.
  unfold parseArg1, parseErrorForm.
  destruct ct.
  - intros [= <-]. tauto.
  - destruct (nth_error parts 1) as [p1|] eqn:E; [|discriminate].
    rewrite (nth_error_nth _ _ "" E).
    destruct (parseSegment (Go.ToLower p1)); [discriminate|].
    intros [= <-]. tauto.
  - destruct (nth_error parts 1) as [p1|] eqn:E; [|discriminate].
    rewrite (nth_error_nth _ _ "" E).
    destruct (parseSegment (Go.ToLower p1)); [discriminate|].
    intros [= <-]. tauto.
  - destruct (nth_error parts 1); discriminate.
  - destruct (nth_error parts 1); discriminate.
  - destruct (nth_error parts 1); discriminate.
  - destruct (nth_error parts 1); discriminate.
  - destruct (1 <? Z.of_nat (List.length parts)); [|discriminate].
    intros [= <-]. tauto.
  - destruct (nth_error parts 1); discriminate.
Qed.

Lemma parseArg2_error ct parts e :
  parseArg2 ct parts = Err e -> parseErrorForm parts e.
Proof.
  unfold parseArg2, parseErrorForm.
  assert (Hsome : forall arg2,
             nth_error parts 2 = Some arg2 -> nth 2 parts "" = arg2)
    by (intros; now apply nth_error_nth).
  assert (Hnone : nth_error parts 2 = None -> nth 2 parts "" = "").
  { intros Hn. apply nth_overflow. now apply nth_error_None. }
  destruct ct; try discriminate;
    (destruct (nth_error parts 2) as [arg2|] eqn:E;
     [ rewrite (Hsome arg2 eq_refl);
       destruct (0 <? Z.of_nat (String.length arg2)); try discriminate;
       destruct (Go.Atoi arg2); intros [= <-]; tauto
     | rewrite (Hnone eq_refl); intros [= <-]; tauto ]).
Qed.

(** C9 (amended): for every line the parser rejects, the error is one
    of five fixed messages followed by the number of pieces of the
    line, by its first, its second or its third token, or by nothing;
    it is the same for every module name and every command index, so
    it identifies neither; the translation loop hands on the same error
    for the command at that index. *)
Theorem parse_error_content k f l e :
  parseInstruction k f l = Err e ->
  parseErrorForm (Go.Split l " ") e
  /\ (forall k' f', parseInstruction k' f' l = Err e)
  /\ (forall g rLine rest,
        decodeLineFileName rLine = (f, l) ->
        translateLines g k (rLine :: rest) = Err e).
Proof.
  intros H.
  assert (Hind : forall k' f', parseInstruction k' f' l = Err e).
  { intros k' f'. revert H. unfold parseInstruction.
    destruct ((Z.of_nat (List.length (Go.Split l " ")) =? 0)
              || (3 <? Z.of_nat (List.length (Go.Split l " ")))); [trivial|].
    destruct (if Z.of_nat (List.length (Go.Split l " ")) =? 1
              then parseAL (nth 0 (Go.Split l " ") "") else None);
      [discriminate|].
    destruct (parseCommandType (Go.ToLower (nth 0 (Go.Split l " ") "")));
      [|trivial].
    destruct (parseArg1 c (Go.Split l " ")) as [[st arg1]| |]; try trivial.
    destruct (parseArg2 c (Go.Split l " ")) as [[arg2 v]| |];
      try trivial; discriminate. }
  split; [|split].
  - revert H. unfold parseInstruction.
    destruct ((Z.of_nat (List.length (Go.Split l " ")) =? 0)
              || (3 <? Z.of_nat (List.length (Go.Split l " ")))).
    { intros [= <-]. left. reflexivity. }
    destruct (if Z.of_nat (List.length (Go.Split l " ")) =? 1
              then parseAL (nth 0 (Go.Split l " ") "") else None);
      [discriminate|].
    destruct (parseCommandType (Go.ToLower (nth 0 (Go.Split l " ") ""))).
    2:{ intros [= <-]. right. left. reflexivity. }
    destruct (parseArg1 c (Go.Split l " ")) as [[st arg1]| |] eqn:E1.
    + destruct (parseArg2 c (Go.Split l " ")) as [[arg2 v]| |] eqn:E2;
        try discriminate.
      intros [= <-]. now apply parseArg2_error in E2.
    + intros [= <-]. now apply parseArg1_error in E1.
    + discriminate.
  - exact Hind.
  - intros g rLine rest Hd. cbn [translateLines]. rewrite Hd.
    now rewrite H.
Qed.

Lemma parse_error_content_witness :
  parseErrorForm (Go.Split "push nowhere 1" " ") "invalid arg1 segment type: nowhere"
  /\ parseInstruction 9 "Other" "push nowhere 1"
     = Err "invalid arg1 segment type: nowhere".
Proof.
  pose proof (parse_error_content 0 "Main" "push nowhere 1"
                "invalid arg1 segment type: nowhere" eq_refl) as H.
  split; [apply H | apply (proj1 (proj2 H))].
Defined.

(* ================================================================== *)
(** ** The pointer segment *)
(* ================================================================== *)

(** C10: for every push or pop line on the pointer segment whose offset
    token [strconv.Atoi] reads as [n], the parser accepts the line with
    offset [n], and the emitted code depends on [n] only through the
    test [n = 0]: with any other offset, 2 and above or negative alike,
    it is the code of offset 1, which addresses THAT (cell 4), pushing
    its value or popping into it; only offset 0 addresses THIS
    (cell 3). *)
Theorem pointer_offset k f l c a tok n ct g :
  Go.Split l " " = [c; a; tok] ->
  parseCommandType (Go.ToLower c) = Some ct ->
  ct = CommandTypePush \/ ct = CommandTypePop ->
  parseSegment (Go.ToLower a) = Some SegmentTypePointer ->
  Go.Atoi tok = Some n ->
  exists i,
    parseInstruction k f l = Ok i
    /\ CmdType i = ct /\ SegType i = SegmentTypePointer /\ Arg2Val i = n
    /\ (ct = CommandTypePush ->
        fst (genBody g i)
        = [if n =? 0 then "@THIS" else "@THAT";
           "D=M"; "@SP"; "A=M"; "M=D"; "@SP"; "M=M+1"]
        /\ forall sym s,
            wordState s -> 0 < Hack.SP s < 32767 ->
            exists s',
              Hack.exec sym (fst (genBody g i)) s = Hack.Fall s'
              /\ pushes (Hack.ram s (if n =? 0 then 3 else 4)) s s')
    /\ (ct = CommandTypePop ->
        fst (genBody g i)
        = ["@SP"; "AM=M-1"; "D=M";
           if n =? 0 then "@THIS" else "@THAT"; "M=D"]
        /\ forall sym s,
            wordState s -> 1 < Hack.SP s ->
            exists s',
              Hack.exec sym (fst (genBody g i)) s = Hack.Fall s'
              /\ Hack.SP s' = Hack.SP s - 1
              /\ Hack.ram s' (if n =? 0 then 3 else 4)
                 = Hack.ram s (Hack.SP s - 1)
              /\ forall x, x <> 0 -> x <> (if n =? 0 then 3 else 4) ->
                           Hack.ram s' x = Hack.ram s x)
    /\ (n <> 0 -> (if n =? 0 then 3 else 4) = 4
                  /\ (if n =? 0 then "@THIS" else "@THAT") = "@THAT").
Proof.
  intros Hsplit Hct Hkind Hseg Htok.
  rewrite (parseInstruction_three _ _ _ _ _ _ Hsplit), Hct.
  assert (Ha1 : parseArg1 ct [c; a; tok] = Ok (SegmentTypePointer, Go.ToLower a)).
  { unfold parseArg1. cbn [nth_error]. rewrite Hseg.
    destruct Hkind as [-> | ->]; reflexivity. }
  rewrite Ha1, (parseArg2_numeric _ _ _ _ _ Htok).
  eexists. split.
  { destruct Hkind as [-> | ->]; reflexivity. }
  cbn [CmdType SegType Arg2Val].
  split; [reflexivity|]. split; [reflexivity|]. split; [reflexivity|].
  split; [|split].
  - intros ->. unfold genBody. cbn [CmdType SegType fst].
    unfold genPointerPUSH. cbn [Arg2Val app]. split; [reflexivity|].
    intros sym s Hw Hsp. destruct s as [ra rd m]. words_of Hw. tidy.
    destruct (n =? 0); (eexists; split; [ran | stage]).
  - intros ->. unfold genBody. cbn [CmdType SegType fst].
    unfold genPointerPOP. cbn [Arg2Val app]. split; [reflexivity|].
    intros sym s Hw Hsp. pose proof (Hw (Hack.SP s - 1)).
    destruct s as [ra rd m]. words_of Hw. tidy.
    destruct (n =? 0); (eexists; split; [ran | stage]).
  - intros Hn. apply Z.eqb_neq in Hn. now rewrite Hn.
Qed.

Lemma pointer_offset_witness :
  exists i,
    parseInstruction 0 "Main" "push pointer 7" = Ok i
    /\ fst (genBody initialGenState i)
       = ["@THAT"; "D=M"; "@SP"; "A=M"; "M=D"; "@SP"; "M=M+1"].
Proof.
  destruct (pointer_offset 0 "Main" "push pointer 7" "push" "pointer" "7" 7
              CommandTypePush initialGenState eq_refl eq_refl
              (or_introl eq_refl) eq_refl eq_refl)
    as (i & Hp & _ & _ & _ & Hpush & _).
  exists i. split; [exact Hp | apply (Hpush eq_refl)].
Defined.

(* ================================================================== *)
(** ** Labels *)
(* ================================================================== *)

(** The symbol [LOOP] declared once under [Main.a] and once under
    [Main.b] is emitted both times as the same text [(LOOP)]. *)
Lemma label_scope_counterexample :
  exists out,
    translateLines initialGenState 0 sampleLabelProgram = Ok out
    /\ out = ["// function Main.a 0"; "(Main.a)"; "// label LOOP"; "(LOOP)";
              "// function Main.b 0"; "(Main.b)"; "// label LOOP"; "(LOOP)"]
    /\ nth 3 out "" = nth 7 out "".
Proof. eexists. repeat split; vm_compute; reflexivity. Qed.

(** C3 (amended): for every label command with symbol [L], the emitted
    jump target is [(L)], the symbol alone: it is the same text in
    every generator state, whatever function was declared last, so two
    label commands with the same symbol under two different functions
    emit the same target. *)
Theorem label_target_unscoped k f l c L :
  Go.Split l " " = [c; L] ->
  Go.ToLower c = "label" ->
  exists i,
    parseInstruction k f l = Ok i
    /\ CmdType i = CommandTypeLabel
    /\ Arg1 i = L
    /\ forall g, GenAsm g i = (["// " ++ l; "(" ++ L ++ ")"], g).
Proof.
  intros Hsplit Hc.
  rewrite (parseInstruction_two _ _ _ _ _ Hsplit), Hc.
  eexists. split; [reflexivity|].
  repeat split.
Qed.

Lemma label_target_unscoped_witness :
  exists i,
    parseInstruction 1 "Main" "label LOOP" = Ok i
    /\ GenAsm (mkGenState "Main.a" 1) i = (["// label LOOP"; "(LOOP)"], mkGenState "Main.a" 1)
    /\ GenAsm (mkGenState "Main.b" 4) i = (["// label LOOP"; "(LOOP)"], mkGenState "Main.b" 4).
Proof.
  destruct (label_target_unscoped 1 "Main" "label LOOP" "label" "LOOP"
              eq_refl eq_refl) as (i & Hp & _ & _ & Hg).
  exists i. split; [exact Hp|]. split; apply Hg.
Defined.

(* ================================================================== *)
(** ** Comparison labels *)
(* ================================================================== *)

Lemma mapString_app f a b :
  Go.mapString f (a ++ b) = Go.mapString f a ++ Go.mapString f b.
Proof. induction a; simpl; [reflexivity | now rewrite IHa]. Qed.

Lemma ToUpper_digits s :
  Hack.allChars Go.isDigit s = true -> Go.ToUpper s = s.
Proof.
  induction s as [|x s IH]; simpl; [reflexivity|].
  intros H. apply andb_true_iff in H as [Hx Hs].
  unfold Go.ToUpper in *. simpl. rewrite (IH Hs). f_equal.
  unfold Go.toUpperChar, Go.isLower. unfold Go.isDigit in Hx.
  apply andb_true_iff in Hx as [H1 H2].
  apply N.leb_le in H1, H2.
  destruct (N.leb_spec 97 (Go.code x)); [lia | reflexivity].
Qed.

Lemma ToUpper_itoa k : Go.ToUpper (Go.itoa k) = Go.itoa k.
Proof.
  destruct k as [|p|p].
  - reflexivity.
  - rewrite itoa_pos. apply ToUpper_digits, string_of_uint_digits.
  - rewrite itoa_neg. unfold Go.ToUpper. cbn [Go.mapString]. f_equal.
    apply ToUpper_digits, string_of_uint_digits.
Qed.

Lemma getLogicalLabel_text i p :
  getLogicalLabel i p = "(" ++ Go.ToUpper p ++ "." ++ Go.itoa (Index i) ++ ")".
Proof.
  unfold getLogicalLabel, Go.ToUpper.
  change ("(" ++ p ++ "." ++ Go.itoa (Index i) ++ ")")
    with (String "(" (p ++ String "." (Go.itoa (Index i) ++ ")"))).
  cbn [Go.mapString]. rewrite mapString_app. cbn [Go.mapString].
  rewrite mapString_app. fold Go.ToUpper. rewrite ToUpper_itoa.
  reflexivity.
Qed.

Lemma getLogicalARegister_head i p :
  exists r, getLogicalARegister i p = String "@" r.
Proof. unfold getLogicalARegister. eexists. reflexivity. Qed.

(** The label declarations of an arithmetic or logical command. *)
Lemma labelDecls_genArithmetic i :
  labelDecls (genArithmetic i) =
  if isComparison (ALKind i)
  then [getLogicalLabel i (ALType_String (ALKind i) ++ "_true");
        getLogicalLabel i (ALType_String (ALKind i) ++ "_false")]
  else [].
Proof.
  unfold genArithmetic.
  destruct (ALKind i); try reflexivity;
    rewrite !getLogicalLabel_text;
    destruct (getLogicalARegister_head i (ALType_String ALTypeEq ++ "_true")) as [r1 E1];
    destruct (getLogicalARegister_head i (ALType_String ALTypeEq ++ "_false")) as [r2 E2];
    destruct (getLogicalARegister_head i (ALType_String ALTypeGt ++ "_true")) as [r3 E3];
    destruct (getLogicalARegister_head i (ALType_String ALTypeGt ++ "_false")) as [r4 E4];
    destruct (getLogicalARegister_head i (ALType_String ALTypeLt ++ "_true")) as [r5 E5];
    destruct (getLogicalARegister_head i (ALType_String ALTypeLt ++ "_false")) as [r6 E6];
    cbn [ALType_String] in *;
    rewrite ?E1, ?E2, ?E3, ?E4, ?E5, ?E6; reflexivity.
Qed.

Lemma comparison_label_index i p :
  afterLast "." (getLogicalLabel i p) = Go.itoa (Index i) ++ ")".
Proof.
  rewrite getLogicalLabel_text.
  change ("(" ++ Go.ToUpper p ++ "." ++ Go.itoa (Index i) ++ ")")
    with (("(" ++ Go.ToUpper p) ++ String "." (Go.itoa (Index i) ++ ")")).
  apply afterLast_app. rewrite hasChar_app.
  rewrite hasChar_itoa by (reflexivity || discriminate). reflexivity.
Qed.

Lemma parseCommandType_not_arithmetic s ct :
  parseCommandType s = Some ct -> ct <> CommandTypeArithmetic.
Proof.
  unfold parseCommandType.
  repeat match goal with
         | |- context [if ?b then _ else _] => destruct b
         end; intros [= <-]; discriminate.
Qed.

Lemma parse_arithmetic_index k f l i :
  parseInstruction k f l = Ok i -> CmdType i = CommandTypeArithmetic ->
  Index i = k.
Proof.
  unfold parseInstruction.
  destruct ((Z.of_nat (List.length (Go.Split l " ")) =? 0)
            || (3 <? Z.of_nat (List.length (Go.Split l " ")))); [discriminate|].
  destruct (if Z.of_nat (List.length (Go.Split l " ")) =? 1
            then parseAL (nth 0 (Go.Split l " ") "") else None).
  { intros [= <-]. reflexivity. }
  destruct (parseCommandType (Go.ToLower (nth 0 (Go.Split l " ") ""))) eqn:Ect;
    [|discriminate].
  destruct (parseArg1 c (Go.Split l " ")) as [[st arg1]| |]; try discriminate.
  destruct (parseArg2 c (Go.Split l " ")) as [[arg2 v]| |]; try discriminate.
  intros [= <-]. cbn [CmdType]. intros ->.
  now apply parseCommandType_not_arithmetic in Ect.
Qed.

Lemma append_last_inj a b c :
  a ++ String c "" = b ++ String c "" -> a = b.
Proof.
  revert b. induction a as [|x a IH]; intros [|y b]; simpl; intros E.
  - reflexivity.
  - injection E as _ E. destruct b; discriminate.
  - injection E as _ E. destruct a; discriminate.
  - injection E as -> E. f_equal. now apply IH.
Qed.

(** Which label declarations a command other than [label] and
    [function] emits. *)
Lemma labelDecls_GenAsm g j :
  CmdType j <> CommandTypeLabel -> CmdType j <> CommandTypeFunction ->
  labelDecls (fst (GenAsm g j)) =
  match CmdType j with
  | CommandTypeArithmetic => labelDecls (genArithmetic j)
  | CommandTypeCall => [("(" ++ retAddrLabel g ++ ")")%string]
  | _ => []
  end.
Proof.
  intros Hl Hf. unfold GenAsm, genBody.
  destruct (CmdType j); try congruence; try reflexivity.
  - destruct (SegType j); try reflexivity.
    unfold genPointerPUSH. destruct (Arg2Val j =? 0); reflexivity.
  - destruct (SegType j); try reflexivity.
    unfold genPointerPOP. destruct (Arg2Val j =? 0); reflexivity.
Qed.

Lemma hasChar_comparison_label i p :
  hasChar "$" p = false -> hasChar "$" (getLogicalLabel i p) = false.
Proof.
  intros Hp. rewrite getLogicalLabel_text.
  change ("(" ++ Go.ToUpper p ++ "." ++ Go.itoa (Index i) ++ ")")
    with (String "(" (Go.ToUpper p ++ String "." (Go.itoa (Index i) ++ ")"))).
  cbn [hasChar]. rewrite hasChar_app. cbn [hasChar].
  rewrite hasChar_app, hasChar_itoa by (reflexivity || discriminate).
  unfold Go.ToUpper.
  assert (Hu : hasChar "$" (Go.mapString Go.toUpperChar p) = false).
  { clear -Hp. induction p as [|x p IH]; [reflexivity|].
    cbn [hasChar Go.mapString] in *.
    apply orb_false_iff in Hp as [Hx Hp'].
    rewrite (IH Hp'), orb_false_r.
    unfold Go.toUpperChar.
    destruct (Go.isLower x) eqn:Hlow; [|exact Hx].
    destruct (Ascii.eqb_spec (ascii_of_N (Go.code x - 32)) "$") as [E|]; [|reflexivity].
    exfalso. unfold Go.isLower in Hlow.
    apply andb_true_iff in Hlow as [H1 H2]. apply N.leb_le in H1, H2.
    apply (f_equal N_of_ascii) in E. rewrite N_ascii_embedding in E by lia.
    cbn in E. lia. }
  rewrite Hu. reflexivity.
Qed.

(** C5 (amended): for every comparison command (eq, gt, lt) parsed at
    sequence index [k], the generator emits exactly two label
    declarations, [(OP_TRUE.k)] and [(OP_FALSE.k)] with [OP] the
    operator in upper case, and no command parsed at another index
    emits a label declaration with the same text, unless it is a label
    or a function command, whose symbol is emitted as written and can
    spell either of them.  No bound on the program length is needed. *)
Theorem comparison_labels k f l i :
  parseInstruction k f l = Ok i ->
  CmdType i = CommandTypeArithmetic ->
  isComparison (ALKind i) = true ->
  (forall g,
     labelDecls (fst (GenAsm g i))
     = ["(" ++ Go.ToUpper (ALType_String (ALKind i)) ++ "_TRUE." ++ Go.itoa k ++ ")";
        "(" ++ Go.ToUpper (ALType_String (ALKind i)) ++ "_FALSE." ++ Go.itoa k ++ ")"])
  /\ (forall g g' k' f' l' j,
        parseInstruction k' f' l' = Ok j ->
        k' <> k ->
        CmdType j <> CommandTypeLabel ->
        CmdType j <> CommandTypeFunction ->
        forall x,
          In x (labelDecls (fst (GenAsm g i))) ->
          ~ In x (labelDecls (fst (GenAsm g' j)))).
Proof.
  intros Hp Hc Hcmp.
  pose proof (parse_arithmetic_index _ _ _ _ Hp Hc) as Hk.
  assert (Hi : forall g, labelDecls (fst (GenAsm g i))
               = [getLogicalLabel i (ALType_String (ALKind i) ++ "_true");
                  getLogicalLabel i (ALType_String (ALKind i) ++ "_false")]).
  { intros g. rewrite labelDecls_GenAsm by congruence.
    now rewrite Hc, labelDecls_genArithmetic, Hcmp. }
  split.
  - intros g. rewrite Hi, !getLogicalLabel_text, Hk.
    destruct (ALKind i); try discriminate Hcmp; reflexivity.
  - intros g g' k' f' l' j Hpj Hne Hl Hf x Hx Hxj.
    rewrite Hi in Hx. rewrite labelDecls_GenAsm in Hxj by assumption.
    assert (Hidx : afterLast "." x = Go.itoa k ++ ")").
    { rewrite <- Hk.
      destruct Hx as [<- | [<- | []]]; apply comparison_label_index. }
    assert (Hdollar : hasChar "$" x = false).
    { destruct Hx as [<- | [<- | []]]; apply hasChar_comparison_label;
        destruct (ALKind i); reflexivity. }
    destruct (CmdType j) eqn:Ej; try contradiction; try (now destruct Hxj).
    + rewrite labelDecls_genArithmetic in Hxj.
      pose proof (parse_arithmetic_index _ _ _ _ Hpj Ej) as Hkj.
      destruct (isComparison (ALKind j)); [|now destruct Hxj].
      assert (Hidx' : afterLast "." x = Go.itoa k' ++ ")").
      { rewrite <- Hkj.
        destruct Hxj as [<- | [<- | []]]; apply comparison_label_index. }
      rewrite Hidx in Hidx'. apply append_last_inj, itoa_inj in Hidx'.
      congruence.
    + destruct Hxj as [<- | []].
      cbn [hasChar append] in Hdollar. rewrite hasChar_app in Hdollar.
      unfold retAddrLabel in Hdollar. rewrite hasChar_app in Hdollar.
      cbn [hasChar append Ascii.eqb Bool.eqb] in Hdollar.
      rewrite orb_true_r in Hdollar. discriminate.
Qed.

(** The user label [EQ_TRUE.1] at index 0 and the comparison [eq] at
    index 1 both declare [(EQ_TRUE.1)]. *)
Lemma comparison_label_counterexample :
  exists i0 i1 out,
    parseInstruction 0 "Main" "label EQ_TRUE.1" = Ok i0
    /\ parseInstruction 1 "Main" "eq" = Ok i1
    /\ In "(EQ_TRUE.1)" (labelDecls (fst (GenAsm initialGenState i0)))
    /\ In "(EQ_TRUE.1)" (labelDecls (fst (GenAsm initialGenState i1)))
    /\ translateLines initialGenState 0 sampleClashProgram = Ok out
    /\ labelDecls out = ["(EQ_TRUE.1)"; "(EQ_TRUE.1)"; "(EQ_FALSE.1)"].
Proof.
  do 3 eexists.
  split; [vm_compute; reflexivity|]. split; [vm_compute; reflexivity|].
  split; [vm_compute; tauto|]. split; [vm_compute; tauto|].
  split; vm_compute; reflexivity.
Qed.

Lemma comparison_labels_witness :
  exists i,
    parseInstruction 3 "Main" "eq" = Ok i
    /\ labelDecls (fst (GenAsm initialGenState i)) = ["(EQ_TRUE.3)"; "(EQ_FALSE.3)"].
Proof.
  eexists. split; [vm_compute; reflexivity|].
  apply (proj1 (comparison_labels 3 "Main" "eq" _ eq_refl eq_refl eq_refl)).
Defined.

(* ================================================================== *)
(** ** Module sequencing *)
(* ================================================================== *)

Lemma findSysInit_app pre m post :
  (forall f, In f pre -> fileHasSysInit f = false) ->
  fileHasSysInit m = true ->
  findSysInit (pre ++ m :: post) = Some (List.length pre).
Proof.
  intros Hpre Hm. induction pre as [|p pre IH]; simpl.
  - now rewrite Hm.
  - rewrite (Hpre p) by (now left).
    rewrite IH by (intros; apply Hpre; now right). reflexivity.
Qed.

Lemma findSysInit_none files :
  (forall f, In f files -> fileHasSysInit f = false) ->
  findSysInit files = None.
Proof.
  induction files as [|p files IH]; intros H; simpl; [reflexivity|].
  rewrite (H p) by (now left).
  rewrite IH by (intros; apply H; now right). reflexivity.
Qed.

Lemma removeAt_app {A : Type} (pre : list A) m post :
  removeAt (List.length pre) (pre ++ m :: post) = (pre ++ post)%list.
Proof. induction pre; simpl; [reflexivity | now rewrite IHpre]. Qed.

Lemma nth_error_middle {A : Type} (pre : list A) m post :
  nth_error (pre ++ m :: post) (List.length pre) = Some m.
Proof. induction pre; simpl; auto. Qed.

(** C4: the first scan of [main] passes over lines that start with
    [//] and then looks for the text [function Sys.init 0] anywhere in
    the line, a trailing comment included.  Module A has the one
    command [push constant 1] and mentions the entry point in a
    trailing comment; module B declares it.  A is taken for the module
    with the entry point: the commands of B are scanned and emitted
    first and those of A last, after the bootstrap lines. *)
Theorem entry_point_in_comment :
  lineHasSysInit "// function Sys.init 0" = false
  /\ lineHasSysInit "push constant 1 // used by function Sys.init 0" = true
  /\ scanFile sampleModuleA = ["A#push constant 1"]
  /\ scanFile sampleModuleB = ["B#function Sys.init 0"; "B#push constant 2"]
  /\ findSysInit [sampleModuleA; sampleModuleB] = Some 0%nat
  /\ orderFiles [sampleModuleA; sampleModuleB]
       (findSysInit [sampleModuleA; sampleModuleB])
     = [sampleModuleB; sampleModuleA]
  /\ instructionsLinesOf [sampleModuleA; sampleModuleB]
       (findSysInit [sampleModuleA; sampleModuleB])
     = Some ["B#function Sys.init 0"; "B#push constant 2"; "A#push constant 1"]
  /\ exists body,
       translateLines (snd (bootstrap initialGenState)) 0
         ["B#function Sys.init 0"; "B#push constant 2"; "A#push constant 1"]
       = Ok body
       /\ translate [sampleModuleA; sampleModuleB]
          = Written (fst (bootstrap initialGenState) ++ body)%list.
Proof.
  repeat (split; [vm_compute; reflexivity|]).
  eexists. split; vm_compute; reflexivity.
Qed.

Lemma bootstrap_runs sym s :
  exists s',
    Hack.exec sym (fst (bootstrap initialGenState)) s
    = Hack.Jumped (sym "Sys.init") s' ["(LABEL$ret.1)"]
    /\ Hack.SP s' = 261 /\ Hack.LCL s' = 261 /\ Hack.ARG s' = 256.
Proof.
  destruct s as [a d m].
  unfold bootstrap, genCall, bootstrapHeader, callPushReturn, callSaveSegment,
    callSetARG, callSetLCL, callGoto, SegmentType_ID, initialGenState,
    retAddrLabel.
  cbn [fst flat_map app currentFunctionName retIndex].
  change (Go.itoa (Go.wrapInt (5 + 0))) with "5".
  change (Go.itoa 1) with "1".
  cbn [String.append].
  eexists. split; [ran|]. tidy. repeat split.
Qed.

(** What the second scan and the run make of the module the first scan
    marks: when one module [m] of several has a line that passes the
    test of the first scan, the commands are scanned with [m] last; the
    run either fails on a command or writes the bootstrap lines (set SP
    to 256, then the call of Sys.init with 0 arguments, which leaves SP
    at 261 and jumps to Sys.init) before any generated command; and
    when several modules are given and none has such a line, the run
    exits with code 1 before the destination file is created. *)
Lemma marked_module_last pre m post :
  (pre ++ post)%list <> [] ->
  fileHasSysInit m = true ->
  (forall f, In f (pre ++ post)%list -> fileHasSysInit f = false) ->
  instructionsLinesOf (pre ++ m :: post) (findSysInit (pre ++ m :: post))
  = Some (flat_map scanFile (pre ++ post) ++ scanFile m)%list
  /\ translate (pre ++ m :: post)
     = (if Z.of_nat (List.length (flat_map scanFile (pre ++ post) ++ scanFile m)) =? 0
        then Exit 1 "No source lines found" true
        else
          match translateLines (snd (bootstrap initialGenState)) 0
                  (flat_map scanFile (pre ++ post) ++ scanFile m)%list with
          | Ok body => Written (fst (bootstrap initialGenState) ++ body)%list
          | Err e => Exit 2 ("Error parsing instruction " ++ e) true
          | Panic => Crash
          end)
  /\ fst (bootstrap initialGenState)
     = ("// Bootstrap code" :: "@256" :: "D=A" :: "@SP" :: "M=D"
        :: "/// call Sys.init 0" :: fst (genCall initialGenState "Sys.init" 0))
  /\ (forall sym s,
        exists s',
          Hack.exec sym (fst (bootstrap initialGenState)) s
          = Hack.Jumped (sym "Sys.init") s' ["(LABEL$ret.1)"]
          /\ Hack.SP s' = 261 /\ Hack.LCL s' = 261 /\ Hack.ARG s' = 256)
  /\ (forall srcFiles,
        (1 < List.length srcFiles)%nat ->
        (forall f, In f srcFiles -> fileHasSysInit f = false) ->
        translate srcFiles
        = Exit 1 "Sys.init not found in any source file" false).
Proof.
  intros Hne Hm Hothers.
  assert (Hfind : findSysInit (pre ++ m :: post) = Some (List.length pre)).
  { apply findSysInit_app; [|assumption].
    intros f Hf. apply Hothers, in_or_app. now left. }
  assert (Hmulti : (1 <? Z.of_nat (List.length (pre ++ m :: post))) = true).
  { apply Z.ltb_lt. rewrite length_app. cbn [List.length].
    destruct pre; [destruct post; [contradiction|]|]; cbn [List.length]; lia. }
  assert (Hlines :
            instructionsLinesOf (pre ++ m :: post) (findSysInit (pre ++ m :: post))
            = Some (flat_map scanFile (pre ++ post) ++ scanFile m)%list).
  { unfold instructionsLinesOf. rewrite Hmulti, Hfind. unfold orderFiles.
    rewrite removeAt_app, nth_error_middle, flat_map_app.
    cbn [flat_map]. now rewrite app_nil_r. }
  split; [exact Hlines|]. split; [|split; [reflexivity|split]].
  - unfold translate. rewrite Hlines, Hfind, Hmulti. cbn [andb].
    destruct (Z.of_nat (List.length (flat_map scanFile (pre ++ post) ++ scanFile m)) =? 0);
      [reflexivity|].
    destruct (bootstrap initialGenState) as [boot g1]. reflexivity.
  - apply bootstrap_runs.
  - intros srcFiles Hlen Hnone. unfold translate.
    rewrite (findSysInit_none _ Hnone).
    assert (H1 : (1 <? Z.of_nat (List.length srcFiles)) = true)
      by (apply Z.ltb_lt; lia).
    now rewrite H1.
Qed.

(* ================================================================== *)
(** ** Splitting and trimming *)
(* ================================================================== *)

Lemma append_nil_r (s : string) : s ++ "" = s.
Proof. induction s; simpl; [reflexivity | now rewrite IHs]. Qed.

Lemma revString_twice s a b :
  Go.revString a (Go.revString b s) = Go.revString (s ++ a) b.
Proof.
  revert a b. induction s as [|c s IH]; intros a b; simpl; [reflexivity|].
  now rewrite IH.
Qed.

Lemma revString_involutive s : Go.revString "" (Go.revString "" s) = s.
Proof. rewrite revString_twice. simpl. apply append_nil_r. Qed.

Lemma hasChar_revString c s acc :
  hasChar c (Go.revString acc s) = hasChar c s || hasChar c acc.
Proof.
  revert acc. induction s as [|a s IH]; intros acc; simpl; [reflexivity|].
  rewrite IH. simpl.
  destruct (Ascii.eqb a c), (hasChar c s), (hasChar c acc); reflexivity.
Qed.

Lemma HasPrefix_nil s : Go.HasPrefix s "" = true.
Proof. destruct s; reflexivity. Qed.

Section SplitOnChar.

Variable c : ascii.

Let sep : string := String c EmptyString.

Lemma HasPrefix_char a r :
  Go.HasPrefix (String a r) sep = Ascii.eqb a c.
Proof. unfold sep. cbn [Go.HasPrefix]. now rewrite HasPrefix_nil, andb_true_r. Qed.

(** One piece when the separator does not occur. *)
Lemma splitGo_piece s cur :
  hasChar c s = false ->
  Go.splitGo sep s O cur = [Go.revString "" (Go.revString cur s)].
Proof.
  revert cur. induction s as [|a s IH]; intros cur H; [reflexivity|].
  cbn [hasChar] in H. apply orb_false_iff in H as [Ha Hs].
  cbn [Go.splitGo]. rewrite HasPrefix_char, Ha. now apply IH.
Qed.

(** The first field and the rest. *)
Lemma splitGo_field tok rest cur :
  hasChar c tok = false ->
  Go.splitGo sep (tok ++ String c rest) O cur
  = Go.revString "" (Go.revString cur tok) :: Go.splitGo sep rest O "".
Proof.
  revert cur. induction tok as [|a tok IH]; intros cur H.
  - cbn [append Go.splitGo]. rewrite HasPrefix_char, Ascii.eqb_refl.
    reflexivity.
  - cbn [hasChar] in H. apply orb_false_iff in H as [Ha Hs].
    cbn [append Go.splitGo]. rewrite HasPrefix_char, Ha. now apply IH.
Qed.

Lemma Split_piece s : hasChar c s = false -> Go.Split s sep = [s].
Proof.
  intros H. unfold Go.Split. rewrite splitGo_piece by assumption.
  now rewrite revString_involutive.
Qed.

Lemma Split_field tok rest :
  hasChar c tok = false ->
  Go.Split (tok ++ String c rest) sep = tok :: Go.Split rest sep.
Proof.
  intros H. unfold Go.Split. rewrite splitGo_field by assumption.
  now rewrite revString_involutive.
Qed.

(** As many pieces as separators, and one more. *)
Lemma splitGo_length s cur :
  List.length (Go.splitGo sep s O cur) = S (countChar c s).
Proof.
  revert cur. induction s as [|a s IH]; intros cur; [reflexivity|].
  cbn [Go.splitGo countChar]. rewrite HasPrefix_char.
  destruct (Ascii.eqb a c); cbn [List.length Nat.pred String.length];
    rewrite IH; reflexivity.
Qed.

Lemma Split_length s : List.length (Go.Split s sep) = S (countChar c s).
Proof. apply splitGo_length. Qed.

(** No piece holds the separator. *)
Lemma splitGo_pieces s cur t :
  hasChar c cur = false ->
  In t (Go.splitGo sep s O cur) -> hasChar c t = false.
Proof.
  revert cur. induction s as [|a s IH]; intros cur Hcur.
  - cbn [Go.splitGo]. intros [<- | []].
    rewrite hasChar_revString. now rewrite Hcur.
  - cbn [Go.splitGo]. rewrite HasPrefix_char.
    destruct (Ascii.eqb a c) eqn:Ha.
    + cbn [String.length Nat.pred]. intros [<- | Hin].
      * rewrite hasChar_revString. now rewrite Hcur.
      * now apply (IH "").
    + apply IH. cbn [hasChar]. now rewrite Ha, Hcur.
Qed.

Lemma Split_pieces s t : In t (Go.Split s sep) -> hasChar c t = false.
Proof. now apply splitGo_pieces. Qed.

End SplitOnChar.

(** Trimming. *)
Lemma string_length_ind (P : string -> Prop) :
  (forall s, (forall t, (String.length t < String.length s)%nat -> P t) -> P s) ->
  forall s, P s.
Proof.
  intros H s.
  assert (Hn : forall n t, (String.length t < n)%nat -> P t).
  { induction n as [|n IH]; intros t Ht; [lia|].
    apply H. intros u Hu. apply IH. lia. }
  apply (Hn (S (String.length s))). lia.
Qed.

Lemma revString_app acc a b :
  Go.revString acc (a ++ b) = Go.revString (Go.revString acc a) b.
Proof. revert acc. induction a as [|c a IH]; intros acc; cbn; auto. Qed.

Lemma revString_acc acc s : Go.revString acc s = Go.revString "" s ++ acc.
Proof.
  revert acc. induction s as [|c s IH]; intros acc; cbn [Go.revString];
    [reflexivity|].
  rewrite (IH (String c acc)), (IH (String c "")), append_assoc. reflexivity.
Qed.

Lemma revString_append a b :
  Go.revString "" (a ++ b) = Go.revString "" b ++ Go.revString "" a.
Proof. rewrite revString_app. apply revString_acc. Qed.

Section TrimRunes.

Variable one : ascii -> bool.
Variable two : ascii -> ascii -> bool.
Variable three : ascii -> ascii -> ascii -> bool.

Lemma trimRunes_eq s :
  Go.trimRunes one two three s
  = match s with
    | EmptyString => EmptyString
    | String a r1 =>
        if one a then Go.trimRunes one two three r1
        else
          match r1 with
          | EmptyString => s
          | String b r2 =>
              if two a b then Go.trimRunes one two three r2
              else
                match r2 with
                | EmptyString => s
                | String c r3 =>
                    if three a b c then Go.trimRunes one two three r3 else s
                end
          end
    end.
Proof. destruct s; reflexivity. Qed.

Lemma trimRunes_start s :
  startsWithRune one two three (Go.trimRunes one two three s) = false.
Proof.
  induction s as [s IH] using string_length_ind.
  destruct s as [|a [|b [|c r3]]]; rewrite trimRunes_eq.
  - reflexivity.
  - destruct (one a) eqn:E1; cbn [startsWithRune Go.trimRunes]; [reflexivity|].
    now rewrite E1.
  - destruct (one a) eqn:E1; [apply IH; cbn; lia|].
    destruct (two a b) eqn:E2; cbn [startsWithRune Go.trimRunes];
      [reflexivity|].
    now rewrite E1, E2.
  - destruct (one a) eqn:E1; [apply IH; cbn; lia|].
    destruct (two a b) eqn:E2; [apply IH; cbn; lia|].
    destruct (three a b c) eqn:E3; [apply IH; cbn; lia|].
    cbn [startsWithRune]. now rewrite E1, E2, E3.
Qed.

Lemma trimRunes_id s :
  startsWithRune one two three s = false -> Go.trimRunes one two three s = s.
Proof.
  destruct s as [|a [|b [|c r3]]]; rewrite trimRunes_eq;
    cbn [startsWithRune];
    intros H; repeat (apply orb_false_iff in H as [? H]);
    repeat match goal with
           | E : _ = false |- _ => rewrite E; clear E
           end; try rewrite H; reflexivity.
Qed.

Lemma trimRunes_suffix s : exists p, s = p ++ Go.trimRunes one two three s.
Proof.
  induction s as [s IH] using string_length_ind.
  destruct s as [|a [|b [|c r3]]]; rewrite trimRunes_eq.
  - now exists "".
  - destruct (one a); [exists (String a "") | exists ""]; reflexivity.
  - destruct (one a).
    { destruct (IH (String b "")) as [p Hp]; [cbn; lia|].
      exists (String a p). cbn [append]. now f_equal. }
    destruct (two a b); [exists (String a (String b "")) | exists ""];
      reflexivity.
  - destruct (one a).
    { destruct (IH (String b (String c r3))) as [p Hp]; [cbn; lia|].
      exists (String a p). cbn [append]. now f_equal. }
    destruct (two a b).
    { destruct (IH (String c r3)) as [p Hp]; [cbn; lia|].
      exists (String a (String b p)). cbn [append]. now do 2 f_equal. }
    destruct (three a b c).
    { destruct (IH r3) as [p Hp]; [cbn; lia|].
      exists (String a (String b (String c p))). cbn [append].
      now do 3 f_equal. }
    now exists "".
Qed.

Lemma startsWithRune_app u t :
  startsWithRune one two three u = true ->
  startsWithRune one two three (u ++ t) = true.
Proof.
  destruct u as [|a [|b [|c r3]]]; cbn [startsWithRune append];
    try discriminate; intros H;
    repeat (apply orb_true_iff in H as [H | H]); try discriminate H;
    rewrite H; repeat rewrite orb_true_r; reflexivity.
Qed.

End TrimRunes.

Lemma trimLeft_start s : startsWithSpace (Go.trimLeft s) = false.
Proof. apply trimRunes_start. Qed.

Lemma trimLeft_id s : startsWithSpace s = false -> Go.trimLeft s = s.
Proof. apply trimRunes_id. Qed.

Lemma trimLeft_suffix s : exists p, s = p ++ Go.trimLeft s.
Proof. apply trimRunes_suffix. Qed.

Lemma trimRight_end s : endsWithSpace (Go.trimRight s) = false.
Proof.
  unfold endsWithSpace, Go.trimRight. rewrite revString_involutive.
  apply trimRunes_start.
Qed.

Lemma trimRight_id s : endsWithSpace s = false -> Go.trimRight s = s.
Proof.
  unfold endsWithSpace, Go.trimRight, Go.trimReversed. intros H.
  rewrite (trimRunes_id _ _ _ _ H). apply revString_involutive.
Qed.

Lemma trimRight_prefix s : exists t, s = Go.trimRight s ++ t.
Proof.
  unfold Go.trimRight.
  destruct (trimRunes_suffix Go.isSpace (fun a b => Go.isSpace2 b a)
              (fun a b c => Go.isSpace3 c b a) (Go.revString "" s)) as [p Hp].
  exists (Go.revString "" p).
  fold Go.trimReversed in Hp.
  rewrite <- revString_append, <- Hp. symmetry. apply revString_involutive.
Qed.

Lemma trimRight_start s :
  startsWithSpace s = false -> startsWithSpace (Go.trimRight s) = false.
Proof.
  intros H. destruct (trimRight_prefix s) as [t Ht].
  destruct (startsWithSpace (Go.trimRight s)) eqn:E; [|reflexivity].
  apply (startsWithRune_app _ _ _ _ t) in E. fold startsWithSpace in E.
  rewrite <- Ht in E. congruence.
Qed.

Lemma TrimSpace_trimmed s :
  startsWithSpace (Go.TrimSpace s) = false
  /\ endsWithSpace (Go.TrimSpace s) = false.
Proof.
  unfold Go.TrimSpace. split.
  - apply trimRight_start, trimLeft_start.
  - apply trimRight_end.
Qed.

Lemma TrimSpace_id s :
  startsWithSpace s = false -> endsWithSpace s = false -> Go.TrimSpace s = s.
Proof.
  intros H1 H2. unfold Go.TrimSpace. rewrite (trimLeft_id _ H1).
  now apply trimRight_id.
Qed.

Lemma TrimSpace_idempotent s : Go.TrimSpace (Go.TrimSpace s) = Go.TrimSpace s.
Proof. apply TrimSpace_id; apply TrimSpace_trimmed. Qed.

(** Substrings of the pieces trimming keeps. *)
Lemma HasPrefix_app a t sub :
  Go.HasPrefix a sub = true -> Go.HasPrefix (a ++ t) sub = true.
Proof.
  revert sub. induction a as [|x a IH]; intros [|y sub]; cbn; try discriminate;
    try reflexivity.
  - intros _. apply HasPrefix_nil.
  - intros H. apply andb_true_iff in H as [H1 H2].
    rewrite H1. cbn. now apply IH.
Qed.

Lemma Contains_app_l a t sub :
  Go.Contains a sub = true -> Go.Contains (a ++ t) sub = true.
Proof.
  induction a as [|x a IH].
  - cbn. rewrite orb_false_r. intros H.
    destruct sub; [|discriminate]. destruct t; reflexivity.
  - cbn [Go.Contains append]. intros H. apply orb_true_iff in H as [H | H].
    + change (String x (a ++ t)) with (String x a ++ t).
      rewrite (HasPrefix_app _ _ _ H). reflexivity.
    + rewrite (IH H). apply orb_true_r.
Qed.

Lemma Contains_tail c s sub :
  Go.Contains (String c s) sub = false -> Go.Contains s sub = false.
Proof. cbn [Go.Contains]. intros H. now apply orb_false_iff in H. Qed.

Lemma Contains_app_r p t sub :
  Go.Contains (p ++ t) sub = false -> Go.Contains t sub = false.
Proof.
  induction p as [|c p IH]; [trivial|].
  intros H. apply IH. exact (Contains_tail _ _ _ H).
Qed.

Lemma Contains_trimLeft s sub :
  Go.Contains s sub = false -> Go.Contains (Go.trimLeft s) sub = false.
Proof.
  intros H. destruct (trimLeft_suffix s) as [p Hp].
  rewrite Hp in H. exact (Contains_app_r _ _ _ H).
Qed.

Lemma Contains_trimRight s sub :
  Go.Contains s sub = false -> Go.Contains (Go.trimRight s) sub = false.
Proof.
  intros H. destruct (trimRight_prefix s) as [t Ht].
  destruct (Go.Contains (Go.trimRight s) sub) eqn:E; [|reflexivity].
  apply (Contains_app_l _ t) in E. rewrite <- Ht in E. congruence.
Qed.

Lemma Contains_TrimSpace s sub :
  Go.Contains s sub = false -> Go.Contains (Go.TrimSpace s) sub = false.
Proof. intros H. now apply Contains_trimRight, Contains_trimLeft. Qed.

(** The first piece of a split at [//] is the text before the first
    [//]. *)
Lemma splitGo_comment s cur :
  exists rest,
    Go.splitGo "//" s O cur
    = Go.revString "" (Go.revString cur (beforeComment s)) :: rest.
Proof.
  revert cur. induction s as [|c s IH]; intros cur.
  - now exists [].
  - cbn [Go.splitGo beforeComment].
    destruct (Go.HasPrefix (String c s) "//").
    + eexists. reflexivity.
    + destruct (IH (String c cur)) as [rest ->]. now exists rest.
Qed.

Lemma removeCommentsAndSpaces_eq line :
  removeCommentsAndSpaces line = Go.TrimSpace (beforeComment line).
Proof.
  unfold removeCommentsAndSpaces, Go.Split.
  destruct (splitGo_comment line "") as [rest ->].
  now rewrite revString_involutive.
Qed.

Lemma beforeComment_head s a r :
  beforeComment s = String a r -> exists r', s = String a r'.
Proof.
  destruct s as [|c s]; [discriminate|].
  cbn [beforeComment]. destruct (Go.HasPrefix (String c s) "//"); [discriminate|].
  intros [= <- _]. now exists s.
Qed.

Lemma beforeComment_clean s : Go.Contains (beforeComment s) "//" = false.
Proof.
  induction s as [|c s IH]; [reflexivity|].
  cbn [beforeComment]. destruct (Go.HasPrefix (String c s) "//") eqn:E;
    [reflexivity|].
  cbn [Go.Contains]. rewrite IH, orb_false_r.
  destruct (Go.HasPrefix (String c (beforeComment s)) "//") eqn:E2;
    [|reflexivity].
  exfalso. cbn [Go.HasPrefix] in E2.
  destruct (beforeComment s) as [|a r] eqn:Eb; [now rewrite andb_false_r in E2|].
  destruct (beforeComment_head _ _ _ Eb) as [r' ->].
  cbn [Go.HasPrefix] in E, E2. rewrite !HasPrefix_nil in *.
  rewrite !andb_true_r in *. congruence.
Qed.

Lemma beforeComment_id s : Go.Contains s "//" = false -> beforeComment s = s.
Proof.
  induction s as [|c s IH]; [reflexivity|].
  intros H. cbn [Go.Contains] in H. apply orb_false_iff in H as [H1 H2].
  cbn [beforeComment]. rewrite H1. now rewrite (IH H2).
Qed.

(** X1: what the cleanup of a source line leaves holds no [//], neither
    starts nor ends with white space, and is left alone by a second
    cleanup. *)
Theorem removeCommentsAndSpaces_clean line :
  Go.Contains (removeCommentsAndSpaces line) "//" = false
  /\ startsWithSpace (removeCommentsAndSpaces line) = false
  /\ endsWithSpace (removeCommentsAndSpaces line) = false
  /\ removeCommentsAndSpaces (removeCommentsAndSpaces line)
     = removeCommentsAndSpaces line.
Proof.
  assert (H1 : Go.Contains (removeCommentsAndSpaces line) "//" = false).
  { rewrite removeCommentsAndSpaces_eq.
    apply Contains_TrimSpace, beforeComment_clean. }
  split; [exact H1|].
  rewrite (removeCommentsAndSpaces_eq (removeCommentsAndSpaces line)).
  rewrite (beforeComment_id _ H1).
  rewrite removeCommentsAndSpaces_eq.
  destruct (TrimSpace_trimmed (beforeComment line)) as [Hs He].
  repeat split; try assumption. apply TrimSpace_idempotent.
Qed.

(* ================================================================== *)
(** ** Tagging lines with their module *)
(* ================================================================== *)

Lemma countChar_app c a b :
  countChar c (a ++ b) = (countChar c a + countChar c b)%nat.
Proof. induction a; simpl; [reflexivity | rewrite IHa; lia]. Qed.

Lemma hasChar_countChar c s : hasChar c s = true -> (0 < countChar c s)%nat.
Proof.
  induction s as [|a s IH]; cbn [hasChar countChar]; [discriminate|].
  destruct (Ascii.eqb a c); cbn; [lia | exact IH].
Qed.

Lemma ReplaceSpaces_no_space s : hasChar " " (Go.ReplaceSpaces s) = false.
Proof.
  induction s as [|a s IH]; [reflexivity|].
  unfold Go.ReplaceSpaces in *. cbn [Go.mapString hasChar]. rewrite IH.
  destruct (Ascii.eqb_spec a " ") as [->|Hn]; [reflexivity|].
  rewrite orb_false_r. now apply Ascii.eqb_neq.
Qed.

(** X2: a line tagged with its module decodes to the module name, namely
    the file name without directory and extension and with spaces
    replaced, which holds no space, and to the line trimmed, provided
    neither holds a [#]; a cleaned line comes back as it is. *)
Theorem decode_encode fileName line :
  hasChar "#" (Go.ReplaceSpaces
                 (Go.TrimSuffix (Go.Base fileName) (Go.Ext fileName))) = false ->
  hasChar "#" line = false ->
  decodeLineFileName (encodeLineFileName fileName line)
  = (Go.ReplaceSpaces (Go.TrimSuffix (Go.Base fileName) (Go.Ext fileName)),
     Go.TrimSpace line)
  /\ hasChar " " (Go.ReplaceSpaces
                    (Go.TrimSuffix (Go.Base fileName) (Go.Ext fileName))) = false
  /\ (forall raw, line = removeCommentsAndSpaces raw -> Go.TrimSpace line = line).
Proof.
  intros Hname Hline. split; [|split].
  - unfold decodeLineFileName, encodeLineFileName.
    change ("#" ++ line) with (String "#" line).
    rewrite (Split_field "#") by assumption.
    rewrite (Split_piece "#") by assumption. reflexivity.
  - apply ReplaceSpaces_no_space.
  - intros raw ->. rewrite removeCommentsAndSpaces_eq.
    apply TrimSpace_idempotent.
Qed.

Lemma decode_encode_witness :
  decodeLineFileName (encodeLineFileName "src/My Prog.vm" "push constant 1")
  = ("My_Prog", "push constant 1").
Proof.
  apply (proj1 (decode_encode "src/My Prog.vm" "push constant 1"
                  eq_refl eq_refl)).
Defined.

(** X3: a command that holds a [#] cannot be decoded: the module name
    and the command are both taken to be empty, and the run stops on
    the error of an empty command word, which names neither. *)
Theorem hash_in_command g k fileName line rest :
  hasChar "#" line = true ->
  decodeLineFileName (encodeLineFileName fileName line) = ("", "")
  /\ translateLines g k (encodeLineFileName fileName line :: rest)
     = Err "invalid command type: ".
Proof.
  intros H.
  assert (Hd : decodeLineFileName (encodeLineFileName fileName line) = ("", "")).
  { unfold decodeLineFileName.
    pose proof (Split_length "#" (encodeLineFileName fileName line)) as Hl.
    unfold encodeLineFileName in *.
    rewrite countChar_app in Hl.
    change ("#" ++ line) with (String "#" line) in *.
    cbn [countChar] in Hl. rewrite Ascii.eqb_refl in Hl.
    apply hasChar_countChar in H.
    destruct (Go.Split _ "#") as [|p0 [|p1 [|p2 ps]]]; try reflexivity;
      cbn [List.length] in Hl; lia. }
  split; [exact Hd|].
  cbn [translateLines]. rewrite Hd. reflexivity.
Qed.

Lemma hash_in_command_witness :
  translateLines initialGenState 0 [encodeLineFileName "Main.vm" "label A#B"]
  = Err "invalid command type: ".
Proof.
  apply (proj2 (hash_in_command initialGenState 0 "Main.vm" "label A#B" []
                  eq_refl)).
Defined.

(* ================================================================== *)
(** ** More on the parser *)
(* ================================================================== *)

(** X4: a line with more than two spaces, a doubled space between
    tokens included, is rejected with the number of pieces the split
    gives, one more than the number of spaces. *)
Theorem parse_too_many_spaces k f l :
  (2 < countChar " " l)%nat ->
  List.length (Go.Split l " ") = S (countChar " " l)
  /\ parseInstruction k f l
     = Err ("invalid instruction length: "
            ++ Go.itoa (Z.of_nat (S (countChar " " l)))).
Proof.
  intros H. pose proof (Split_length " " l) as Hl. split; [exact Hl|].
  unfold parseInstruction. rewrite Hl.
  assert (E : (Z.of_nat (S (countChar " " l)) =? 0)
              || (3 <? Z.of_nat (S (countChar " " l))) = true).
  { apply orb_true_iff. right. apply Z.ltb_lt. lia. }
  now rewrite E.
Qed.

Lemma parse_too_many_spaces_witness :
  parseInstruction 0 "Main" "push  constant  7"
  = Err "invalid instruction length: 5".
Proof.
  apply (proj2 (parse_too_many_spaces 0 "Main" "push  constant  7"
                  ltac:(vm_compute; lia))).
Defined.

Lemma parseAL_text s al : parseAL s = Some al -> s = ALType_String al.
Proof.
  unfold parseAL.
  repeat match goal with
         | |- context [String.eqb s ?w] =>
             destruct (String.eqb_spec s w) as [->|_];
             [intros [= <-]; reflexivity|]
         end.
  discriminate.
Qed.

Lemma parseSegment_text s st : parseSegment s = Some st -> s = SegmentType_String st.
Proof.
  unfold parseSegment.
  repeat match goal with
         | |- context [String.eqb s ?w] =>
             destruct (String.eqb_spec s w) as [->|_];
             [intros [= <-]; reflexivity|]
         end.
  discriminate.
Qed.

Lemma parseCommandType_text s ct :
  parseCommandType s = Some ct -> s = CommandType_String ct.
Proof.
  unfold parseCommandType.
  repeat match goal with
         | |- context [String.eqb s ?w] =>
             destruct (String.eqb_spec s w) as [->|_];
             [intros [= <-]; reflexivity|]
         end.
  discriminate.
Qed.

Lemma Atoi_range tok v : Go.Atoi tok = Some v -> Go.minInt <= v <= Go.maxInt.
Proof.
  unfold Go.Atoi.
  match goal with
  | |- match ?x with _ => _ end = _ -> _ => destruct x as [w|]; [|discriminate]
  end.
  destruct (Z.leb_spec Go.minInt w); [|discriminate].
  destruct (Z.leb_spec w Go.maxInt); [|discriminate].
  cbn [andb]. intros [= <-]. split; assumption.
Qed.

Lemma hasChar_count0 c s : countChar c s = 0%nat -> hasChar c s = false.
Proof.
  induction s as [|a s IH]; cbn [hasChar countChar]; [reflexivity|].
  destruct (Ascii.eqb a c); cbn; [discriminate | exact IH].
Qed.

Lemma Split_single l :
  List.length (Go.Split l " ") = 1%nat -> Go.Split l " " = [l].
Proof.
  intros H. rewrite (Split_length " ") in H.
  apply Split_piece, hasChar_count0. lia.
Qed.

Lemma nth_error_Split_no_space l n t :
  nth_error (Go.Split l " ") n = Some t -> hasChar " " t = false.
Proof. intros H. apply nth_error_In in H. now apply (Split_pieces " ") in H. Qed.

(** The two ways [parseInstruction] accepts a line. *)
Lemma parseInstruction_Ok k f l i :
  parseInstruction k f l = Ok i ->
  (exists al,
      Go.Split l " " = [l] /\ parseAL l = Some al
      /\ i = mkInstruction f l CommandTypeArithmetic l SegmentTypeConstant
               "" 0 al k)
  \/ (exists ct st arg1 arg2 v,
         parseCommandType (Go.ToLower (nth 0 (Go.Split l " ") "")) = Some ct
         /\ parseArg1 ct (Go.Split l " ") = Ok (st, arg1)
         /\ parseArg2 ct (Go.Split l " ") = Ok (arg2, v)
         /\ i = mkInstruction f l ct arg1 st arg2 v ALTypeAdd 0).
Proof.
  unfold parseInstruction.
  destruct ((Z.of_nat (List.length (Go.Split l " ")) =? 0)
            || (3 <? Z.of_nat (List.length (Go.Split l " ")))); [discriminate|].
  assert (Hrest :
    match parseCommandType (Go.ToLower (nth 0 (Go.Split l " ") "")) with
    | Some ct =>
        match parseArg1 ct (Go.Split l " ") with
        | Ok (st, arg1) =>
            match parseArg2 ct (Go.Split l " ") with
            | Ok (arg2, arg2Val) =>
                Ok (mkInstruction f l ct arg1 st arg2 arg2Val ALTypeAdd 0)
            | Err e => Err e
            | Panic => Panic
            end
        | Err e => Err e
        | Panic => Panic
        end
    | None => Err ("invalid command type: " ++ nth 0 (Go.Split l " ") "")
    end = Ok i ->
    exists ct st arg1 arg2 v,
      parseCommandType (Go.ToLower (nth 0 (Go.Split l " ") "")) = Some ct
      /\ parseArg1 ct (Go.Split l " ") = Ok (st, arg1)
      /\ parseArg2 ct (Go.Split l " ") = Ok (arg2, v)
      /\ i = mkInstruction f l ct arg1 st arg2 v ALTypeAdd 0).
  { destruct (parseCommandType (Go.ToLower (nth 0 (Go.Split l " ") "")))
      as [ct|] eqn:Ect; [|discriminate].
    destruct (parseArg1 ct (Go.Split l " ")) as [[st arg1]| |] eqn:E1;
      try discriminate.
    destruct (parseArg2 ct (Go.Split l " ")) as [[arg2 v]| |] eqn:E2;
      try discriminate.
    intros [= <-]. exists ct, st, arg1, arg2, v. repeat split; assumption. }
  destruct (Z.of_nat (List.length (Go.Split l " ")) =? 1) eqn:E1.
  - apply Z.eqb_eq in E1.
    assert (Hs : Go.Split l " " = [l]) by (apply Split_single; lia).
    destruct (parseAL (nth 0 (Go.Split l " ") "")) as [al|] eqn:Eal.
    + rewrite Hs in *. cbn [nth] in *.
      intros [= <-]. left. exists al. repeat split. exact Eal.
    + intros H. right. now apply Hrest.
  - intros H. right. now apply Hrest.
Qed.

Lemma parseArg1_Ok ct parts st arg1 :
  parseArg1 ct parts = Ok (st, arg1) ->
  match ct with
  | CommandTypePush | CommandTypePop =>
      arg1 = SegmentType_String st
      /\ exists p1, nth_error parts 1 = Some p1 /\ Go.ToLower p1 = arg1
  | CommandTypeReturn => st = SegmentTypeConstant /\ arg1 = ""
                         /\ (List.length parts <= 1)%nat
  | CommandTypeArithmetic => False
  | _ => st = SegmentTypeConstant /\ nth_error parts 1 = Some arg1
  end.
Proof.
  unfold parseArg1. destruct ct; try discriminate.
  - destruct (nth_error parts 1) as [p1|]; [|discriminate].
    destruct (parseSegment (Go.ToLower p1)) as [s|] eqn:E; [|discriminate].
    intros [= <- <-]. split; [now apply parseSegment_text|]. now exists p1.
  - destruct (nth_error parts 1) as [p1|]; [|discriminate].
    destruct (parseSegment (Go.ToLower p1)) as [s|] eqn:E; [|discriminate].
    intros [= <- <-]. split; [now apply parseSegment_text|]. now exists p1.
  - destruct (nth_error parts 1); [|discriminate]. intros [= <- <-]. auto.
  - destruct (nth_error parts 1); [|discriminate]. intros [= <- <-]. auto.
  - destruct (nth_error parts 1); [|discriminate]. intros [= <- <-]. auto.
  - destruct (nth_error parts 1); [|discriminate]. intros [= <- <-]. auto.
  - destruct (Z.ltb_spec 1 (Z.of_nat (List.length parts))); [discriminate|].
    intros [= <- <-]. repeat split. lia.
  - destruct (nth_error parts 1); [|discriminate]. intros [= <- <-]. auto.
Qed.

Lemma parseArg2_Ok ct parts arg2 v :
  parseArg2 ct parts = Ok (arg2, v) ->
  if hasNumericField ct
  then nth_error parts 2 = Some arg2
       /\ (arg2 = "" /\ v = 0 \/ Go.Atoi arg2 = Some v)
  else arg2 = "" /\ v = 0.
Proof.
  unfold parseArg2.
  destruct ct; cbn [hasNumericField]; try (intros [= <- <-]; auto; fail);
    (destruct (nth_error parts 2) as [t|]; [|discriminate];
     destruct t as [|x t];
     [ cbn; intros [= <- <-]; auto
     | cbn [String.length Z.of_nat]; cbn [Z.ltb Z.compare];
       destruct (Go.Atoi (String x t)) eqn:E; [|discriminate];
       intros [= <- <-]; auto ]).
Qed.

(** The fields of an accepted line. *)
Lemma parseInstruction_fields k f l i :
  parseInstruction k f l = Ok i ->
  FileName i = f /\ Line i = l
  /\ Go.minInt <= Arg2Val i <= Go.maxInt
  /\ (CmdType i = CommandTypeArithmetic ->
      Index i = k /\ l = ALType_String (ALKind i) /\ Arg1 i = l)
  /\ (CmdType i <> CommandTypeArithmetic ->
      Index i = 0 /\ ALKind i = ALTypeAdd)
  /\ (CmdType i = CommandTypePush \/ CmdType i = CommandTypePop ->
      Arg1 i = SegmentType_String (SegType i))
  /\ (CmdType i <> CommandTypePush -> CmdType i <> CommandTypePop ->
      SegType i = SegmentTypeConstant)
  /\ (if hasNumericField (CmdType i)
      then Arg2 i = "" /\ Arg2Val i = 0 \/ Go.Atoi (Arg2 i) = Some (Arg2Val i)
      else Arg2 i = "" /\ Arg2Val i = 0)
  /\ hasChar " " (Arg1 i) = false /\ hasChar " " (Arg2 i) = false.
Proof.
  intros H. apply parseInstruction_Ok in H.
  destruct H as [(al & Hs & Hal & ->) | (ct & st & arg1 & arg2 & v & Hct & H1 & H2 & ->)].
  - cbn [FileName Line Arg2Val CmdType Index ALKind Arg1 SegType Arg2
           hasNumericField hasChar].
    pose proof (parseAL_text _ _ Hal) as Hl.
    assert (Hsp : hasChar " " l = false).
    { rewrite Hl. destruct al; reflexivity. }
    repeat split; auto; try discriminate; try (unfold Go.minInt, Go.maxInt; lia).
    all: try congruence.
    intros [|]; discriminate.
  - cbn [FileName Line Arg2Val CmdType Index ALKind Arg1 SegType Arg2].
    pose proof (parseCommandType_not_arithmetic _ _ Hct) as Hna.
    pose proof (parseArg1_Ok _ _ _ _ H1) as P1.
    pose proof (parseArg2_Ok _ _ _ _ H2) as P2.
    assert (Hv : Go.minInt <= v <= Go.maxInt).
    { destruct (hasNumericField ct).
      - destruct P2 as [_ [[_ ->] | Ha]];
          [unfold Go.minInt, Go.maxInt; lia | now apply Atoi_range in Ha].
      - destruct P2 as [_ ->]. unfold Go.minInt, Go.maxInt. lia. }
    assert (Ha2 : hasChar " " arg2 = false).
    { destruct (hasNumericField ct).
      - destruct P2 as [Hn _]. now apply nth_error_Split_no_space in Hn.
      - now destruct P2 as [-> _]. }
    assert (Ha1 : hasChar " " arg1 = false).
    { destruct ct; try contradiction.
      - destruct P1 as [-> _]. destruct st; reflexivity.
      - destruct P1 as [-> _]. destruct st; reflexivity.
      - destruct P1 as [_ Hn]. now apply nth_error_Split_no_space in Hn.
      - destruct P1 as [_ Hn]. now apply nth_error_Split_no_space in Hn.
      - destruct P1 as [_ Hn]. now apply nth_error_Split_no_space in Hn.
      - destruct P1 as [_ Hn]. now apply nth_error_Split_no_space in Hn.
      - now destruct P1 as (_ & -> & _).
      - destruct P1 as [_ Hn]. now apply nth_error_Split_no_space in Hn. }
    split; [reflexivity|]. split; [reflexivity|]. split; [exact Hv|].
    split; [intros; contradiction|]. split; [auto|].
    split.
    { intros [-> | ->]; now destruct P1. }
    split.
    { intros Hp Hq. destruct ct; try contradiction; try congruence;
        now destruct P1. }
    split; [|split; assumption].
    destruct (hasNumericField ct); [now destruct P2 | exact P2].
Qed.

(** X5: what an accepted line leaves in the record.  The module name
    and the line are kept; the numeric field is an [int]; an arithmetic
    command is the line itself, spelt in lower case, and carries the
    index; every other command has index 0; push and pop carry the
    segment and its lower-case name; the numeric field is the value of
    its token, or 0 for an empty token; and no field taken from a token
    holds a space. *)
Theorem parsed_instruction k f l i :
  parseInstruction k f l = Ok i ->
  FileName i = f /\ Line i = l
  /\ Go.minInt <= Arg2Val i <= Go.maxInt
  /\ (CmdType i = CommandTypeArithmetic ->
      Index i = k /\ l = ALType_String (ALKind i) /\ Arg1 i = l)
  /\ (CmdType i <> CommandTypeArithmetic ->
      Index i = 0 /\ ALKind i = ALTypeAdd)
  /\ (CmdType i = CommandTypePush \/ CmdType i = CommandTypePop ->
      Arg1 i = SegmentType_String (SegType i))
  /\ (CmdType i <> CommandTypePush -> CmdType i <> CommandTypePop ->
      SegType i = SegmentTypeConstant)
  /\ (if hasNumericField (CmdType i)
      then Arg2 i = "" /\ Arg2Val i = 0 \/ Go.Atoi (Arg2 i) = Some (Arg2Val i)
      else Arg2 i = "" /\ Arg2Val i = 0)
  /\ hasChar " " (Arg1 i) = false /\ hasChar " " (Arg2 i) = false.
Proof. exact (parseInstruction_fields k f l i). Qed.

Lemma parsed_instruction_witness :
  exists i,
    parseInstruction 5 "Main" "pop LOCAL +3" = Ok i
    /\ Line i = "pop LOCAL +3" /\ Index i = 0
    /\ Arg1 i = SegmentType_String (SegType i).
Proof.
  eexists. split; [vm_compute; reflexivity|].
  destruct (parsed_instruction 5 "Main" "pop LOCAL +3" _ eq_refl)
    as (_ & Hl & _ & _ & Hna & Hseg & _).
  split; [exact Hl|]. split; [apply Hna; discriminate|].
  apply Hseg. now right.
Defined.

Lemma toLowerChar_space a :
  Ascii.eqb (Go.toLowerChar a) " " = Ascii.eqb a " ".
Proof. destruct a as [[|] [|] [|] [|] [|] [|] [|] [|]]; reflexivity. Qed.

Lemma code_not_space a n :
  (Go.code a =? n)%N = true -> n <> 32%N -> Ascii.eqb a " " = false.
Proof.
  intros H Hn. apply N.eqb_eq in H.
  destruct (Ascii.eqb_spec a " ") as [-> | Hne]; [|reflexivity].
  now elim Hn.
Qed.

Lemma ToLower_eq s :
  Go.ToLower s
  = match s with
    | EmptyString => EmptyString
    | String a r1 =>
        match r1 with
        | EmptyString => String (Go.toLowerChar a) EmptyString
        | String b r2 =>
            if ((Go.code a =? 196) && (Go.code b =? 176))%N
            then String "i" (Go.ToLower r2)
            else
              match r2 with
              | EmptyString => String (Go.toLowerChar a) (Go.ToLower r1)
              | String c r3 =>
                  if ((Go.code a =? 226) && (Go.code b =? 132)
                      && (Go.code c =? 170))%N
                  then String "k" (Go.ToLower r3)
                  else String (Go.toLowerChar a) (Go.ToLower r1)
              end
        end
    end.
Proof. destruct s as [|a [|b [|c r3]]]; reflexivity. Qed.

(** Lowering moves no space: the two runes lowered to a letter hold
    none. *)
Lemma hasChar_ToLower s : hasChar " " (Go.ToLower s) = hasChar " " s.
Proof.
  induction s as [s IH] using string_length_ind.
  destruct s as [|a [|b [|c r3]]]; rewrite ToLower_eq.
  - reflexivity.
  - cbn [hasChar]. now rewrite toLowerChar_space.
  - destruct ((Go.code a =? 196) && (Go.code b =? 176))%N eqn:E.
    + apply andb_true_iff in E as [Ea Eb].
      cbn [hasChar Go.ToLower].
      rewrite (code_not_space a 196 Ea), (code_not_space b 176 Eb)
        by discriminate.
      reflexivity.
    + cbn [hasChar]. rewrite toLowerChar_space.
      rewrite (IH (String b "")) by (cbn; lia). reflexivity.
  - destruct ((Go.code a =? 196) && (Go.code b =? 176))%N eqn:E.
    + apply andb_true_iff in E as [Ea Eb].
      cbn [hasChar]. rewrite (IH (String c r3)) by (cbn; lia).
      rewrite (code_not_space a 196 Ea), (code_not_space b 176 Eb)
        by discriminate.
      reflexivity.
    + destruct ((Go.code a =? 226) && (Go.code b =? 132)
                && (Go.code c =? 170))%N eqn:E3.
      * apply andb_true_iff in E3 as [E3 Ec].
        apply andb_true_iff in E3 as [Ea Eb].
        cbn [hasChar]. rewrite (IH r3) by (cbn; lia).
        rewrite (code_not_space a 226 Ea), (code_not_space b 132 Eb),
          (code_not_space c 170 Ec) by discriminate.
        reflexivity.
      * cbn [hasChar]. rewrite toLowerChar_space.
        rewrite (IH (String b (String c r3))) by (cbn; lia). reflexivity.
Qed.

(** X6: the nine arithmetic and logical commands are matched exactly: a
    one-token line that spells one of them with any upper-case letter
    is rejected as an unknown command type. *)
Theorem arithmetic_exact_case k f l al :
  Go.ToLower l = ALType_String al ->
  l <> ALType_String al ->
  parseInstruction k f l = Err ("invalid command type: " ++ l).
Proof.
  intros Hlow Hne.
  assert (Hsp : hasChar " " l = false).
  { rewrite <- hasChar_ToLower, Hlow. destruct al; reflexivity. }
  unfold parseInstruction. rewrite (Split_piece " " l Hsp).
  cbn [List.length Z.of_nat Pos.of_succ_nat Z.eqb Z.ltb Z.compare Pos.compare
         Pos.compare_cont orb nth].
  destruct (parseAL l) as [al'|] eqn:Eal.
  - exfalso. apply parseAL_text in Eal. subst l.
    destruct al, al'; try discriminate Hlow; now apply Hne.
  - rewrite Hlow. destruct al; reflexivity.
Qed.

Lemma arithmetic_exact_case_witness :
  parseInstruction 0 "Main" "Add" = Err "invalid command type: Add".
Proof.
  apply (arithmetic_exact_case 0 "Main" "Add" ALTypeAdd eq_refl).
  discriminate.
Defined.

(** X7: the command word and the segment of a push or a pop are matched
    without regard to case: two lines of three tokens that differ only
    in the case of these two words give the same command, the echoed
    line apart. *)
Theorem push_pop_any_case k f l l' c c' a a' tok i :
  Go.Split l " " = [c; a; tok] ->
  Go.Split l' " " = [c'; a'; tok] ->
  Go.ToLower c = Go.ToLower c' ->
  Go.ToLower a = Go.ToLower a' ->
  Go.ToLower c = "push" \/ Go.ToLower c = "pop" ->
  parseInstruction k f l = Ok i ->
  parseInstruction k f l'
  = Ok (mkInstruction f l' (CmdType i) (Arg1 i) (SegType i) (Arg2 i)
          (Arg2Val i) (ALKind i) (Index i)).
Proof.
  intros Hs Hs' Hc Ha Hkind.
  rewrite (parseInstruction_three _ _ _ _ _ _ Hs),
    (parseInstruction_three _ _ _ _ _ _ Hs'), <- Hc.
  assert (Harg1 : forall ct,
             ct = CommandTypePush \/ ct = CommandTypePop ->
             forall st arg1,
               parseArg1 ct [c; a; tok] = Ok (st, arg1) ->
               parseArg1 ct [c'; a'; tok] = Ok (st, arg1)).
  { intros ct [-> | ->] st arg1; unfold parseArg1; cbn [nth_error];
      rewrite <- Ha; destruct (parseSegment (Go.ToLower a));
      congruence. }
  assert (Harg2 : forall ct, parseArg2 ct [c'; a'; tok] = parseArg2 ct [c; a; tok])
    by reflexivity.
  destruct Hkind as [E | E]; rewrite E;
    cbn [parseCommandType String.eqb Ascii.eqb Bool.eqb].
  - destruct (parseArg1 CommandTypePush [c; a; tok]) as [[st arg1]| |] eqn:E1;
      try discriminate.
    rewrite (Harg1 _ (or_introl eq_refl) _ _ E1), Harg2.
    destruct (parseArg2 CommandTypePush [c; a; tok]) as [[arg2 v]| |];
      try discriminate.
    now intros [= <-].
  - destruct (parseArg1 CommandTypePop [c; a; tok]) as [[st arg1]| |] eqn:E1;
      try discriminate.
    rewrite (Harg1 _ (or_intror eq_refl) _ _ E1), Harg2.
    destruct (parseArg2 CommandTypePop [c; a; tok]) as [[arg2 v]| |];
      try discriminate.
    now intros [= <-].
Qed.

Lemma push_pop_any_case_witness :
  parseInstruction 2 "Main"
    ("PUSH Po" ++ String "196" (String "176" "nter 1"))
  = Ok (mkInstruction "Main"
          ("PUSH Po" ++ String "196" (String "176" "nter 1"))
          CommandTypePush "pointer" SegmentTypePointer "1" 1 ALTypeAdd 0).
Proof.
  apply (push_pop_any_case 2 "Main" "push pointer 1"
           ("PUSH Po" ++ String "196" (String "176" "nter 1"))
           "push" "PUSH" "pointer"
           ("Po" ++ String "196" (String "176" "nter")) "1"
           (mkInstruction "Main" "push pointer 1" CommandTypePush "pointer"
              SegmentTypePointer "1" 1 ALTypeAdd 0)
           eq_refl eq_refl eq_refl eq_refl (or_introl eq_refl) eq_refl).
Defined.

(** X8: a third token after a label, goto or if-goto command is dropped
    without an error; the command and its code are those of the line
    without it. *)
Theorem extra_token_dropped k f l c L extra ct g :
  Go.Split l " " = [c; L; extra] ->
  parseCommandType (Go.ToLower c) = Some ct ->
  ct = CommandTypeLabel \/ ct = CommandTypeGOTO \/ ct = CommandTypeIf ->
  parseInstruction k f l
  = Ok (mkInstruction f l ct L SegmentTypeConstant "" 0 ALTypeAdd 0)
  /\ genBody g (mkInstruction f l ct L SegmentTypeConstant "" 0 ALTypeAdd 0)
     = (match ct with
        | CommandTypeLabel => ["(" ++ L ++ ")"]
        | CommandTypeGOTO => ["@" ++ L; "0;JMP"]
        | _ => ["@SP"; "AM=M-1"; "D=M"; "@" ++ L; "D;JNE"]
        end, g).
Proof.
  intros Hs Hct Hkind.
  rewrite (parseInstruction_three _ _ _ _ _ _ Hs), Hct.
  destruct Hkind as [-> | [-> | ->]]; split; reflexivity.
Qed.

Lemma extra_token_dropped_witness :
  parseInstruction 0 "Main" "goto END now"
  = Ok (mkInstruction "Main" "goto END now" CommandTypeGOTO "END"
          SegmentTypeConstant "" 0 ALTypeAdd 0).
Proof.
  apply (proj1 (extra_token_dropped 0 "Main" "goto END now" "goto" "END" "now"
                  CommandTypeGOTO initialGenState eq_refl eq_refl
                  (or_intror (or_introl eq_refl)))).
Defined.

(** [Instruction.String] and the parser. *)
Lemma Split_three a b c :
  hasChar " " a = false -> hasChar " " b = false -> hasChar " " c = false ->
  Go.Split (a ++ " " ++ b ++ " " ++ c) " " = [a; b; c].
Proof.
  intros Ha Hb Hc.
  change (a ++ " " ++ b ++ " " ++ c) with (a ++ String " " (b ++ String " " c)).
  rewrite (Split_field " ") by assumption.
  rewrite (Split_field " ") by assumption.
  now rewrite (Split_piece " ") by assumption.
Qed.

Lemma parseInstruction_tokens k f l c a tok ct st arg1 arg2 v :
  Go.Split l " " = [c; a; tok] ->
  parseCommandType (Go.ToLower c) = Some ct ->
  parseArg1 ct [c; a; tok] = Ok (st, arg1) ->
  parseArg2 ct [c; a; tok] = Ok (arg2, v) ->
  parseInstruction k f l = Ok (mkInstruction f l ct arg1 st arg2 v ALTypeAdd 0).
Proof.
  intros Hs Hct H1 H2.
  now rewrite (parseInstruction_three _ _ _ _ _ _ Hs), Hct, H1, H2.
Qed.

(** X9: the text [Instruction.String] gives for an accepted command is
    itself accepted and gives the same command kind, segment, first
    argument, numeric value and operator, for every kind but return:
    the text of a return command ends in two spaces and is rejected. *)
Theorem String_reparses k f l i k' f' :
  parseInstruction k f l = Ok i ->
  (CmdType i <> CommandTypeReturn ->
   exists j,
     parseInstruction k' f' (Instruction_String i) = Ok j
     /\ CmdType j = CmdType i /\ SegType j = SegType i /\ Arg1 j = Arg1 i
     /\ Arg2Val j = Arg2Val i /\ ALKind j = ALKind i)
  /\ (CmdType i = CommandTypeReturn ->
      Instruction_String i = "return  "
      /\ parseInstruction k' f' (Instruction_String i)
         = Err "invalid arg1 return, no argument expected").
Proof.
  intros Hp.
  pose proof (parseInstruction_fields _ _ _ _ Hp)
    as (_ & _ & Hv & Har & Hna & Hseg & Hcst & Hnum & Hs1 & Hs2).
  apply parseInstruction_Ok in Hp.
  destruct Hp as [(al & _ & Hal & ->)
                 | (ct & st & arg1 & arg2 & v & Hct & H1 & H2 & ->)].
  - cbn [CmdType] in *. split; [|discriminate]. intros _.
    unfold Instruction_String. cbn [CmdType Arg1].
    apply parseAL_text in Hal. subst l.
    destruct al; (eexists; split; [vm_compute; reflexivity | repeat split]).
  - cbn [CmdType SegType Arg1 Arg2 Arg2Val ALKind] in *.
    pose proof (parseCommandType_not_arithmetic _ _ Hct) as Hnar.
    assert (Hitoa : hasChar " " (Go.itoa v) = false)
      by (apply hasChar_itoa; [reflexivity | discriminate]).
    assert (Hpp : forall w ct',
               parseCommandType w = Some ct' ->
               ct' = CommandTypePush \/ ct' = CommandTypePop ->
               exists j,
                 parseInstruction k' f'
                   (w ++ " " ++ SegmentType_String st ++ " " ++ Go.itoa v) = Ok j
                 /\ CmdType j = ct' /\ SegType j = st
                 /\ Arg1 j = SegmentType_String st
                 /\ Arg2Val j = v /\ ALKind j = ALTypeAdd).
    { intros w ct' Hw Hk. eexists. split.
      - apply (parseInstruction_tokens k' f' _ w (SegmentType_String st)
                 (Go.itoa v) ct' st (SegmentType_String st) (Go.itoa v) v).
        + apply Split_three; [|destruct st; reflexivity | assumption].
          apply parseCommandType_text in Hw. subst w.
          destruct Hk as [-> | ->]; reflexivity.
        + apply parseCommandType_text in Hw. subst w.
          destruct Hk as [-> | ->]; reflexivity.
        + destruct Hk as [-> | ->]; destruct st; reflexivity.
        + rewrite (parseArg2_numeric _ _ _ _ _ (Atoi_itoa v Hv)).
          destruct Hk as [-> | ->]; reflexivity.
      - repeat split. }
    assert (Hother : forall w ct' t,
               parseCommandType w = Some ct' ->
               ct' <> CommandTypePush -> ct' <> CommandTypePop ->
               ct' <> CommandTypeReturn -> ct' <> CommandTypeArithmetic ->
               hasChar " " t = false ->
               parseArg2 ct' [w; arg1; t] = Ok (t, v) ->
               exists j,
                 parseInstruction k' f' (w ++ " " ++ arg1 ++ " " ++ t) = Ok j
                 /\ CmdType j = ct' /\ SegType j = SegmentTypeConstant
                 /\ Arg1 j = arg1 /\ Arg2Val j = v /\ ALKind j = ALTypeAdd).
    { intros w ct' t Hw N1 N2 N3 N4 Ht Hp2. eexists. split.
      - apply (parseInstruction_tokens k' f' _ w arg1 t ct'
                 SegmentTypeConstant arg1 t v); try assumption.
        + apply Split_three; [|assumption | assumption].
          apply parseCommandType_text in Hw. subst w. destruct ct'; reflexivity.
        + apply parseCommandType_text in Hw. subst w.
          destruct ct'; try reflexivity; contradiction.
        + destruct ct'; try reflexivity; contradiction.
      - repeat split. }
    destruct (Hna Hnar) as [_ _].
    destruct ct; try contradiction; unfold Instruction_String;
      cbn [CmdType SegType Arg1 Arg2 Arg2Val CommandType_String hasNumericField] in *.
    + split; [|discriminate]. intros _.
      rewrite (Hseg (or_introl eq_refl)).
      exact (Hpp "push" CommandTypePush eq_refl (or_introl eq_refl)).
    + split; [|discriminate]. intros _.
      rewrite (Hseg (or_intror eq_refl)).
      exact (Hpp "pop" CommandTypePop eq_refl (or_intror eq_refl)).
    + split; [|discriminate]. intros _. destruct Hnum as [-> ->].
      rewrite (Hcst ltac:(discriminate) ltac:(discriminate)).
      apply (Hother "label" CommandTypeLabel "" eq_refl);
        try discriminate; reflexivity.
    + split; [|discriminate]. intros _. destruct Hnum as [-> ->].
      rewrite (Hcst ltac:(discriminate) ltac:(discriminate)).
      apply (Hother "goto" CommandTypeGOTO "" eq_refl);
        try discriminate; reflexivity.
    + split; [|discriminate]. intros _. destruct Hnum as [-> ->].
      rewrite (Hcst ltac:(discriminate) ltac:(discriminate)).
      apply (Hother "if-goto" CommandTypeIf "" eq_refl);
        try discriminate; reflexivity.
    + split; [|discriminate]. intros _.
      rewrite (Hcst ltac:(discriminate) ltac:(discriminate)).
      apply (Hother "function" CommandTypeFunction arg2 eq_refl);
        try discriminate; try assumption.
      destruct Hnum as [[-> ->] | Ha]; [reflexivity|].
      now rewrite (parseArg2_numeric _ _ _ _ _ Ha).
    + split; [intros H; now elim H|]. intros _.
      destruct Hnum as [-> ->].
      apply parseArg1_Ok in H1. destruct H1 as (_ & -> & _).
      split; reflexivity.
    + split; [|discriminate]. intros _.
      rewrite (Hcst ltac:(discriminate) ltac:(discriminate)).
      apply (Hother "call" CommandTypeCall arg2 eq_refl);
        try discriminate; try assumption.
      destruct Hnum as [[-> ->] | Ha]; [reflexivity|].
      now rewrite (parseArg2_numeric _ _ _ _ _ Ha).
Qed.

Lemma String_reparses_witness :
  exists j,
    parseInstruction 0 "Other"
      (Instruction_String
         (mkInstruction "Main" "pop LOCAL +3" CommandTypePop "local"
            SegmentTypeLocal "+3" 3 ALTypeAdd 0)) = Ok j
    /\ Arg2Val j = 3.
Proof.
  destruct (proj1 (String_reparses 5 "Main" "pop LOCAL +3" _ 0 "Other" eq_refl)
              ltac:(discriminate)) as (j & Hj & _ & _ & _ & Hv & _).
  exists j. split; [exact Hj | exact Hv].
Defined.

(* ================================================================== *)
(** ** Memory access: the values moved *)
(* ================================================================== *)

Lemma wrap_nonneg z :
  -32768 <= z <= 65535 -> 0 <= Hack.wrap z -> 0 <= z <= 32767.
Proof.
  unfold Hack.wrap. intros Hz H.
  destruct (Z_lt_le_dec z 32768) as [Hlt | Hge].
  - rewrite Z.mod_small in H by lia. lia.
  - replace (z + 32768) with ((z - 32768) + 1 * 65536) in H by lia.
    rewrite Z.mod_add in H by lia. rewrite Z.mod_small in H by lia. lia.
Qed.

Lemma sampleStackState_words : wordState sampleStackState.
Proof.
  intros a. unfold sampleStackState, sampleStackRam, word. cbn [Hack.ram].
  repeat match goal with
         | |- context [if ?b then _ else _] => destruct b
         end; lia.
Defined.

(** A memory of words stays one when words are stored in it. *)
Ltac words_kept Hw :=
  let x := fresh "x" in
  intros x; unfold word, Hack.upd; cbn [Hack.ram];
  repeat match goal with
         | |- context [if ?b then _ else _] => destruct b
         end;
  first [lia | apply Hw | apply wrap_range].

Ltac offsets_in_range :=
  repeat match goal with
         | H : 0 <= Hack.wrap ?z |- _ =>
             apply wrap_nonneg in H; [|lia]
         | H : 0 < Hack.wrap ?z |- _ =>
             let H' := fresh in
             assert (H' : 0 <= Hack.wrap z) by lia;
             apply wrap_nonneg in H'; [|lia];
             rewrite (wrap_small z) in H by lia
         end.

Lemma genPush_effect sym g i s :
  CmdType i = CommandTypePush -> pushReady sym i s ->
  exists s',
    Hack.exec sym (fst (GenAsm g i)) s = Hack.Fall s'
    /\ wordState s'
    /\ pushes (pushedValue sym i s) s s'.
Proof.
  intros Hc (Hw & Hsp & Hseg).
  unfold GenAsm, genBody, pushedValue, segmentCell. rewrite Hc.
  destruct s as [a d m]. words_of Hw. tidy.
  destruct (SegType i) eqn:Hs; cbn [fst baseRegister] in *; open_hyps;
    offsets_in_range;
    unfold staticName in *;
    unfold genConstantPUSH, genSegmentPUSH, genStaticPUSH, genTempPUSH,
      genPointerPUSH, SegmentType_ID;
    try (destruct (Arg2Val i =? 0); cbn [app]);
    try match goal with
        | H : Hack.resolve _ _ = Some _ |- _ => rewrite H
        end;
    hrun; (eexists; split; [reflexivity|]);
    (split; [words_kept Hw | stage; rewrite wrap_small by apply Hw; reflexivity]).
Qed.

Lemma genPop_effect sym g i s :
  CmdType i = CommandTypePop -> popReady sym i s ->
  1 < Hack.SP s ->
  (usesScratch (SegType i) = true -> Hack.SP s <> 14) ->
  exists s',
    Hack.exec sym (fst (GenAsm g i)) s = Hack.Fall s'
    /\ wordState s'
    /\ Hack.SP s' = Hack.SP s - 1
    /\ match segmentCell sym i s with
       | None => forall a, a <> 0 -> Hack.ram s' a = Hack.ram s a
       | Some cell =>
           Hack.ram s' cell = Hack.ram s (Hack.SP s - 1)
           /\ forall a, a <> 0 -> a <> cell ->
                        (usesScratch (SegType i) = true -> a <> 13) ->
                        Hack.ram s' a = Hack.ram s a
       end.
Proof.
  intros Hc (Hw & Hsp & Hseg) Hsp1 Hscr.
  unfold GenAsm, genBody, segmentCell. rewrite Hc.
  destruct s as [a d m]. words_of Hw. tidy.
  pose proof (Hw (m 0 - 1)) as Htop. cbn [Hack.ram] in Htop.
  destruct (SegType i) eqn:Hs; cbn [fst baseRegister usesScratch] in *;
    open_hyps; offsets_in_range;
    try (specialize (Hscr eq_refl));
    unfold staticName in *;
    unfold genConstantPOP, genSegmentPOP, genStaticPOP, genTempPOP,
      genPointerPOP, SegmentType_ID;
    try (destruct (Arg2Val i =? 0); cbn [app]);
    try match goal with
        | H : Hack.resolve _ _ = Some _ |- _ => rewrite H
        end;
    hrun; (eexists; split; [reflexivity|]);
    (split; [words_kept Hw | ]);
    unfold word in Htop; tidy; (split; [lia|]); try split; intros;
    repeat match goal with
           | H : true = true -> _ |- _ => specialize (H eq_refl)
           end;
    tidy; try reflexivity; try lia.
Qed.

(** X10: a push command run on a machine in [pushReady] puts on the
    stack the constant, or the word held by the cell its segment and
    offset denote, moves the stack pointer up by one, changes no other
    cell and leaves a memory of words. *)
Theorem push_value sym g i s :
  CmdType i = CommandTypePush -> pushReady sym i s ->
  exists s',
    Hack.exec sym (fst (GenAsm g i)) s = Hack.Fall s'
    /\ wordState s'
    /\ pushes (pushedValue sym i s) s s'.
Proof. exact (genPush_effect sym g i s). Qed.

Lemma push_value_witness :
  exists s',
    Hack.exec sampleSym (fst (GenAsm initialGenState samplePushLocal))
      sampleState = Hack.Fall s'
    /\ wordState s'
    /\ pushes (Hack.ram sampleState 302) sampleState s'.
Proof.
  apply (push_value sampleSym initialGenState samplePushLocal sampleState).
  - reflexivity.
  - split; [exact sampleState_words|]. vm_compute.
    repeat split; discriminate.
Defined.

(** X11: a pop command run on a machine in [popReady] whose stack holds
    a word above cell 0 stores the top of the stack in the cell its
    segment and offset denote and moves the stack pointer down by one;
    besides these two cells it changes only [R13], and that only for
    the segments addressed through it, for which the top of the stack
    must not be [R13] itself.  A pop to the constant segment stores
    nothing. *)
Theorem pop_value sym g i s :
  CmdType i = CommandTypePop -> popReady sym i s ->
  1 < Hack.SP s ->
  (usesScratch (SegType i) = true -> Hack.SP s <> 14) ->
  exists s',
    Hack.exec sym (fst (GenAsm g i)) s = Hack.Fall s'
    /\ wordState s'
    /\ Hack.SP s' = Hack.SP s - 1
    /\ match segmentCell sym i s with
       | None => forall a, a <> 0 -> Hack.ram s' a = Hack.ram s a
       | Some cell =>
           Hack.ram s' cell = Hack.ram s (Hack.SP s - 1)
           /\ forall a, a <> 0 -> a <> cell ->
                        (usesScratch (SegType i) = true -> a <> 13) ->
                        Hack.ram s' a = Hack.ram s a
       end.
Proof. exact (genPop_effect sym g i s). Qed.

Lemma pop_value_witness :
  exists s',
    Hack.exec sampleSym (fst (GenAsm initialGenState samplePop))
      sampleStackState = Hack.Fall s'
    /\ Hack.SP s' = 257
    /\ Hack.ram s' 302 = -1.
Proof.
  destruct (pop_value sampleSym initialGenState samplePop sampleStackState)
    as (s' & E & _ & Hsp & Hcell & _).
  - reflexivity.
  - split; [exact sampleStackState_words|]. vm_compute.
    repeat split; discriminate.
  - reflexivity.
  - discriminate.
  - exists s'. split; [exact E|]. split; [exact Hsp | exact Hcell].
Defined.

(** X12: a push followed by a pop moves a word: on a machine whose
    stack lies above the registers, the destination cell of the pop
    ends with the value the push read, the stack pointer is back where
    it was, and besides the destination only [R13] and the cell the
    value went through can have changed. *)
Theorem push_then_pop sym g p q s dest :
  CmdType p = CommandTypePush -> CmdType q = CommandTypePop ->
  pushReady sym p s -> popReady sym q s ->
  15 < Hack.SP s ->
  segmentCell sym q s = Some dest ->
  exists s',
    Hack.exec sym (fst (GenAsm g p) ++ fst (GenAsm g q))%list s = Hack.Fall s'
    /\ wordState s'
    /\ Hack.SP s' = Hack.SP s
    /\ Hack.ram s' dest = pushedValue sym p s
    /\ forall a, a <> dest -> a <> 13 -> a <> Hack.SP s ->
                 Hack.ram s' a = Hack.ram s a.
Proof.
  intros Hp Hq Hrp Hrq Hsp Hdest.
  destruct (genPush_effect sym g p s Hp Hrp) as (s1 & E1 & W1 & Sp1 & V1 & O1).
  unfold Hack.SP in *.
  assert (Hbase : forall st, Hack.ram s1 (baseRegister st) = Hack.ram s (baseRegister st)
                             \/ baseRegister st = 0).
  { intros st. destruct st; cbn [baseRegister]; auto; left; apply O1; lia. }
  assert (Hcell : segmentCell sym q s1 = segmentCell sym q s).
  { unfold segmentCell.
    destruct (SegType q); try reflexivity;
      match goal with
      | |- context [baseRegister ?st] =>
          destruct (Hbase st) as [-> | H0]; [reflexivity | discriminate H0]
      end. }
  assert (Hdest0 : dest <> 0).
  { pose proof Hrq as (Hw & _ & Hseg). unfold segmentCell in Hdest.
    pose proof (Hw 1); pose proof (Hw 2); pose proof (Hw 3); pose proof (Hw 4).
    unfold word in *.
    destruct (SegType q); cbn [baseRegister] in *; try discriminate Hdest;
      open_hyps; offsets_in_range;
      try (injection Hdest as <-;
           first [lia | destruct (Arg2Val q =? 0); lia]).
    match goal with
    | H : Hack.resolve _ _ = Some _ |- _ => rewrite H in Hdest
    end.
    injection Hdest as <-. lia. }
  assert (Hrq1 : popReady sym q s1).
  { destruct Hrq as (_ & Hsp0 & Hseg). split; [exact W1|].
    unfold Hack.SP. split; [lia|].
    destruct (SegType q) eqn:Hs; try exact Hseg;
      match goal with
      | |- context [baseRegister ?st] =>
          destruct (Hbase st) as [-> | H0]; [exact Hseg | discriminate H0]
      end. }
  destruct (genPop_effect sym g q s1 Hq Hrq1) as (s2 & E2 & W2 & Sp2 & H2).
  { unfold Hack.SP. lia. }
  { unfold Hack.SP. lia. }
  rewrite Hcell, Hdest in H2. destruct H2 as (V2 & O2).
  unfold Hack.SP in *.
  exists s2. rewrite exec_app, E1, E2.
  split; [reflexivity|]. split; [exact W2|]. split; [lia|].
  split.
  - rewrite V2, Sp1. replace (Hack.ram s 0 + 1 - 1) with (Hack.ram s 0) by lia.
    exact V1.
  - intros a Ha H13 Hs.
    destruct (Z.eq_dec a 0) as [-> | Ha0]; [lia|].
    rewrite O2 by (auto; intros _; exact H13). now apply O1.
Qed.

Lemma push_then_pop_witness :
  exists s',
    Hack.exec sampleSym
      (fst (GenAsm initialGenState samplePush)
       ++ fst (GenAsm initialGenState samplePop))%list sampleState
    = Hack.Fall s'
    /\ Hack.SP s' = 256
    /\ Hack.ram s' 302 = 7.
Proof.
  destruct (push_then_pop sampleSym initialGenState samplePush samplePop
              sampleState 302)
    as (s' & E & _ & Hsp & Hv & _).
  - reflexivity.
  - reflexivity.
  - split; [exact sampleState_words|]. vm_compute.
    repeat split; discriminate.
  - split; [exact sampleState_words|]. vm_compute.
    repeat split; discriminate.
  - reflexivity.
  - reflexivity.
  - exists s'. split; [exact E|]. split; [exact Hsp | exact Hv].
Defined.

(* ================================================================== *)
(** ** Arithmetic and logic: the values computed *)
(* ================================================================== *)

Lemma genBinary_effect sym g i s :
  CmdType i = CommandTypeArithmetic -> isBinary (ALKind i) = true ->
  wordState s -> 2 < Hack.SP s ->
  exists s',
    Hack.exec sym (fst (GenAsm g i)) s = Hack.Fall s'
    /\ wordState s'
    /\ Hack.SP s' = Hack.SP s - 1
    /\ Hack.ram s' (Hack.SP s - 2)
       = binaryValue (ALKind i) (Hack.ram s (Hack.SP s - 2))
           (Hack.ram s (Hack.SP s - 1))
    /\ forall a, a <> 0 -> a <> Hack.SP s - 2 -> Hack.ram s' a = Hack.ram s a.
Proof.
  intros Hc Hb Hw Hsp.
  unfold GenAsm, genBody. rewrite Hc. unfold genArithmetic.
  destruct s as [a d m]. words_of Hw. tidy.
  pose proof (Hw (m 0 - 1)) as Hy. pose proof (Hw (m 0 - 2)) as Hx.
  cbn [Hack.ram] in Hx, Hy. unfold word in Hx, Hy.
  destruct (ALKind i); try discriminate Hb; cbn [fst binaryValue];
    hrun; (eexists; split; [reflexivity|]);
    (split; [words_kept Hw|]);
    tidy; (split; [lia|]);
    (split; [|intros; tidy; reflexivity]);
    replace (m 0 - 1 - 1) with (m 0 - 2) by lia;
    rewrite ?(Z.land_comm (m (m 0 - 1))), ?(Z.lor_comm (m (m 0 - 1))),
      ?(Z.add_comm (m (m 0 - 1)));
    reflexivity.
Qed.

(** X13: a binary command replaces the two words on top of the stack
    by one: their sum, their difference (the word pushed first minus
    the word pushed last), their bitwise and, or their bitwise or, as
    16-bit words; the stack pointer goes down by one and no other cell
    changes. *)
Theorem binary_value sym g i s :
  CmdType i = CommandTypeArithmetic -> isBinary (ALKind i) = true ->
  wordState s -> 2 < Hack.SP s ->
  exists s',
    Hack.exec sym (fst (GenAsm g i)) s = Hack.Fall s'
    /\ wordState s'
    /\ Hack.SP s' = Hack.SP s - 1
    /\ Hack.ram s' (Hack.SP s - 2)
       = binaryValue (ALKind i) (Hack.ram s (Hack.SP s - 2))
           (Hack.ram s (Hack.SP s - 1))
    /\ forall a, a <> 0 -> a <> Hack.SP s - 2 -> Hack.ram s' a = Hack.ram s a.
Proof. exact (genBinary_effect sym g i s). Qed.

Lemma binary_value_witness :
  exists s',
    Hack.exec sampleSym
      (fst (GenAsm initialGenState (sampleArithmetic ALTypeSub 0)))
      sampleStackState = Hack.Fall s'
    /\ Hack.SP s' = 257
    /\ Hack.ram s' 256 = -32768.
Proof.
  destruct (binary_value sampleSym initialGenState
              (sampleArithmetic ALTypeSub 0) sampleStackState)
    as (s' & E & _ & Hsp & Hv & _).
  - reflexivity.
  - reflexivity.
  - exact sampleStackState_words.
  - reflexivity.
  - exists s'. split; [exact E|]. split; [exact Hsp | exact Hv].
Defined.

(** X14: a unary command replaces the word on top of the stack by its
    negation or its bitwise complement, as a 16-bit word; the stack
    pointer and every other cell stay as they were. *)
Theorem unary_value sym g i s :
  CmdType i = CommandTypeArithmetic -> isUnary (ALKind i) = true ->
  wordState s -> 1 < Hack.SP s ->
  exists s',
    Hack.exec sym (fst (GenAsm g i)) s = Hack.Fall s'
    /\ wordState s'
    /\ Hack.ram s' (Hack.SP s - 1)
       = unaryValue (ALKind i) (Hack.ram s (Hack.SP s - 1))
    /\ forall a, a <> Hack.SP s - 1 -> Hack.ram s' a = Hack.ram s a.
Proof.
  intros Hc Hb Hw Hsp.
  unfold GenAsm, genBody. rewrite Hc. unfold genArithmetic.
  destruct s as [a d m]. words_of Hw. tidy.
  pose proof (Hw (m 0 - 1)) as Hy. cbn [Hack.ram] in Hy. unfold word in Hy.
  destruct (ALKind i); try discriminate Hb; cbn [fst unaryValue];
    hrun; (eexists; split; [reflexivity|]);
    (split; [words_kept Hw|]);
    tidy; (split; [|intros; tidy; reflexivity]);
    reflexivity.
Qed.

Lemma unary_value_witness :
  exists s',
    Hack.exec sampleSym
      (fst (GenAsm initialGenState (sampleArithmetic ALTypeNeg 0)))
      sampleStackState = Hack.Fall s'
    /\ Hack.ram s' 257 = 1.
Proof.
  destruct (unary_value sampleSym initialGenState
              (sampleArithmetic ALTypeNeg 0) sampleStackState)
    as (s' & E & _ & Hv & _).
  - reflexivity.
  - reflexivity.
  - exact sampleStackState_words.
  - reflexivity.
  - exists s'. split; [exact E | exact Hv].
Defined.

(* ================================================================== *)
(** ** Comparisons: the values computed *)
(* ================================================================== *)

Lemma execForward_cons sym l rest s :
  execForward sym (l :: rest) None s =
  match Hack.step sym (Hack.parseLine l) s with
  | Hack.Next s' => execForward sym rest None s'
  | Hack.Goto t s' => execForward sym rest (Some t) s'
  | Hack.StepRejected => Hack.Rejected
  | Hack.StepBadAddress => Hack.BadAddress
  end.
Proof. reflexivity. Qed.

Lemma execForward_skip sym l rest t s :
  execForward sym (l :: rest) (Some t) s =
  match Hack.parseLine l with
  | Hack.LabelDecl n =>
      match Hack.resolve sym n with
      | Some a =>
          if a =? t then execForward sym rest None s
          else execForward sym rest (Some t) s
      | None => Hack.Rejected
      end
  | Hack.Invalid => Hack.Rejected
  | _ => execForward sym rest (Some t) s
  end.
Proof. reflexivity. Qed.

Lemma labelName_app n : Hack.labelName (n ++ ")") = Some n.
Proof.
  induction n as [|c n IH]; [reflexivity|].
  change (String c n ++ ")") with (String c (n ++ ")")).
  cbn [Hack.labelName]. rewrite IH.
  destruct (n ++ ")") eqn:E.
  - destruct n; discriminate E.
  - destruct c as [[|] [|] [|] [|] [|] [|] [|] [|]]; reflexivity.
Qed.

Lemma parseLine_label n : Hack.parseLine ("(" ++ n ++ ")") = Hack.LabelDecl n.
Proof.
  change ("(" ++ n ++ ")") with (String "(" (n ++ ")")).
  cbn [Hack.parseLine]. now rewrite labelName_app.
Qed.

Lemma digitsValue_letter c r :
  Go.isDigit c = false -> Go.digitsValue (String c r) = None.
Proof.
  intros H. unfold Go.digitsValue. cbn [NilEmpty.uint_of_string].
  destruct (NilEmpty.uint_of_string r); [|reflexivity].
  destruct c as [[|] [|] [|] [|] [|] [|] [|] [|]];
    try discriminate H; reflexivity.
Qed.

Lemma allChars_digits_symbol s :
  Hack.allChars Go.isDigit s = true -> Hack.allChars Hack.isSymbolChar s = true.
Proof.
  induction s as [|c s IH]; [reflexivity|]. cbn [Hack.allChars].
  intros H. apply andb_true_iff in H as [Hc Hs].
  rewrite (IH Hs), andb_true_r.
  unfold Hack.isSymbolChar. now rewrite Hc, orb_true_r.
Qed.

(** A name made of a symbol, a dot and a counter is a symbol; it names
    what the assembler assigns it unless it is predefined. *)
Lemma indexed_symbol sym p k :
  Hack.validSymbol p = true -> 0 <= k ->
  Hack.lookup (p ++ "." ++ Go.itoa k) Hack.predefined = None ->
  Hack.validSymbol (p ++ "." ++ Go.itoa k) = true
  /\ Hack.resolve sym (p ++ "." ++ Go.itoa k)
     = Some (sym (p ++ "." ++ Go.itoa k)).
Proof.
  intros Hp Hk Hl.
  assert (Hv : Hack.validSymbol (p ++ "." ++ Go.itoa k) = true).
  { destruct p as [|c r]; [discriminate Hp|].
    unfold Hack.validSymbol in *.
    apply andb_true_iff in Hp as [Hc Hr].
    change ((String c r ++ "." ++ Go.itoa k))
      with (String c (r ++ "." ++ Go.itoa k)).
    cbv beta iota. rewrite Hc. cbn [andb].
    change (String c (r ++ "." ++ Go.itoa k))
      with (String c r ++ String "." (Go.itoa k)).
    rewrite allChars_app, Hr. cbn [andb Hack.allChars].
    rewrite (allChars_digits_symbol _ (itoa_digits k Hk)). reflexivity. }
  split; [exact Hv|].
  unfold Hack.resolve. rewrite Hv, Hl.
  destruct p as [|c r]; [discriminate Hp|].
  change ((String c r ++ "." ++ Go.itoa k))
    with (String c (r ++ "." ++ Go.itoa k)).
  rewrite digitsValue_letter; [reflexivity|].
  unfold Hack.validSymbol in Hp. apply andb_true_iff in Hp as [Hc _].
  now destruct (Go.isDigit c).
Qed.

Lemma getLogicalARegister_text i p :
  getLogicalARegister i p = "@" ++ Go.ToUpper p ++ "." ++ Go.itoa (Index i).
Proof.
  unfold getLogicalARegister, Go.ToUpper.
  change ("@" ++ p ++ "." ++ Go.itoa (Index i))
    with (String "@" (p ++ String "." (Go.itoa (Index i)))).
  cbn [Go.mapString]. rewrite mapString_app. cbn [Go.mapString].
  fold Go.ToUpper. rewrite ToUpper_itoa. reflexivity.
Qed.

Lemma getLogicalLabel_name i p :
  getLogicalLabel i p = "(" ++ (Go.ToUpper p ++ "." ++ Go.itoa (Index i)) ++ ")".
Proof.
  rewrite getLogicalLabel_text.
  change ("(" ++ (Go.ToUpper p ++ "." ++ Go.itoa (Index i)) ++ ")")
    with (String "(" ((Go.ToUpper p ++ String "." (Go.itoa (Index i))) ++ ")")).
  rewrite append_assoc. reflexivity.
Qed.

Lemma comparisonLabel_symbol sym i suffix :
  isComparison (ALKind i) = true -> 0 <= Index i ->
  suffix = "_true" \/ suffix = "_false" ->
  Hack.validSymbol (comparisonLabel i suffix) = true
  /\ Hack.resolve sym (comparisonLabel i suffix)
     = Some (sym (comparisonLabel i suffix)).
Proof.
  intros Hcmp Hk Hs. unfold comparisonLabel.
  apply indexed_symbol; [|exact Hk|];
    destruct (ALKind i); try discriminate Hcmp;
    destruct Hs as [-> | ->]; reflexivity.
Qed.

Ltac fstep :=
  rewrite execForward_cons; parse_line;
  first [ resolve_operand; tidy; cbn iota beta
        | progress c_instr ].

Ltac fskip :=
  rewrite execForward_skip;
  first [ rewrite parseLine_label
        | parse_line ];
  cbn iota beta.

Lemma genComparison_effect sym g i s :
  CmdType i = CommandTypeArithmetic -> isComparison (ALKind i) = true ->
  0 <= Index i ->
  sym (comparisonLabel i "_true") <> sym (comparisonLabel i "_false") ->
  wordState s -> 2 < Hack.SP s ->
  exists s',
    execForward sym (fst (GenAsm g i)) None s = Hack.Fall s'
    /\ wordState s'
    /\ Hack.SP s' = Hack.SP s - 1
    /\ Hack.ram s' (Hack.SP s - 2)
       = (if comparisonHolds (ALKind i)
               (Hack.wrap (Hack.ram s (Hack.SP s - 2)
                           - Hack.ram s (Hack.SP s - 1)))
          then -1 else 0)
    /\ forall a, a <> 0 -> a <> Hack.SP s - 2 -> Hack.ram s' a = Hack.ram s a.
Proof.
  intros Hc Hcmp Hk Hsym Hw Hsp.
  destruct (comparisonLabel_symbol sym i "_true" Hcmp Hk (or_introl eq_refl))
    as [VT RT].
  destruct (comparisonLabel_symbol sym i "_false" Hcmp Hk (or_intror eq_refl))
    as [VF RF].
  unfold GenAsm, genBody. rewrite Hc. unfold genArithmetic.
  rewrite !getLogicalARegister_text, !getLogicalLabel_name.
  fold (comparisonLabel i "_true") (comparisonLabel i "_false").
  set (T := comparisonLabel i "_true") in *.
  set (F := comparisonLabel i "_false") in *.
  destruct s as [a d m]. words_of Hw. tidy.
  pose proof (Hw (m 0 - 1)) as Hy. pose proof (Hw (m 0 - 2)) as Hx.
  cbn [Hack.ram] in Hx, Hy. unfold word in Hx, Hy.
  replace (m 0 - 2) with (m 0 - 1 - 1) in * by lia.
  destruct (ALKind i); try discriminate Hcmp;
    cbn [fst app comparisonHolds]; do 7 fstep;
    rewrite execForward_cons; parse_line; c_instr;
    match goal with
    | |- context [if ?b then Hack.Goto _ _ else _] => destruct b
    end; cbn iota beta.
  all: try (do 5 fskip; fskip; rewrite RT, Z.eqb_refl;
            do 3 fstep;
            rewrite execForward_cons, parseLine_label; cbn [Hack.step];
            rewrite VF; cbn [execForward]).
  all: try (do 5 fstep; fskip; rewrite RT;
            rewrite (proj2 (Z.eqb_neq _ _) Hsym);
            do 3 fskip; fskip; rewrite RF, Z.eqb_refl; cbn [execForward]).
  all: (eexists; split; [reflexivity|]);
    (split; [words_kept Hw|]);
    tidy; (split; [lia|]);
    (split; [reflexivity | intros; tidy; reflexivity]).
Qed.


Lemma wrap_high z : 32767 < z <= 65535 -> Hack.wrap z = z - 65536.
Proof.
  intros H. unfold Hack.wrap.
  replace (z + 32768) with ((z - 32768) + 1 * 65536) by lia.
  rewrite Z.mod_add by lia. rewrite Z.mod_small by lia. lia.
Qed.

Lemma wrap_low z : -65536 <= z < -32768 -> Hack.wrap z = z + 65536.
Proof.
  intros H. unfold Hack.wrap.
  replace (z + 32768) with ((z + 32768 + 65536) + (-1) * 65536) by lia.
  rewrite Z.mod_add by lia. rewrite Z.mod_small by lia. lia.
Qed.

Ltac decide_tests :=
  repeat match goal with
         | |- context [?a =? ?b] => destruct (Z.eqb_spec a b)
         | |- context [?a <? ?b] => destruct (Z.ltb_spec a b)
         end; try reflexivity; try lia.

Lemma comparisonHolds_exact al x y :
  word x -> word y ->
  al = ALTypeEq \/ -32768 <= x - y <= 32767 ->
  comparisonHolds al (Hack.wrap (x - y)) = compares al x y.
Proof.
  unfold word. intros Hx Hy [-> | Hr].
  - cbn [comparisonHolds compares].
    destruct (Z_lt_le_dec (x - y) (-32768)) as [Hlo | Hlo].
    + rewrite wrap_low by lia. decide_tests.
    + destruct (Z_lt_le_dec 32767 (x - y)) as [Hhi | Hhi].
      * rewrite wrap_high by lia. decide_tests.
      * rewrite wrap_small by lia. decide_tests.
  - rewrite wrap_small by lia.
    destruct al; cbn [comparisonHolds compares]; decide_tests.
Qed.

Lemma comparisonHolds_overflow al x y :
  word x -> word y ->
  al = ALTypeGt \/ al = ALTypeLt ->
  x - y < -32768 \/ 32767 < x - y ->
  comparisonHolds al (Hack.wrap (x - y)) = negb (compares al x y).
Proof.
  unfold word. intros Hx Hy Hal [Hr | Hr].
  - rewrite wrap_low by lia.
    destruct Hal as [-> | ->]; cbn [comparisonHolds compares]; decide_tests.
  - rewrite wrap_high by lia.
    destruct Hal as [-> | ->]; cbn [comparisonHolds compares]; decide_tests.
Qed.

(** X15: a comparison command replaces the two words on top of the
    stack by -1 when the relation holds between the word pushed first
    and the word pushed last, and by 0 when it does not; the stack
    pointer goes down by one and no other cell changes.  This holds for
    eq on all words, and for gt and lt when the difference of the two
    words is itself a 16-bit word.  The block is run with its two
    jumps followed to the labels it declares, which the assembler must
    have given different addresses. *)
Theorem comparison_value sym g i s :
  CmdType i = CommandTypeArithmetic -> isComparison (ALKind i) = true ->
  0 <= Index i ->
  sym (comparisonLabel i "_true") <> sym (comparisonLabel i "_false") ->
  wordState s -> 2 < Hack.SP s ->
  ALKind i = ALTypeEq
  \/ -32768 <= Hack.ram s (Hack.SP s - 2) - Hack.ram s (Hack.SP s - 1) <= 32767 ->
  exists s',
    execForward sym (fst (GenAsm g i)) None s = Hack.Fall s'
    /\ wordState s'
    /\ Hack.SP s' = Hack.SP s - 1
    /\ Hack.ram s' (Hack.SP s - 2)
       = (if compares (ALKind i) (Hack.ram s (Hack.SP s - 2))
               (Hack.ram s (Hack.SP s - 1))
          then -1 else 0)
    /\ forall a, a <> 0 -> a <> Hack.SP s - 2 -> Hack.ram s' a = Hack.ram s a.
Proof.
  intros Hc Hcmp Hk Hsym Hw Hsp Hr.
  destruct (genComparison_effect sym g i s Hc Hcmp Hk Hsym Hw Hsp)
    as (s' & E & W & Sp & V & O).
  exists s'. repeat (split; [assumption|]). split; [|exact O].
  rewrite V, comparisonHolds_exact; auto.
Qed.

Lemma comparison_value_witness :
  exists s',
    execForward sampleLabelSym
      (fst (GenAsm initialGenState (sampleArithmetic ALTypeEq 3))) None
      sampleState = Hack.Fall s'
    /\ Hack.SP s' = 255
    /\ Hack.ram s' 254 = -1.
Proof.
  destruct (comparison_value sampleLabelSym initialGenState
              (sampleArithmetic ALTypeEq 3) sampleState)
    as (s' & E & _ & Hsp & Hv & _).
  - reflexivity.
  - reflexivity.
  - discriminate.
  - vm_compute. discriminate.
  - exact sampleState_words.
  - reflexivity.
  - left. reflexivity.
  - exists s'. split; [exact E|]. split; [exact Hsp | exact Hv].
Defined.

(** X16: gt and lt compare through the 16-bit difference of their
    operands: when the two words differ by more than a 16-bit word
    holds, the command leaves the wrong answer, 0 where the relation
    holds and -1 where it does not. *)
Theorem comparison_overflow sym g i s :
  CmdType i = CommandTypeArithmetic ->
  ALKind i = ALTypeGt \/ ALKind i = ALTypeLt ->
  0 <= Index i ->
  sym (comparisonLabel i "_true") <> sym (comparisonLabel i "_false") ->
  wordState s -> 2 < Hack.SP s ->
  Hack.ram s (Hack.SP s - 2) - Hack.ram s (Hack.SP s - 1) < -32768
  \/ 32767 < Hack.ram s (Hack.SP s - 2) - Hack.ram s (Hack.SP s - 1) ->
  exists s',
    execForward sym (fst (GenAsm g i)) None s = Hack.Fall s'
    /\ Hack.SP s' = Hack.SP s - 1
    /\ Hack.ram s' (Hack.SP s - 2)
       = (if compares (ALKind i) (Hack.ram s (Hack.SP s - 2))
               (Hack.ram s (Hack.SP s - 1))
          then 0 else -1).
Proof.
  intros Hc Hal Hk Hsym Hw Hsp Hr.
  assert (Hcmp : isComparison (ALKind i) = true)
    by (destruct Hal as [-> | ->]; reflexivity).
  destruct (genComparison_effect sym g i s Hc Hcmp Hk Hsym Hw Hsp)
    as (s' & E & W & Sp & V & O).
  exists s'. split; [exact E|]. split; [exact Sp|].
  rewrite V, comparisonHolds_overflow; auto.
  now destruct (compares _ _ _).
Qed.

Lemma comparison_overflow_witness :
  compares ALTypeGt 32767 (-1) = true
  /\ exists s',
       execForward sampleLabelSym
         (fst (GenAsm initialGenState (sampleArithmetic ALTypeGt 0))) None
         sampleStackState = Hack.Fall s'
       /\ Hack.ram s' 256 = 0.
Proof.
  split; [reflexivity|].
  destruct (comparison_overflow sampleLabelSym initialGenState
              (sampleArithmetic ALTypeGt 0) sampleStackState)
    as (s' & E & _ & Hv).
  - reflexivity.
  - left. reflexivity.
  - discriminate.
  - vm_compute. discriminate.
  - exact sampleStackState_words.
  - reflexivity.
  - right. reflexivity.
  - exists s'. split; [exact E | exact Hv].
Defined.

(* ================================================================== *)
(** ** Branching and function entry *)
(* ================================================================== *)

(** X17: goto jumps to the address of its label and touches no memory.
    if-goto pops the top of the stack and jumps to the address of its
    label when the word popped is anything but 0; on 0 it goes on with
    the next command.  Either way the stack pointer is one lower and no
    other cell changes. *)
Theorem branch_commands sym g i s t :
  Hack.resolve sym (Arg1 i) = Some t ->
  (CmdType i = CommandTypeGOTO ->
   exists s',
     Hack.exec sym (fst (GenAsm g i)) s = Hack.Jumped t s' []
     /\ sameMemory s s')
  /\ (CmdType i = CommandTypeIf -> wordState s -> 1 < Hack.SP s ->
      exists s',
        Hack.exec sym (fst (GenAsm g i)) s
        = (if Hack.ram s (Hack.SP s - 1) =? 0
           then Hack.Fall s' else Hack.Jumped t s' [])
        /\ Hack.SP s' = Hack.SP s - 1
        /\ forall a, a <> 0 -> Hack.ram s' a = Hack.ram s a).
Proof.
  intros Ht. split.
  - intros Hc. unfold GenAsm, genBody. rewrite Hc. cbn [fst].
    destruct s as [a d m]. hrun.
    eexists. split; [reflexivity|]. intros x. reflexivity.
  - intros Hc Hw Hsp. unfold GenAsm, genBody. rewrite Hc. cbn [fst].
    destruct s as [a d m]. words_of Hw. tidy.
    pose proof (Hw (m 0 - 1)) as Hy. cbn [Hack.ram] in Hy. unfold word in Hy.
    do 5 hstep. rewrite exec_cons. parse_line. c_instr.
    eexists. split.
    + destruct (m (m 0 - 1) =? 0); cbn [negb Hack.exec]; reflexivity.
    + tidy. split; [lia|]. intros; tidy; reflexivity.
Qed.

Lemma branch_commands_witness :
  exists s',
    Hack.exec sampleSym (fst (GenAsm initialGenState sampleIfGoto))
      sampleStackState = Hack.Jumped 16 s' []
    /\ Hack.SP s' = 257.
Proof.
  destruct (proj2 (branch_commands sampleSym initialGenState sampleIfGoto
                     sampleStackState 16 eq_refl) eq_refl
              sampleStackState_words eq_refl)
    as (s' & E & Hsp & _).
  exists s'. split; [exact E | exact Hsp].
Defined.

Lemma push0_effect sym s :
  wordState s -> 0 < Hack.SP s < 32767 ->
  exists s',
    Hack.exec sym (genConstantPUSH 0) s = Hack.Fall s'
    /\ wordState s' /\ pushes 0 s s'.
Proof.
  intros Hw Hsp. unfold genConstantPUSH.
  destruct s as [a d m]. words_of Hw. tidy.
  hrun. eexists. split; [reflexivity|].
  split; [words_kept Hw | stage].
Qed.

Lemma push0_repeat sym n :
  forall s,
    wordState s -> 0 < Hack.SP s -> Hack.SP s + Z.of_nat n <= 32767 ->
    exists s',
      Hack.exec sym (List.concat (repeat (genConstantPUSH 0) n)) s
      = Hack.Fall s'
      /\ wordState s'
      /\ Hack.SP s' = Hack.SP s + Z.of_nat n
      /\ (forall a, Hack.SP s <= a < Hack.SP s + Z.of_nat n ->
                    Hack.ram s' a = 0)
      /\ (forall a, a <> 0 -> a < Hack.SP s \/ Hack.SP s + Z.of_nat n <= a ->
                    Hack.ram s' a = Hack.ram s a).
Proof.
  induction n as [|n IH]; intros s Hw Hsp Hn.
  - exists s. cbn [repeat List.concat Hack.exec].
    split; [reflexivity|]. split; [exact Hw|]. split; [lia|].
    split; [intros a Ha; lia | reflexivity].
  - destruct (push0_effect sym s Hw ltac:(lia)) as (s1 & E1 & W1 & Sp1 & V1 & O1).
    destruct (IH s1 W1 ltac:(lia) ltac:(lia)) as (s2 & E2 & W2 & Sp2 & Z2 & O2).
    exists s2. cbn [repeat List.concat]. rewrite exec_app, E1, E2.
    split; [reflexivity|]. split; [exact W2|]. split; [lia|].
    unfold Hack.SP in *. split.
    + intros a Ha. destruct (Z.eq_dec a (Hack.ram s 0)) as [-> | Hne].
      * rewrite O2 by lia. exact V1.
      * apply Z2. lia.
    + intros a Ha0 Ha. rewrite O2 by lia. apply O1; lia.
Qed.

(** X18: a function command declares the label named by its first
    argument and pushes one 0 for each local: the stack pointer goes up
    by the number of locals, the cells it passes hold 0, and no other
    cell changes; a count of zero or less pushes nothing.  The generator
    takes the name as the current function and keeps its return
    counter. *)
Theorem function_entry sym g i s :
  CmdType i = CommandTypeFunction ->
  Hack.validSymbol (Arg1 i) = true ->
  wordState s -> 0 < Hack.SP s ->
  Hack.SP s + Z.max 0 (Arg2Val i) <= 32767 ->
  snd (GenAsm g i) = mkGenState (Arg1 i) (retIndex g)
  /\ exists s',
       Hack.exec sym (fst (GenAsm g i)) s = Hack.Fall s'
       /\ wordState s'
       /\ Hack.SP s' = Hack.SP s + Z.max 0 (Arg2Val i)
       /\ (forall a, Hack.SP s <= a < Hack.SP s + Arg2Val i ->
                     Hack.ram s' a = 0)
       /\ (forall a, a <> 0 ->
                     a < Hack.SP s \/ Hack.SP s + Z.max 0 (Arg2Val i) <= a ->
                     Hack.ram s' a = Hack.ram s a).
Proof.
  intros Hc Hv Hw Hsp Hn.
  unfold GenAsm, genBody. rewrite Hc. unfold genFunction. cbn [fst snd].
  split; [reflexivity|].
  rewrite exec_cons. parse_line. cbn [Hack.step].
  rewrite exec_cons, parseLine_label. cbn [Hack.step]. rewrite Hv.
  destruct (push0_repeat sym (Z.to_nat (Arg2Val i)) s Hw Hsp ltac:(lia))
    as (s' & E & W & Sp & Hz & Ho).
  exists s'. split; [exact E|]. split; [exact W|]. split; [lia|].
  split.
  - intros a Ha. apply Hz. lia.
  - intros a Ha0 Ha. apply Ho; lia.
Qed.

Lemma function_entry_witness :
  exists s',
    Hack.exec sampleSym (fst (GenAsm initialGenState sampleFunction))
      sampleState = Hack.Fall s'
    /\ Hack.SP s' = 258
    /\ Hack.ram s' 256 = 0 /\ Hack.ram s' 257 = 0.
Proof.
  destruct (function_entry sampleSym initialGenState sampleFunction sampleState)
    as (_ & s' & E & _ & Hsp & Hz & _).
  - reflexivity.
  - vm_compute. reflexivity.
  - exact sampleState_words.
  - reflexivity.
  - vm_compute. discriminate.
  - exists s'. split; [exact E|]. split; [exact Hsp|].
    split; apply Hz; vm_compute; (split; [discriminate | reflexivity]).
Defined.

(* ================================================================== *)
(** ** The translation loop *)
(* ================================================================== *)

Lemma retIndex_GenAsm g i :
  retIndex (snd (GenAsm g i))
  = match CmdType i with
    | CommandTypeCall => Go.wrapInt (retIndex g + 1)
    | _ => retIndex g
    end.
Proof. unfold GenAsm, genBody. destruct (CmdType i); reflexivity. Qed.

(** The counters of the return labels of a run lie between the counter
    the run starts with and the number of its commands above it. *)
Lemma callLabels_counter instrs :
  forall g l,
    Go.minInt <= retIndex g ->
    retIndex g + Z.of_nat (List.length instrs) <= Go.maxInt ->
    In l (callLabels g instrs) ->
    exists k,
      retIndex g <= k < retIndex g + Z.of_nat (List.length instrs)
      /\ afterLast "." l = Go.itoa k.
Proof.
  induction instrs as [|i rest IH]; intros g l Hlo Hhi Hin; [destruct Hin|].
  cbn [callLabels List.length] in *. apply in_app_or in Hin.
  destruct Hin as [Hin | Hin].
  - destruct (CmdType i); try destruct Hin as [<- | []]; try destruct Hin.
    exists (retIndex g). split; [lia | apply retAddrLabel_counter].
  - assert (Hnext : retIndex g <= retIndex (snd (GenAsm g i)) <= retIndex g + 1).
    { rewrite retIndex_GenAsm. destruct (CmdType i); try lia.
      rewrite wrapInt_small by lia. lia. }
    destruct (IH (snd (GenAsm g i)) l ltac:(lia) ltac:(lia) Hin) as (k & Hk & E).
    exists k. split; [lia | exact E].
Qed.

(** X19: the return labels the call commands of a program get are
    pairwise different, whatever functions the calls sit in, as long as
    the counter stays within Go's [int]; each one is declared by the
    code of its call. *)
Theorem return_labels_distinct g instrs :
  Go.minInt <= retIndex g ->
  retIndex g + Z.of_nat (List.length instrs) <= Go.maxInt ->
  NoDup (callLabels g instrs)
  /\ forall l, In l (callLabels g instrs) ->
               In ("(" ++ l ++ ")") (fst (GenAsmAll g instrs)).
Proof.
  revert g. induction instrs as [|i rest IH]; intros g Hlo Hhi.
  - split; [constructor | intros l []].
  - cbn [callLabels GenAsmAll List.length] in *.
    assert (Hnext : retIndex (snd (GenAsm g i))
                    = match CmdType i with
                      | CommandTypeCall => retIndex g + 1
                      | _ => retIndex g
                      end).
    { rewrite retIndex_GenAsm. destruct (CmdType i); try reflexivity.
      apply wrapInt_small. lia. }
    destruct (IH (snd (GenAsm g i))) as [Hnd Hdecl].
    { rewrite Hnext. destruct (CmdType i); lia. }
    { rewrite Hnext. destruct (CmdType i); lia. }
    destruct (GenAsm g i) as [asm g'] eqn:Eg. cbn [snd] in *.
    destruct (GenAsmAll g' rest) as [more g''] eqn:Em. cbn [fst] in *.
    split.
    + destruct (CmdType i) eqn:Hc; cbn [app]; try exact Hnd.
      constructor; [|exact Hnd].
      intros Hin.
      destruct (callLabels_counter rest g' _ ltac:(lia) ltac:(lia) Hin)
        as (k & Hk & E).
      rewrite retAddrLabel_counter in E. apply itoa_inj in E. lia.
    + intros l Hin. apply in_or_app. apply in_app_or in Hin.
      destruct Hin as [Hin | Hin]; [left | right; now apply Hdecl].
      destruct (CmdType i) eqn:Hc; try destruct Hin as [<- | []];
        try destruct Hin.
      assert (Ea : asm = fst (GenAsm g i)) by now rewrite Eg.
      rewrite Ea. unfold GenAsm, genBody. rewrite Hc.
      unfold genCall. cbn [fst]. right.
      repeat (apply in_or_app; right). now left.
Qed.

Lemma return_labels_distinct_witness :
  NoDup (callLabels initialGenState [sampleCall; sampleFunction; sampleCall]).
Proof.
  apply (return_labels_distinct initialGenState
           [sampleCall; sampleFunction; sampleCall]).
  - vm_compute. discriminate.
  - vm_compute. discriminate.
Defined.

(** The parser's answer does not depend on the index it is given, which
    only an arithmetic command records. *)
Lemma parseInstruction_index k k' f l :
  parseInstruction k' f l
  = match parseInstruction k f l with
    | Ok i =>
        Ok (mkInstruction (FileName i) (Line i) (CmdType i) (Arg1 i)
              (SegType i) (Arg2 i) (Arg2Val i) (ALKind i)
              (match CmdType i with
               | CommandTypeArithmetic => k'
               | _ => 0
               end))
    | Err e => Err e
    | Panic => Panic
    end.
Proof.
  unfold parseInstruction.
  destruct ((Z.of_nat (List.length (Go.Split l " ")) =? 0)
            || (3 <? Z.of_nat (List.length (Go.Split l " ")))); [reflexivity|].
  destruct (if Z.of_nat (List.length (Go.Split l " ")) =? 1
            then parseAL (nth 0 (Go.Split l " ") "") else None);
    [reflexivity|].
  destruct (parseCommandType (Go.ToLower (nth 0 (Go.Split l " ") "")))
    as [ct|] eqn:Hct; [|reflexivity].
  pose proof (parseCommandType_not_arithmetic _ _ Hct) as Hna.
  destruct (parseArg1 ct (Go.Split l " ")) as [[st arg1]| |]; try reflexivity.
  destruct (parseArg2 ct (Go.Split l " ")) as [[arg2 v]| |]; try reflexivity.
  cbn [FileName Line CmdType Arg1 SegType Arg2 Arg2Val ALKind].
  destruct ct; try reflexivity. now elim Hna.
Qed.

(** X20: the loop stops at the first line the parser rejects: when the
    lines before it translate, the run ends with that line's error
    (or panic), whatever lines follow it; and the error is the same
    whatever the position of the line. *)
Theorem first_error_wins g k pre bad rest out :
  translateLines g k pre = Ok out ->
  (forall e,
     parseInstruction 0 (fst (decodeLineFileName bad))
       (snd (decodeLineFileName bad)) = Err e ->
     translateLines g k (pre ++ bad :: rest) = Err e)
  /\ (parseInstruction 0 (fst (decodeLineFileName bad))
        (snd (decodeLineFileName bad)) = Panic ->
      translateLines g k (pre ++ bad :: rest) = Panic).
Proof.
  revert g k out. induction pre as [|r pre IH]; intros g k out Hpre.
  - cbn [app translateLines].
    destruct (decodeLineFileName bad) as [f l]. cbn [fst snd].
    rewrite (parseInstruction_index 0 k f l).
    split; [intros e H | intros H]; rewrite H; reflexivity.
  - cbn [translateLines] in Hpre. rewrite <- app_comm_cons.
    cbn [translateLines].
    destruct (decodeLineFileName r) as [f l].
    destruct (parseInstruction k f l) as [i| |]; try discriminate Hpre.
    destruct (GenAsm g i) as [asm g'].
    destruct (translateLines g' (k + 1) pre) as [more| |] eqn:E;
      try discriminate Hpre.
    destruct (IH g' (k + 1) more E) as [He Hp].
    split; [intros e H; rewrite (He e H) | intros H; rewrite (Hp H)];
      reflexivity.
Qed.

Lemma first_error_wins_witness :
  translateLines initialGenState 0
    (["Main#push constant 1"] ++ "Main#jump END" :: ["Main#push"])
  = Err "invalid command type: jump".
Proof.
  apply (proj1 (first_error_wins initialGenState 0 ["Main#push constant 1"]
                  "Main#jump END" ["Main#push"]
                  (fst (GenAsm initialGenState samplePushOne))
                  ltac:(vm_compute; reflexivity))).
  vm_compute. reflexivity.
Defined.

(* ================================================================== *)
(** ** The comparison against a reference file *)
(* ================================================================== *)

Lemma compareFrom_no_length cmpLines :
  forall i res, compareFrom i cmpLines res <> CompareLength.
Proof.
  induction cmpLines as [|line rest IH]; intros i res; cbn [compareFrom];
    [discriminate|].
  destruct (nth_error res i); [|discriminate].
  destruct (String.eqb line s); [apply IH | discriminate].
Qed.

(** The loop of the comparison from position [length pre] on, the
    reference lines left being no more than the result lines left. *)
Lemma compareFrom_spec cmpLines :
  forall pre res,
    (List.length cmpLines <= List.length res)%nat ->
    compareFrom (List.length pre) cmpLines (pre ++ res)%list <> ComparePanic
    /\ (compareFrom (List.length pre) cmpLines (pre ++ res)%list = CompareOk
        <-> cmpLines = firstn (List.length cmpLines) res)
    /\ forall n e g,
         compareFrom (List.length pre) cmpLines (pre ++ res)%list
         = CompareLine n e g ->
         exists k,
           n = Z.of_nat (List.length pre + k) + 1
           /\ nth_error cmpLines k = Some e
           /\ nth_error res k = Some g
           /\ e <> g
           /\ firstn k cmpLines = firstn k res.
Proof.
  induction cmpLines as [|line rest IH]; intros pre res Hlen.
  - cbn [compareFrom List.length firstn].
    split; [discriminate|]. split; [tauto | discriminate].
  - destruct res as [|r res]; [cbn [List.length] in Hlen; lia|].
    cbn [compareFrom List.length firstn] in *.
    rewrite nth_error_middle.
    destruct (String.eqb line r) eqn:E.
    + apply String.eqb_eq in E. subst r.
      specialize (IH (pre ++ [line])%list res ltac:(lia)).
      rewrite <- app_assoc, length_app in IH.
      cbn [app List.length] in IH.
      replace (List.length pre + 1)%nat with (S (List.length pre)) in IH by lia.
      destruct IH as (Hp & Hok & Hl).
      split; [exact Hp|]. split.
      * rewrite Hok.
        split; [intros H; f_equal; exact H | intros [= H]; exact H].
      * intros n e g H. destruct (Hl n e g H) as (k & -> & Hc & Hr & Hne & Hf).
        exists (S k). cbn [nth_error firstn].
        split; [f_equal; lia|]. split; [exact Hc|]. split; [exact Hr|].
        split; [exact Hne | now rewrite Hf].
    + apply String.eqb_neq in E.
      split; [discriminate|]. split.
      * split; [discriminate | intros [= -> _]; now elim E].
      * intros n e g [= <- <- <-]. exists O. cbn [nth_error firstn].
        split; [f_equal; lia|]. repeat split. exact E.
Qed.

(** X21: the comparison succeeds exactly when the reference lines,
    trimmed, are the emitted lines; it reports a difference in length
    before any line; the line it reports is the first that differs,
    numbered from 1, with the trimmed reference line as expected text;
    and the read of the emitted lines inside its loop is never out of
    range. *)
Theorem compare_outcome cmpFileLines resultLines :
  compareWith cmpFileLines resultLines <> ComparePanic
  /\ (compareWith cmpFileLines resultLines = CompareOk
      <-> map Go.TrimSpace cmpFileLines = resultLines)
  /\ (compareWith cmpFileLines resultLines = CompareLength
      <-> List.length cmpFileLines <> List.length resultLines)
  /\ forall n e g,
       compareWith cmpFileLines resultLines = CompareLine n e g ->
       exists k,
         n = Z.of_nat k + 1
         /\ nth_error (map Go.TrimSpace cmpFileLines) k = Some e
         /\ nth_error resultLines k = Some g
         /\ e <> g
         /\ firstn k (map Go.TrimSpace cmpFileLines) = firstn k resultLines.
Proof.
  unfold compareWith. rewrite length_map.
  destruct (Nat.eqb_spec (List.length cmpFileLines) (List.length resultLines))
    as [Hlen | Hlen].
  - destruct (compareFrom_spec (map Go.TrimSpace cmpFileLines) [] resultLines)
      as (Hp & Hok & Hl).
    { rewrite length_map. lia. }
    cbn [app List.length] in *.
    split; [exact Hp|]. split; [|split].
    + rewrite Hok, length_map, Hlen, firstn_all. tauto.
    + split; [intros H | intros H; now elim H].
      now apply compareFrom_no_length in H.
    + intros n e g H. destruct (Hl n e g H) as (k & -> & R).
      exists k. split; [reflexivity | exact R].
  - split; [discriminate|]. split; [|split].
    + split; [discriminate|]. intros H. elim Hlen.
      now rewrite <- H, length_map.
    + tauto.
    + discriminate.
Qed.

(* ================================================================== *)
(** ** From lines of text to the machine *)
(* ================================================================== *)

Lemma decode_tagged name l :
  hasChar "#" name = false -> hasChar "#" l = false ->
  decodeLineFileName (name ++ "#" ++ l) = (name, Go.TrimSpace l).
Proof.
  intros Hn Hl. unfold decodeLineFileName.
  change ("#" ++ l) with (String "#" l).
  rewrite (Split_field "#") by assumption.
  rewrite (Split_piece "#") by assumption. reflexivity.
Qed.

Lemma allChars_revString p s acc :
  Hack.allChars p (Go.revString acc s)
  = Hack.allChars p s && Hack.allChars p acc.
Proof.
  revert acc. induction s as [|c s IH]; intros acc; cbn [Go.revString Hack.allChars];
    [reflexivity|].
  rewrite IH. cbn [Hack.allChars].
  destruct (p c), (Hack.allChars p s), (Hack.allChars p acc); reflexivity.
Qed.

(** A text whose last byte is a decimal digit does not end with white
    space: no encoding of a white-space rune ends with a byte below
    128 other than the six of ASCII. *)
Lemma endsWithSpace_digit a s :
  s <> "" -> Hack.allChars Go.isDigit s = true -> endsWithSpace (a ++ s) = false.
Proof.
  intros Hne Hd. unfold endsWithSpace. rewrite revString_append.
  destruct (Go.revString "" s) as [|d r] eqn:E.
  { elim Hne. rewrite <- (revString_involutive s), E. reflexivity. }
  assert (Hdig : Go.isDigit d = true).
  { pose proof (allChars_revString Go.isDigit s "") as H.
    rewrite E, Hd in H. cbn [Hack.allChars andb] in H.
    now apply andb_true_iff in H as [H _]. }
  change (String d r ++ Go.revString "" a)
    with (String d (r ++ Go.revString "" a)).
  unfold Go.isDigit in Hdig. apply andb_true_iff in Hdig as [Hlo Hhi].
  apply N.leb_le in Hlo, Hhi.
  assert (H1 : Go.isSpace d = false).
  { unfold Go.isSpace.
    destruct (N.leb_spec 9 (Go.code d)), (N.leb_spec (Go.code d) 13),
      (N.eqb_spec (Go.code d) 32); try reflexivity; lia. }
  assert (H2 : forall b, Go.isSpace2 b d = false).
  { intros b. unfold Go.isSpace2.
    destruct (N.eqb_spec (Go.code d) 133), (N.eqb_spec (Go.code d) 160);
      lia. }
  assert (H3 : forall c b, Go.isSpace3 c b d = false).
  { intros c b. unfold Go.isSpace3.
    destruct (N.eqb_spec (Go.code d) 128), (N.leb_spec 128 (Go.code d)),
      (N.eqb_spec (Go.code d) 168), (N.eqb_spec (Go.code d) 169),
      (N.eqb_spec (Go.code d) 175), (N.eqb_spec (Go.code d) 159); lia. }
  cbn [startsWithRune]. rewrite H1.
  destruct (r ++ Go.revString "" a) as [|b [|c t]]; cbn [orb];
    rewrite ?H2, ?H3; reflexivity.
Qed.

Lemma itoa_nonempty k : 0 <= k -> Go.itoa k <> "".
Proof.
  intros Hk E. pose proof (digitsValue_itoa k Hk) as H.
  rewrite E in H. discriminate H.
Qed.

(** The line of a push of a constant, as the loop of [main] reads it. *)
Lemma push_constant_line g k n rest :
  0 <= n <= 32767 ->
  translateLines g k (("Main#push constant " ++ Go.itoa n) :: rest)
  = match translateLines g (k + 1) rest with
    | Ok more =>
        Ok (fst (GenAsm g (mkInstruction "Main" ("push constant " ++ Go.itoa n)
                             CommandTypePush "constant" SegmentTypeConstant
                             (Go.itoa n) n ALTypeAdd 0)) ++ more)%list
    | other => other
    end.
Proof.
  intros Hn. cbn [translateLines].
  assert (Hh : hasChar "#" (Go.itoa n) = false)
    by (apply hasChar_itoa; [reflexivity | discriminate]).
  assert (Hs : hasChar " " (Go.itoa n) = false)
    by (apply hasChar_itoa; [reflexivity | discriminate]).
  change ("Main#push constant " ++ Go.itoa n)
    with ("Main" ++ "#" ++ ("push constant " ++ Go.itoa n)).
  rewrite decode_tagged;
    [|reflexivity | rewrite hasChar_app, Hh; reflexivity].
  rewrite TrimSpace_id;
    [|reflexivity
     |apply endsWithSpace_digit;
      [apply itoa_nonempty; lia | apply itoa_digits; lia]].
  rewrite (parseInstruction_tokens k "Main" _ "push" "constant" (Go.itoa n)
             CommandTypePush SegmentTypeConstant "constant" (Go.itoa n) n).
  - reflexivity.
  - change ("push constant " ++ Go.itoa n)
      with ("push" ++ " " ++ "constant" ++ " " ++ Go.itoa n).
    now apply Split_three.
  - reflexivity.
  - reflexivity.
  - rewrite (parseArg2_numeric _ _ _ _ n); [reflexivity|].
    apply Atoi_itoa. unfold Go.minInt, Go.maxInt. lia.
Qed.

(** X22: the three lines that push two constants and apply a binary
    command are translated, whatever their position in the program, to
    code that leaves the value of the command on the two constants on
    the stack, one cell above where the stack pointer was, and touches
    no cell but that one, the one above it and the stack pointer. *)
Theorem constants_combined sym g k al a b s :
  isBinary al = true ->
  0 <= a <= 32767 -> 0 <= b <= 32767 ->
  wordState s -> 0 < Hack.SP s < 32766 ->
  exists out s',
    translateLines g k
      ["Main#push constant " ++ Go.itoa a;
       "Main#push constant " ++ Go.itoa b;
       "Main#" ++ ALType_String al] = Ok out
    /\ Hack.exec sym out s = Hack.Fall s'
    /\ Hack.SP s' = Hack.SP s + 1
    /\ Hack.ram s' (Hack.SP s) = binaryValue al a b
    /\ forall c, c <> 0 -> c <> Hack.SP s -> c <> Hack.SP s + 1 ->
                 Hack.ram s' c = Hack.ram s c.
Proof.
  intros Hal Ha Hb Hw Hsp.
  rewrite (push_constant_line g k a _ Ha), (push_constant_line g (k + 1) b _ Hb).
  set (p1 := mkInstruction "Main" ("push constant " ++ Go.itoa a)
               CommandTypePush "constant" SegmentTypeConstant (Go.itoa a) a
               ALTypeAdd 0).
  set (p2 := mkInstruction "Main" ("push constant " ++ Go.itoa b)
               CommandTypePush "constant" SegmentTypeConstant (Go.itoa b) b
               ALTypeAdd 0).
  set (p3 := mkInstruction "Main" (ALType_String al) CommandTypeArithmetic
               (ALType_String al) SegmentTypeConstant "" 0 al (k + 1 + 1)).
  assert (E3 : translateLines g (k + 1 + 1) ["Main#" ++ ALType_String al]
               = Ok (fst (GenAsm g p3) ++ [])%list).
  { subst p3. destruct al; try discriminate Hal; reflexivity. }
  rewrite E3. cbv beta iota.
  destruct (genPush_effect sym g p1 s eq_refl) as (s1 & E1 & W1 & Sp1 & V1 & O1).
  { split; [exact Hw|]. split; [lia | exact Ha]. }
  destruct (genPush_effect sym g p2 s1 eq_refl) as (s2 & E2 & W2 & Sp2 & V2 & O2).
  { split; [exact W1|]. split; [lia | exact Hb]. }
  destruct (genBinary_effect sym g p3 s2 eq_refl Hal W2 ltac:(lia))
    as (s3 & E4 & W3 & Sp3 & V3 & O3).
  unfold pushedValue, segmentCell in V1, V2. cbn [SegType Arg2Val] in V1, V2.
  cbn [ALKind] in V3. unfold Hack.SP in *.
  eexists. exists s3. split; [reflexivity|].
  rewrite exec_app, E1. cbv beta iota.
  rewrite exec_app, E2. cbv beta iota.
  rewrite exec_app, E4. cbn [Hack.exec].
  split; [reflexivity|]. split; [lia|]. split.
  - replace (Hack.ram s 0) with (Hack.ram s2 0 - 2) by lia.
    rewrite V3. f_equal.
    + replace (Hack.ram s2 0 - 2) with (Hack.ram s 0) by lia.
      rewrite O2 by lia. exact V1.
    + replace (Hack.ram s2 0 - 1) with (Hack.ram s1 0) by lia. exact V2.
  - intros c Hc0 Hc1 Hc2.
    rewrite O3 by lia. rewrite O2 by lia. apply O1; lia.
Qed.

Lemma constants_combined_witness :
  exists out s',
    translateLines initialGenState 0
      ["Main#push constant " ++ Go.itoa 32767;
       "Main#push constant " ++ Go.itoa 1;
       "Main#" ++ ALType_String ALTypeAdd] = Ok out
    /\ Hack.exec sampleSym out sampleState = Hack.Fall s'
    /\ Hack.ram s' 256 = -32768.
Proof.
  destruct (constants_combined sampleSym initialGenState 0 ALTypeAdd 32767 1
              sampleState)
    as (out & s' & E & R & _ & Hv & _).
  - reflexivity.
  - vm_compute. split; discriminate.
  - vm_compute. split; discriminate.
  - exact sampleState_words.
  - vm_compute. split; reflexivity.
  - exists out, s'. split; [exact E|]. split; [exact R | exact Hv].
Defined.

(* ================================================================== *)
(** ** The order of the modules and runs without commands *)
(* ================================================================== *)

Lemma findSysInit_Some files :
  forall k,
    findSysInit files = Some k ->
    exists pre m post,
      files = (pre ++ m :: post)%list /\ List.length pre = k
      /\ (forall f, In f pre -> fileHasSysInit f = false)
      /\ fileHasSysInit m = true.
Proof.
  induction files as [|f files IH]; intros k H; [discriminate H|].
  cbn [findSysInit] in H. destruct (fileHasSysInit f) eqn:Ef.
  - injection H as <-. exists [], f, files.
    repeat split; auto. intros ? [].
  - destruct (findSysInit files) as [k'|]; [|discriminate H].
    injection H as <-.
    destruct (IH k' eq_refl) as (pre & m & post & -> & <- & Hpre & Hm).
    exists (f :: pre), m, post. repeat split; auto.
    intros x [<- | Hx]; auto.
Qed.

(** X23: the second scan reads every module once: its order is a
    permutation of the modules given.  The module taken for the entry
    module is the first, in the order given, with a line that passes
    the marker test; it is moved to the end and the others, later
    modules with such a line included, keep their order. *)
Theorem modules_reordered srcFiles :
  Permutation (orderFiles srcFiles (findSysInit srcFiles)) srcFiles
  /\ (findSysInit srcFiles = None -> orderFiles srcFiles None = srcFiles)
  /\ forall k,
       findSysInit srcFiles = Some k ->
       exists pre m post,
         srcFiles = (pre ++ m :: post)%list /\ List.length pre = k
         /\ (forall f, In f pre -> fileHasSysInit f = false)
         /\ fileHasSysInit m = true
         /\ orderFiles srcFiles (Some k) = (pre ++ post ++ [m])%list.
Proof.
  assert (Hsome : forall k,
             findSysInit srcFiles = Some k ->
             exists pre m post,
               srcFiles = (pre ++ m :: post)%list /\ List.length pre = k
               /\ (forall f, In f pre -> fileHasSysInit f = false)
               /\ fileHasSysInit m = true
               /\ orderFiles srcFiles (Some k) = (pre ++ post ++ [m])%list).
  { intros k H.
    destruct (findSysInit_Some _ _ H) as (pre & m & post & -> & <- & Hpre & Hm).
    exists pre, m, post. repeat split; auto.
    unfold orderFiles. rewrite removeAt_app, nth_error_middle.
    now rewrite <- app_assoc. }
  split; [|split; [reflexivity | exact Hsome]].
  destruct (findSysInit srcFiles) as [k|] eqn:E; [|apply Permutation_refl].
  destruct (Hsome k eq_refl) as (pre & m & post & -> & _ & _ & _ & ->).
  apply Permutation_app_head. apply Permutation_sym, Permutation_cons_append.
Qed.

Lemma removeAt_In {A : Type} (l : list A) :
  forall k x, In x (removeAt k l) -> In x l.
Proof.
  induction l as [|y l IH]; intros k x H; [destruct k; exact H|].
  destruct k as [|k]; cbn [removeAt] in H; [now right|].
  destruct H as [<- | H]; [now left | right; eauto].
Qed.

Lemma orderFiles_In files k f : In f (orderFiles files k) -> In f files.
Proof.
  unfold orderFiles. destruct k as [k|]; [|auto].
  intros H. apply in_app_or in H. destruct H as [H | H].
  - eapply removeAt_In; eauto.
  - destruct (nth_error files k) eqn:E; [|destruct H].
    destruct H as [<- | []]. eapply nth_error_In; eauto.
Qed.

Lemma scanFile_blank f :
  (forall raw, In raw (Content f) -> removeCommentsAndSpaces raw = "") ->
  scanFile f = [].
Proof.
  unfold scanFile. induction (Content f) as [|raw rest IH]; intros H;
    [reflexivity|].
  cbn [flat_map]. rewrite (H raw) by (now left). cbn [String.eqb app].
  apply IH. intros r Hr. apply H. now right.
Qed.

Lemma flat_map_scanFile_blank files :
  (forall f raw, In f files -> In raw (Content f) ->
                 removeCommentsAndSpaces raw = "") ->
  flat_map scanFile files = [].
Proof.
  induction files as [|f files IH]; intros H; [reflexivity|].
  cbn [flat_map]. rewrite scanFile_blank by (intros; apply (H f); auto; now left).
  apply IH. intros g raw Hg. apply H. now right.
Qed.

(** X24: runs without commands.  With no module at all the run panics
    on the read of the first module.  With modules that hold only
    blank lines and comments it exits with code 1: for the missing
    entry point when several modules are given and none passes the
    marker test, before the destination file is opened; otherwise
    because no source line is left, after the destination file is
    opened. *)
Theorem no_commands srcFiles :
  (forall f raw, In f srcFiles -> In raw (Content f) ->
                 removeCommentsAndSpaces raw = "") ->
  translate srcFiles
  = match srcFiles with
    | [] => Crash
    | [_] => Exit 1 "No source lines found" true
    | _ =>
        match findSysInit srcFiles with
        | None => Exit 1 "Sys.init not found in any source file" false
        | Some _ => Exit 1 "No source lines found" true
        end
    end.
Proof.
  intros H. unfold translate, instructionsLinesOf.
  destruct srcFiles as [|f [|f' rest]].
  - reflexivity.
  - cbn [List.length Z.of_nat Pos.of_succ_nat Z.ltb Z.compare Pos.compare
           Pos.compare_cont nth_error option_map andb].
    rewrite andb_false_r.
    rewrite scanFile_blank by (intros; apply (H f); auto; now left).
    reflexivity.
  - assert (Hm : (1 <? Z.of_nat (List.length (f :: f' :: rest))) = true).
    { apply Z.ltb_lt. cbn [List.length]. lia. }
    rewrite Hm.
    destruct (findSysInit (f :: f' :: rest)) as [k|] eqn:E; [|reflexivity].
    cbn [andb].
    rewrite flat_map_scanFile_blank; [reflexivity|].
    intros g raw Hg. apply H. eapply orderFiles_In; eauto.
Qed.

Lemma no_commands_witness :
  translate [mkSrcFile "A.vm" [" // function Sys.init 0"];
             mkSrcFile "B.vm" [""; "// nothing"]]
  = Exit 1 "No source lines found" true.
Proof.
  apply (no_commands [mkSrcFile "A.vm" [" // function Sys.init 0"];
                      mkSrcFile "B.vm" [""; "// nothing"]]).
  intros f raw [<- | [<- | []]]; cbn [Content].
  - intros [<- | []]. reflexivity.
  - intros [<- | [<- | []]]; reflexivity.
Defined.
